(** * Invoice generation pipeline of [app/pdf_generator.py]

    A shallow embedding of the totals engine, the table built by the
    visual renderer, the trade-document serializer and the PDF/A-3
    assembler, together with the part of Python's [decimal] module
    (default context) that these functions call. *)

From Stdlib Require Import ZArith NArith QArith Qabs Lia Lqa String Ascii List Bool.
From stdpp Require Import base option gmap strings list.

Local Open Scope Z_scope.
Set Warnings "-register-all".

(** ** Exceptions and results *)

(** The exception classes that the modelled code can raise. *)
Inductive exn : Type :=
  | InvalidOperation   (* decimal.InvalidOperation, also for ConversionSyntax *)
  | Overflow           (* decimal.Overflow *)
  | DivisionByZero     (* decimal.DivisionByZero *)
  | TypeError
  | AttributeError
  | ValueError
  | PdfReadError.      (* pypdf cannot parse the buffer *)

Inductive result (A : Type) : Type :=
  | Ok (a : A)
  | Raise (e : exn).
Arguments Ok {A} a.
Arguments Raise {A} e.

(** Sequencing: an exception raised by the first computation ends the
    whole computation.  The instances give the notation [x ← m; k]. *)
Definition bind {A B : Type} (m : result A) (k : A -> result B) : result B :=
  match m with
  | Ok a => k a
  | Raise e => Raise e
  end.

#[global] Instance result_ret : MRet result := fun A a => Ok a.
#[global] Instance result_bind : MBind result := fun A B k m => bind m k.

Definition is_ok {A : Type} (m : result A) : bool :=
  match m with Ok _ => true | Raise _ => false end.

(** ** Decimal digits *)

Module Digits.

(** Number of decimal digits of a coefficient, [len(str(c))]; the
    coefficient 0 is written "0" and has one digit. *)
Fixpoint ndigits_fuel (fuel : nat) (c : N) : Z :=
  match fuel with
  | O => 1
  | S f => if (c <? 10)%N then 1 else 1 + ndigits_fuel f (c / 10)%N
  end.

Definition ndigits (c : N) : Z := ndigits_fuel (N.to_nat (N.size c)) c.

Definition digit_char (d : N) : ascii := ascii_of_N (48 + d).

(** [str(c)] for a non-negative integer, most significant digit first. *)
Fixpoint digits_fuel (fuel : nat) (c : N) (acc : list ascii) : list ascii :=
  match fuel with
  | O => digit_char (c mod 10) :: acc
  | S f =>
      if (c <? 10)%N then digit_char c :: acc
      else digits_fuel f (c / 10)%N (digit_char (c mod 10) :: acc)
  end.

Definition digits (c : N) : list ascii := digits_fuel (N.to_nat (N.size c)) c [].

Definition is_digit (a : ascii) : bool :=
  let n := N_of_ascii a in ((48 <=? n) && (n <=? 57))%N.

Definition digit_val (a : ascii) : N := (N_of_ascii a - 48)%N.

(** [int(s)] for a string of ASCII digits (the empty string gives 0). *)
Definition N_of_digits (l : list ascii) : N :=
  fold_left (fun acc a => (10 * acc + digit_val a)%N) l 0%N.

Definition pow10 (k : Z) : N := (10 ^ Z.to_N k)%N.

End Digits.
Export Digits.

(** ** Python's [decimal.Decimal] under the default context *)

(** The default context: [prec=28], [rounding=ROUND_HALF_EVEN],
    [Emin=-999999], [Emax=999999], [capitals=1], [clamp=0], traps for
    [InvalidOperation], [DivisionByZero] and [Overflow].  The program never
    changes it.  Signals that are not trapped (Inexact, Rounded, Subnormal,
    Underflow, Clamped) only set flags that the program never reads, so the
    model leaves the flags out. *)
Definition prec : Z := 28.
Definition Emax : Z := 999999.
Definition Emin : Z := -999999.
Definition Etiny : Z := Emin - prec + 1.
Definition Etop : Z := Emax - prec + 1.

(** A decimal is a sign ([true] for negative), a coefficient and an
    exponent, or one of the special values.  The payload of a NaN is its
    diagnostic digits as a number, 0 for none. *)
Inductive decimal : Type :=
  | Finite (sign : bool) (coeff : N) (exp : Z)
  | Infinity (sign : bool)
  | NaN (sign : bool) (payload : N)
  | sNaN (sign : bool) (payload : N).

Inductive rounding : Type := ROUND_HALF_UP | ROUND_HALF_EVEN.

Definition is_finite (d : decimal) : bool :=
  match d with Finite _ _ _ => true | _ => false end.

Definition is_nan (d : decimal) : bool :=
  match d with NaN _ _ | sNaN _ _ => true | _ => false end.

(** [Decimal.__bool__]: specials are true, a finite value is true when its
    coefficient is not zero. *)
Definition dec_bool (d : decimal) : bool :=
  match d with Finite _ c _ => negb (c =? 0)%N | _ => true end.

(** The rounding functions [_round_half_up] and [_round_half_even]: the
    coefficient [c] loses its last [drop] digits; the answer is 1 to round
    away from zero, 0 when the dropped digits are all zero, -1 otherwise.
    The source inspects the digit string: the first dropped digit is in
    "56789" exactly when twice the dropped part reaches [10^drop], and the
    dropped part is an exact half when twice it equals [10^drop]. *)
Definition round_half_up (c : N) (drop : Z) : Z :=
  let p := pow10 drop in
  let rem := (c mod p)%N in
  if (p <=? 2 * rem)%N then 1 else if (rem =? 0)%N then 0 else -1.

Definition round_half_even (c : N) (drop : Z) : Z :=
  let p := pow10 drop in
  let rem := (c mod p)%N in
  if ((2 * rem =? p) && N.even (c / p))%N then -1 else round_half_up c drop.

Definition pick_rounding_function (r : rounding) : N -> Z -> Z :=
  match r with
  | ROUND_HALF_UP => round_half_up
  | ROUND_HALF_EVEN => round_half_even
  end.

(** [Decimal._rescale(exp, rounding)]. *)
Definition rescale (r : rounding) (d : decimal) (exp : Z) : decimal :=
  match d with
  | Finite s c e =>
      if (c =? 0)%N then Finite s 0 exp
      else if exp <=? e then Finite s (c * pow10 (e - exp)) exp
      else
        let digits := ndigits c + e - exp in
        (* a value below a tenth of the last place is replaced by 10**(exp-1) *)
        let c1 := if digits <? 0 then 1%N else c in
        let digits1 := if digits <? 0 then 0 else digits in
        let drop := ndigits c1 - digits1 in
        let changed := pick_rounding_function r c1 drop in
        let coeff := (c1 / pow10 drop)%N in
        Finite s (if changed =? 1 then (coeff + 1)%N else coeff) exp
  | _ => d
  end.

(** [Decimal._fix_nan]: a payload longer than the precision keeps its last
    [prec] digits. *)
Definition fix_nan (d : decimal) : decimal :=
  match d with
  | NaN s p => if prec <? ndigits p then NaN s (p mod pow10 prec) else d
  | sNaN s p => if prec <? ndigits p then sNaN s (p mod pow10 prec) else d
  | _ => d
  end.

(** [Decimal._fix(context)]: round to the precision and keep the exponent
    in range; an overflow is trapped and raises. *)
Definition dec_fix (d : decimal) : result decimal :=
  match d with
  | Finite s c e =>
      if (c =? 0)%N then
        Ok (Finite s 0 (Z.min (Z.max e Etiny) Emax))
      else
        let exp_min := ndigits c + e - prec in
        if Etop <? exp_min then Raise Overflow
        else
          let exp_min := if exp_min <? Etiny then Etiny else exp_min in
          if e <? exp_min then
            let digits := ndigits c + e - exp_min in
            let c1 := if digits <? 0 then 1%N else c in
            let digits1 := if digits <? 0 then 0 else digits in
            let drop := ndigits c1 - digits1 in
            let changed := round_half_even c1 drop in
            let coeff := (c1 / pow10 drop)%N in
            let coeff := if 0 <? changed then (coeff + 1)%N else coeff in
            let over := prec <? ndigits coeff in
            let coeff := if over then (coeff / 10)%N else coeff in
            let exp_min := if over then exp_min + 1 else exp_min in
            if Etop <? exp_min then Raise Overflow
            else Ok (Finite s coeff exp_min)
          else Ok d
  | Infinity _ => Ok d
  | _ => Ok (fix_nan d)
  end.

(** [Decimal._check_nans]: a signaling NaN raises, a quiet NaN is the
    answer of the operation. *)
Definition check_nans (a b : decimal) : result (option decimal) :=
  match a, b with
  | sNaN _ _, _ => Raise InvalidOperation
  | _, sNaN _ _ => Raise InvalidOperation
  | NaN _ _, _ => Ok (Some (fix_nan a))
  | _, NaN _ _ => Ok (Some (fix_nan b))
  | _, _ => Ok None
  end.

(** [_normalize(op1, op2, prec)]: bring both operands of an addition to the
    same exponent; an operand too small to matter is replaced by a one in
    the last place that can influence the rounding. *)
Definition normalize (c1 : N) (e1 : Z) (c2 : N) (e2 : Z) : (N * Z) * (N * Z) :=
  let swap := e1 <? e2 in
  let '(tc, te, oc, oe) := if swap then (c2, e2, c1, e1) else (c1, e1, c2, e2) in
  let exp := te + Z.min (-1) (ndigits tc - prec - 2) in
  let '(oc, oe) := if ndigits oc + oe - 1 <? exp then (1%N, exp) else (oc, oe) in
  let tc := (tc * pow10 (te - oe))%N in
  if swap then ((oc, oe), (tc, oe)) else ((tc, oe), (oc, oe)).

(** [Decimal.__add__]. *)
Definition dec_add (a b : decimal) : result decimal :=
  nan ← check_nans a b;
  match nan with
  | Some d => Ok d
  | None =>
      match a, b with
      | Infinity s1, Infinity s2 =>
          if Bool.eqb s1 s2 then Ok a else Raise InvalidOperation
      | Infinity _, _ => Ok a
      | _, Infinity _ => Ok b
      | Finite s1 c1 e1, Finite s2 c2 e2 =>
          let exp := Z.min e1 e2 in
          if ((c1 =? 0) && (c2 =? 0))%N then dec_fix (Finite (s1 && s2) 0 exp)
          else if (c1 =? 0)%N then
            dec_fix (rescale ROUND_HALF_EVEN b (Z.max exp (e2 - prec - 1)))
          else if (c2 =? 0)%N then
            dec_fix (rescale ROUND_HALF_EVEN a (Z.max exp (e1 - prec - 1)))
          else
            let '((n1, ne), (n2, _)) := normalize c1 e1 c2 e2 in
            if Bool.eqb s1 s2 then dec_fix (Finite s1 (n1 + n2) ne)
            else if (n1 =? n2)%N then dec_fix (Finite false 0 exp)
            else if (n1 <? n2)%N then dec_fix (Finite s2 (n2 - n1) ne)
            else dec_fix (Finite s1 (n1 - n2) ne)
      | _, _ => Ok a (* unreachable: NaNs were handled by check_nans *)
      end
  end.

(** [Decimal.__mul__].  The source's shortcuts for a zero operand and for a
    coefficient "1" build the same triple as the general product. *)
Definition dec_mul (a b : decimal) : result decimal :=
  nan ← check_nans a b;
  match nan with
  | Some d => Ok d
  | None =>
      match a, b with
      | Infinity s1, Infinity s2 => Ok (Infinity (xorb s1 s2))
      | Infinity s1, Finite s2 c2 _ =>
          if (c2 =? 0)%N then Raise InvalidOperation else Ok (Infinity (xorb s1 s2))
      | Finite s1 c1 _, Infinity s2 =>
          if (c1 =? 0)%N then Raise InvalidOperation else Ok (Infinity (xorb s1 s2))
      | Finite s1 c1 e1, Finite s2 c2 e2 =>
          dec_fix (Finite (xorb s1 s2) (c1 * c2) (e1 + e2))
      | _, _ => Ok a
      end
  end.

(** The loop of [__truediv__] that moves an exact quotient towards the
    ideal exponent. *)
Fixpoint strip_to_ideal (fuel : nat) (coeff : N) (exp ideal : Z) : N * Z :=
  match fuel with
  | O => (coeff, exp)
  | S f =>
      if (exp <? ideal) && (coeff mod 10 =? 0)%N
      then strip_to_ideal f (coeff / 10)%N (exp + 1) ideal
      else (coeff, exp)
  end.

(** [Decimal.__truediv__]. *)
Definition dec_div (a b : decimal) : result decimal :=
  nan ← check_nans a b;
  match nan with
  | Some d => Ok d
  | None =>
      match a, b with
      | Infinity _, Infinity _ => Raise InvalidOperation
      | Infinity s1, Finite s2 _ _ => Ok (Infinity (xorb s1 s2))
      | Finite s1 _ _, Infinity s2 => Ok (Finite (xorb s1 s2) 0 Etiny)
      | Finite s1 c1 e1, Finite s2 c2 e2 =>
          let sign := xorb s1 s2 in
          if (c2 =? 0)%N then
            if (c1 =? 0)%N then Raise InvalidOperation else Raise DivisionByZero
          else if (c1 =? 0)%N then dec_fix (Finite sign 0 (e1 - e2))
          else
            let shift := ndigits c2 - ndigits c1 + prec + 1 in
            let exp := e1 - e2 - shift in
            let num := if 0 <=? shift then (c1 * pow10 shift)%N else c1 in
            let den := if 0 <=? shift then c2 else (c2 * pow10 (- shift))%N in
            let coeff := (num / den)%N in
            let remainder := (num mod den)%N in
            if negb (remainder =? 0)%N then
              dec_fix (Finite sign (if (coeff mod 5 =? 0)%N then (coeff + 1)%N else coeff) exp)
            else
              let ideal := e1 - e2 in
              let '(coeff, exp) := strip_to_ideal (Z.to_nat (ideal - exp)) coeff exp ideal in
              dec_fix (Finite sign coeff exp)
      | _, _ => Ok a
      end
  end.

(** [Decimal.adjusted()]: the exponent of the leading digit. *)
Definition adjusted (c : N) (e : Z) : Z := e + ndigits c - 1.

(** [Decimal.quantize(exp, rounding)]. *)
Definition quantize (r : rounding) (d q : decimal) : result decimal :=
  nan ← check_nans d q;
  match nan with
  | Some x => Ok x
  | None =>
      match d, q with
      | Infinity _, Infinity _ => Ok d
      | Infinity _, _ => Raise InvalidOperation
      | _, Infinity _ => Raise InvalidOperation
      | Finite s c e, Finite _ _ qe =>
          if negb ((Etiny <=? qe) && (qe <=? Emax)) then Raise InvalidOperation
          else if (c =? 0)%N then dec_fix (Finite s 0 qe)
          else if Emax <? adjusted c e then Raise InvalidOperation
          else if prec <? adjusted c e - qe + 1 then Raise InvalidOperation
          else
            match rescale r d qe with
            | Finite s' c' e' =>
                if Emax <? adjusted c' e' then Raise InvalidOperation
                else if prec <? ndigits c' then Raise InvalidOperation
                else dec_fix (Finite s' c' e')
            | x => Ok x
            end
      | _, _ => Ok d
      end
  end.

(** The signed coefficient of a finite decimal at exponent [m], used by
    [_cmp]: the source compares adjusted exponents and zero-padded digit
    strings, which orders the operands by value. *)
Definition signed_at (m : Z) (s : bool) (c : N) (e : Z) : Z :=
  let v := Z.of_N (c * pow10 (e - m)) in
  if s then - v else v.

Definition inf_rank (d : decimal) : Z :=
  match d with
  | Infinity false => 1
  | Infinity true => -1
  | _ => 0
  end.

(** [Decimal._cmp] for operands that are not NaN. *)
Definition dec_cmp (a b : decimal) : comparison :=
  match a, b with
  | Finite s1 c1 e1, Finite s2 c2 e2 =>
      let m := Z.min e1 e2 in
      signed_at m s1 c1 e1 ?= signed_at m s2 c2 e2
  | _, _ => inf_rank a ?= inf_rank b
  end.

(** [Decimal.__eq__]: false when a quiet NaN is involved, a signaling NaN
    raises. *)
Definition dec_eq (a b : decimal) : result bool :=
  nan ← check_nans a b;
  match nan with
  | Some _ => Ok false
  | None => Ok (match dec_cmp a b with Eq => true | _ => false end)
  end.

(** [Decimal.__gt__] and [Decimal.__lt__]: any NaN raises. *)
Definition dec_gt (a b : decimal) : result bool :=
  if is_nan a || is_nan b then Raise InvalidOperation
  else Ok (match dec_cmp a b with Gt => true | _ => false end).

Definition dec_lt (a b : decimal) : result bool :=
  if is_nan a || is_nan b then Raise InvalidOperation
  else Ok (match dec_cmp a b with Lt => true | _ => false end).

(** [Decimal.__hash__] only matters through its failure on a signaling NaN. *)
Definition dec_hashable (d : decimal) : result unit :=
  match d with sNaN _ _ => Raise TypeError | _ => Ok tt end.

(** [Decimal(n)] for an integer. *)
Definition Decimal_of_int (n : Z) : decimal :=
  Finite (n <? 0) (Z.abs_N n) 0.

(** ** Python strings *)

(** Strings are byte strings here: the characters that the modelled code
    inspects (digits, signs, separators, white space) are ASCII, and text
    outside ASCII is carried along as its UTF-8 bytes. *)
Module PyStr.

Definition chars (s : string) : list ascii := list_ascii_of_string s.
Definition str (l : list ascii) : string := string_of_list_ascii l.

(** [str.isspace] on ASCII. *)
Definition is_space (a : ascii) : bool :=
  let n := N_of_ascii a in
  (((9 <=? n) && (n <=? 13)) || ((28 <=? n) && (n <=? 32)))%N.

Fixpoint lstrip (l : list ascii) : list ascii :=
  match l with
  | a :: r => if is_space a then lstrip r else l
  | [] => []
  end.

Definition rstrip (l : list ascii) : list ascii := rev (lstrip (rev l)).

(** [s.strip()]. *)
Definition strip (l : list ascii) : list ascii := rstrip (lstrip l).

(** [s.replace(old, new)] for a one-character [old]. *)
Definition replace (old : ascii) (new : list ascii) (l : list ascii) : list ascii :=
  flat_map (fun a => if Ascii.eqb a old then new else [a]) l.

(** ASCII lower case, for the case-insensitive matches. *)
Definition lower (a : ascii) : ascii :=
  let n := N_of_ascii a in
  if ((65 <=? n) && (n <=? 90))%N then ascii_of_N (n + 32) else a.

(** The longest prefix whose characters satisfy [p], and the rest. *)
Fixpoint span (p : ascii -> bool) (l : list ascii) : list ascii * list ascii :=
  match l with
  | a :: r =>
      if p a then let '(x, y) := span p r in (a :: x, y) else ([], l)
  | [] => ([], [])
  end.

(** ["%d" % n] and ["%+d" % n]. *)
Definition str_of_Z (n : Z) : list ascii :=
  (if n <? 0 then ["-"%char] else []) ++ digits (Z.abs_N n).

Definition str_of_Z_signed (n : Z) : list ascii :=
  (if n <? 0 then "-"%char else "+"%char) :: digits (Z.abs_N n).

Definition zeros (k : Z) : list ascii := repeat "0"%char (Z.to_nat k).

End PyStr.

(** ** Conversions between decimals and strings *)

(** A sign character, if any. *)
Definition parse_sign (l : list ascii) : bool * list ascii :=
  match l with
  | "-"%char :: r => (true, r)
  | "+"%char :: r => (false, r)
  | _ => (false, l)
  end.

(** The exponent part after the letter E: an optional sign and at least one
    digit, up to the end of the string. *)
Definition parse_exponent (l : list ascii) : option Z :=
  let '(neg, r) := parse_sign l in
  let '(ds, rest) := PyStr.span is_digit r in
  match ds, rest with
  | _ :: _, [] =>
      Some (if neg then - Z.of_N (N_of_digits ds) else Z.of_N (N_of_digits ds))
  | _, _ => None
  end.

(** A finite number: digits with an optional point and an optional
    exponent, with at least one digit before or after the point. *)
Definition parse_finite (l : list ascii) : option (N * Z) :=
  let '(ip, r1) := PyStr.span is_digit l in
  let '(fp, r2) :=
    match r1 with
    | "."%char :: r => PyStr.span is_digit r
    | _ => ([], r1)
    end in
  match ip ++ fp with
  | [] => None
  | ds =>
      let e :=
        match r2 with
        | [] => Some 0
        | a :: r =>
            if Ascii.eqb (PyStr.lower a) "e"%char then parse_exponent r else None
        end in
      match e with
      | Some e => Some (N_of_digits ds, e - Z.of_nat (length fp))
      | None => None
      end
  end.

(** The digits of a NaN's diagnostic, up to the end of the string. *)
Definition parse_diag (l : list ascii) : option N :=
  let '(ds, rest) := PyStr.span is_digit l in
  match rest with
  | [] => Some (N_of_digits ds)
  | _ => None
  end.

(** The special values, matched without regard to case. *)
Definition parse_special (s : bool) (l : list ascii) : option decimal :=
  match map PyStr.lower l with
  | ["i"; "n"; "f"]%char => Some (Infinity s)
  | ["i"; "n"; "f"; "i"; "n"; "i"; "t"; "y"]%char => Some (Infinity s)
  | ("n" :: "a" :: "n" :: r)%char =>
      match parse_diag r with Some p => Some (NaN s p) | None => None end
  | ("s" :: "n" :: "a" :: "n" :: r)%char =>
      match parse_diag r with Some p => Some (sNaN s p) | None => None end
  | _ => None
  end.

(** The grammar of numeric strings of the [decimal] module. *)
Definition parse_decimal (l : list ascii) : option decimal :=
  let '(s, r) := parse_sign l in
  match parse_finite r with
  | Some (c, e) => Some (Finite s c e)
  | None => parse_special s r
  end.

(** [Decimal(value)] for a string: white space around the text and
    underscores are dropped, and text outside the grammar raises
    [InvalidOperation] (its condition is ConversionSyntax).  The constructor
    does not round. *)
Definition Decimal_of_str (value : string) : result decimal :=
  match parse_decimal (PyStr.replace "_"%char [] (PyStr.strip (PyStr.chars value))) with
  | Some d => Ok d
  | None => Raise InvalidOperation
  end.

(** [str(d)], scientific notation with a capital E. *)
Definition dec_str (d : decimal) : string :=
  let sign (s : bool) := if s then ["-"%char] else [] in
  PyStr.str
    match d with
    | Infinity s => sign s ++ PyStr.chars "Infinity"
    | NaN s p => sign s ++ PyStr.chars "NaN" ++ (if (p =? 0)%N then [] else digits p)
    | sNaN s p => sign s ++ PyStr.chars "sNaN" ++ (if (p =? 0)%N then [] else digits p)
    | Finite s c e =>
        let int := digits c in
        let len := Z.of_nat (length int) in
        let leftdigits := e + len in
        let dotplace := if (e <=? 0) && (-6 <? leftdigits) then leftdigits else 1 in
        let intpart :=
          if dotplace <=? 0 then ["0"%char]
          else if len <=? dotplace then int ++ PyStr.zeros (dotplace - len)
          else take (Z.to_nat dotplace) int in
        let fracpart :=
          if dotplace <=? 0 then "."%char :: PyStr.zeros (- dotplace) ++ int
          else if len <=? dotplace then []
          else "."%char :: drop (Z.to_nat dotplace) int in
        let exp :=
          if leftdigits =? dotplace then []
          else "E"%char :: PyStr.str_of_Z_signed (leftdigits - dotplace) in
        sign s ++ intpart ++ fracpart ++ exp
    end.

(** [_insert_thousands_sep] for groups of three and no minimum width; the
    digits arrive least significant first. *)
Fixpoint group3 (rev_digits : list ascii) (sep : ascii) : list ascii :=
  match rev_digits with
  | a :: b :: c :: ((_ :: _) as r) => a :: b :: c :: sep :: group3 r sep
  | l => l
  end.

Definition insert_thousands_sep (ds : list ascii) (sep : ascii) : list ascii :=
  rev (group3 (rev ds) sep).

(** [format(d, ",.2f")]: the value is rescaled to two places with the
    context's rounding (half even), then written in fixed point with a
    comma between groups of three digits.  Special values are written as
    [str] writes them. *)
Definition format_2f (d : decimal) : list ascii :=
  match d with
  | Finite _ _ _ =>
      match rescale ROUND_HALF_EVEN d (-2) with
      | Finite s c e =>
          let int := digits c in
          let len := Z.of_nat (length int) in
          let dotplace := e + len in
          let intpart :=
            if dotplace <? 0 then ["0"%char]
            else if len <? dotplace then int ++ PyStr.zeros (dotplace - len)
            else match take (Z.to_nat dotplace) int with
                 | [] => ["0"%char]
                 | l => l
                 end in
          let fracpart :=
            if dotplace <? 0 then PyStr.zeros (- dotplace) ++ int
            else if len <? dotplace then []
            else drop (Z.to_nat dotplace) int in
          (if s then ["-"%char] else [])
            ++ insert_thousands_sep intpart ","%char
            ++ (match fracpart with [] => [] | _ => "."%char :: fracpart end)
      | x => PyStr.chars (dec_str x)
      end
  | Infinity s => PyStr.chars (dec_str d)
  | NaN s p => PyStr.chars (dec_str d)
  | sNaN s p => PyStr.chars (dec_str d)
  end.

(** ** Python values and dictionaries *)

(** The values that a form field or an item field can hold.  Floats are
    left out: the web layer hands over strings and [Decimal] objects. *)
Inductive PyVal : Type :=
  | VNone
  | VBool (b : bool)
  | VInt (n : Z)
  | VStr (s : string)
  | VDec (d : decimal).

(** Truth value of an object, as [or] and [if] test it. *)
Definition truthy (v : PyVal) : bool :=
  match v with
  | VNone => false
  | VBool b => b
  | VInt n => negb (n =? 0)
  | VStr s => negb (String.eqb s "")
  | VDec d => dec_bool d
  end.

(** [str(v)], which is also how an f-string writes [v]. *)
Definition py_str (v : PyVal) : string :=
  match v with
  | VNone => "None"
  | VBool true => "True"
  | VBool false => "False"
  | VInt n => PyStr.str (PyStr.str_of_Z n)
  | VStr s => s
  | VDec d => dec_str d
  end.

(** [a or b]. *)
Definition py_or (a b : PyVal) : PyVal := if truthy a then a else b.

(** [d.get(key)] and [d.get(key, dflt)]. *)
Definition dict_get (d : gmap string PyVal) (key : string) : PyVal :=
  default VNone (d !! key).

Definition dict_get_default (d : gmap string PyVal) (key : string) (dflt : PyVal) : PyVal :=
  default dflt (d !! key).

(** [v == "literal"] for a string literal: only an equal string is equal. *)
Definition py_eq_str (v : PyVal) (lit : string) : bool :=
  match v with
  | VStr s => String.eqb s lit
  | _ => false
  end.

(** ** The totals engine: [_calculate_totals] *)

Record bucket : Type := { basis : decimal; vat : decimal }.

(** [vat_summary] is a dict keyed by the rate; the model keeps its entries
    in insertion order, which is the order in which the dict is iterated. *)
Abbreviation vat_summary := (list (decimal * bucket)).

Definition TWO_PLACES : decimal := Finite false 1 (-2).       (* Decimal("0.01") *)
Definition FOUR_PLACES : decimal := Finite false 1 (-4).      (* Decimal("0.0001") *)
Definition Decimal_0_0 : decimal := Finite false 0 (-1).      (* Decimal("0.0") *)
Definition Decimal_100_0 : decimal := Finite false 1000 (-1). (* Decimal("100.0") *)
Definition Decimal_1 : decimal := Finite false 1 0.           (* Decimal("1") *)

(** [Decimal(str(item.get(key, "0") or "0"))]. *)
Definition item_decimal (item : gmap string PyVal) (key : string) : result decimal :=
  Decimal_of_str (py_str (py_or (dict_get_default item key (VStr "0")) (VStr "0"))).

(** The effective rate of an item: the stored rate is not even read for a
    small business. *)
Definition effective_rate (is_small_business : bool) (item : gmap string PyVal)
  : result decimal :=
  if is_small_business then Ok Decimal_0_0 else item_decimal item "vat_rate".

(** Equality of dict keys.  Keys are hashed before they are compared, so no
    signaling NaN gets here; a quiet NaN equals no key. *)
Definition key_eqb (k rate : decimal) : bool :=
  match dec_eq k rate with
  | Ok b => b
  | Raise _ => false
  end.

(** Lines 44 to 49 of the source for one rate: the bucket of the rate is
    created with zero amounts when the rate is not yet a key, then [f]
    updates its amounts.  A rate that equals no key (a new rate, or a NaN,
    which is found again only as the object just inserted) gets a new entry
    at the end. *)
Fixpoint update_bucket (rate : decimal) (f : bucket -> result bucket)
    (s : vat_summary) : result vat_summary :=
  match s with
  | [] =>
      b ← f {| basis := Decimal_0_0; vat := Decimal_0_0 |};
      Ok [(rate, b)]
  | (k, b) :: r =>
      if key_eqb k rate then b' ← f b; Ok ((k, b') :: r)
      else r' ← update_bucket rate f r; Ok ((k, b) :: r')
  end.

(** One iteration of the loop over the items; the state is [total_netto]
    and [vat_summary]. *)
Definition totals_step (is_small_business : bool) (st : decimal * vat_summary)
    (item : gmap string PyVal) : result (decimal * vat_summary) :=
  quantity ← item_decimal item "quantity";
  unit_price ← item_decimal item "unit_price";
  vat_rate ← effective_rate is_small_business item;
  line_netto ← dec_mul quantity unit_price;
  total_netto ← dec_add (fst st) line_netto;
  _ ← dec_hashable vat_rate;
  summary ← update_bucket vat_rate
    (fun b =>
       basis' ← dec_add (basis b) line_netto;
       fraction ← dec_div vat_rate Decimal_100_0;
       line_vat ← dec_mul line_netto fraction;
       rounded ← quantize ROUND_HALF_UP line_vat TWO_PLACES;
       vat' ← dec_add (vat b) rounded;
       Ok {| basis := basis'; vat := vat' |})
    (snd st);
  Ok (total_netto, summary).

Fixpoint totals_loop (is_small_business : bool) (items : list (gmap string PyVal))
    (st : decimal * vat_summary) : result (decimal * vat_summary) :=
  match items with
  | [] => Ok st
  | item :: rest =>
      st' ← totals_step is_small_business st item;
      totals_loop is_small_business rest st'
  end.

Fixpoint sum_from (acc : decimal) (l : list decimal) : result decimal :=
  match l with
  | [] => Ok acc
  | d :: r => acc' ← dec_add acc d; sum_from acc' r
  end.

(** [sum(...)] over decimals: it starts from the integer 0, which is what
    it returns for no element; the first addition is [d.__radd__(0)]. *)
Definition py_sum (l : list decimal) : result PyVal :=
  match l with
  | [] => Ok (VInt 0)
  | d :: r =>
      acc ← dec_add d (Decimal_of_int 0);
      total ← sum_from acc r;
      Ok (VDec total)
  end.

(** [total_netto + total_vat], where [total_vat] is a decimal or the
    integer that [sum] returns for an empty summary. *)
Definition add_total (total_netto : decimal) (total_vat : PyVal) : result decimal :=
  match total_vat with
  | VDec d => dec_add total_netto d
  | VInt n => dec_add total_netto (Decimal_of_int n)
  | _ => Raise TypeError
  end.

Definition _calculate_totals (items : list (gmap string PyVal)) (is_small_business : bool)
  : result (decimal * PyVal * decimal * vat_summary) :=
  st ← totals_loop is_small_business items (Decimal_0_0, []);
  total_vat ← py_sum (map (fun kv => vat (snd kv)) (snd st));
  total_brutto ← add_total (fst st) total_vat;
  Ok (fst st, total_vat, total_brutto, snd st).

(** [_get_tax_category_code]. *)
Definition _get_tax_category_code (vat_rate_str : string) : result string :=
  rate ← Decimal_of_str vat_rate_str;
  positive ← dec_gt rate (Decimal_of_int 0);
  Ok (if positive : bool then "S" else "O").

(** ** The world outside the program *)

Record date : Type := { year : Z; month : Z; day : Z }.

(** ** The visual renderer: [_build_reportlab_pdf] *)

(** A table cell: a value put into the table as it is (the description), a
    plain string, or a [Paragraph] with its markup and style name. *)
Inductive cell : Type :=
  | CellVal (v : PyVal)
  | CellText (s : string)
  | CellPara (markup : string) (style : string).

Abbreviation row := (list cell).

(** What the page callback [_draw_header_and_footer] draws. *)
Record decoration : Type := {
  footer_notes : string;       (* markup of the left footer column *)
  footer_details : string;     (* markup of the right footer column *)
  logo_drawn : bool;
  receiver_address : string;
  sender_line : string;
  invoice_details : string
}.

Record page : Type := {
  pg_font : string;
  pg_decoration : decoration;
  pg_rows : list row
}.

(** PDF objects, as far as the assembler builds them. *)
Inductive xml : Type :=
  | Element (tag : string) (attrib : list (string * string)) (text : PyVal)
      (children : list xml).

Inductive stream_data : Type :=
  | DataText (s : string)
  | DataFile (content : string)
  | DataXml (root : xml).

Inductive pdf_obj : Type :=
  | NameObject (s : string)
  | TextStringObject (s : string)
  | IndirectObject (n : nat)
  | ArrayObject (l : list pdf_obj)
  | DictionaryObject (d : list (string * pdf_obj))
  | StreamObject (d : list (string * pdf_obj)) (data : stream_data).

Abbreviation pdf_dict := (list (string * pdf_obj)).

(** A PDF file: its pages, the entries of its catalog and its other
    indirect objects. *)
Record pdf_document : Type := {
  doc_pages : list page;
  doc_root : pdf_dict;
  doc_objects : list pdf_obj
}.

(** A byte buffer, either the bytes of a PDF document or bytes that no PDF
    reader can parse. *)
Inductive pdf_buffer : Type :=
  | PdfBytes (doc : pdf_document)
  | Unparseable.

(** The files, the clock and the libraries' layout decisions. *)
Record env : Type := {
  font_exists : bool;                      (* os.path.exists(FONT_PATH) *)
  icc_profile : option string;             (* content of ICC_PROFILE_PATH, if it exists *)
  image_loads : string -> bool;            (* whether drawImage can load the logo *)
  today : string;                          (* datetime.now().strftime('%Y-%m-%d') *)
  now_stamp : string;                      (* datetime.now().strftime('%Y%m%d%H%M%S') *)
  uuid_hex6 : string;                      (* uuid.uuid4().hex[:6].upper() *)
  flow : list row -> list (list row);      (* how the table is split over pages *)
  layout_catalog : pdf_dict                (* the catalog that the layout library writes *)
}.

Definition euro (s : string) : string := s +:+ " €".

(** [format_currency]: thousands separated by a point, a decimal comma. *)
Definition format_currency (value : decimal) : string :=
  PyStr.str
    (PyStr.replace "X"%char ["."%char]
       (PyStr.replace "."%char [","%char]
          (PyStr.replace ","%char ["X"%char] (format_2f value)))).

(** [form_data.get('is_small_business') == 'true']. *)
Definition is_small_business_flag (form_data : gmap string PyVal) : bool :=
  py_eq_str (dict_get form_data "is_small_business") "true".

Definition disclaimer : string :=
  "Gemäß § 19 UStG wird keine Umsatzsteuer berechnet." +:+ String "010"%char "".

(** [notes.strip()]: only a string has the method. *)
Definition py_strip (v : PyVal) : result string :=
  match v with
  | VStr s => Ok (PyStr.str (PyStr.strip (PyStr.chars s)))
  | _ => Raise AttributeError
  end.

(** ["literal" + notes]: only a string can be appended to a string. *)
Definition py_concat (lit : string) (v : PyVal) : result PyVal :=
  match v with
  | VStr s => Ok (VStr (lit +:+ s))
  | _ => Raise TypeError
  end.

Definition join_br (lines : list string) : string :=
  match lines with
  | [] => ""
  | l :: r => fold_left (fun acc x => acc +:+ "<br/>" +:+ x) r l
  end.

(** The notes of the footer: the disclaimer is put in front for a small
    business. *)
Definition footer_notes_of (form_data : gmap string PyVal) : result (list string) :=
  let notes := dict_get_default form_data "notes" (VStr "") in
  notes ← (if is_small_business_flag form_data then py_concat disclaimer notes
           else Ok notes);
  stripped ← py_strip notes;
  if truthy (VStr stripped) then
    Ok ["<b>Anmerkungen / Zahlungsbedingungen:</b><br/>"
          +:+ PyStr.str (PyStr.replace "010"%char (PyStr.chars "<br/>") (PyStr.chars stripped))]
  else Ok [].

Definition detail_line (form_data : gmap string PyVal) (key label : string) : list string :=
  if truthy (dict_get form_data key)
  then ["<b>" +:+ label +:+ ":</b> " +:+ py_str (dict_get form_data key)]
  else [].

Definition field (form_data : gmap string PyVal) (key : string) : string :=
  py_str (dict_get_default form_data key (VStr "")).

(** [_draw_header_and_footer], called for every page. *)
Definition _draw_header_and_footer (e : env) (form_data : gmap string PyVal)
    (logo_path : option string) : result decoration :=
  footer_lines ← footer_notes_of form_data;
  let details_lines :=
    detail_line form_data "sender_iban" "IBAN"
    ++ detail_line form_data "sender_tax_id" "Steuernummer"
    ++ detail_line form_data "register_court" "Amtsgericht"
    ++ detail_line form_data "register_number" "Registernummer"
    ++ detail_line form_data "managing_director" "Geschäftsführer" in
  Ok {|
    footer_notes := join_br footer_lines;
    footer_details := join_br details_lines;
    logo_drawn :=
      match logo_path with
      | Some p => truthy (VStr p) && image_loads e p
      | None => false
      end;
    receiver_address :=
      field form_data "receiver_name" +:+ "<br/>" +:+ field form_data "receiver_address"
      +:+ "<br/>" +:+ field form_data "receiver_zip" +:+ " " +:+ field form_data "receiver_city";
    sender_line :=
      field form_data "sender_name" +:+ " - " +:+ field form_data "sender_address"
      +:+ " - " +:+ field form_data "sender_zip" +:+ " " +:+ field form_data "sender_city";
    invoice_details :=
      "<b>Rechnungsnummer:</b> " +:+ field form_data "invoice_number"
      +:+ "<br/><b>Rechnungsdatum:</b> " +:+ field form_data "invoice_date"
      +:+ "<br/><b>Lieferdatum:</b> " +:+ field form_data "delivery_date"
      +:+ "<br/><b>Fälligkeitsdatum:</b> " +:+ field form_data "due_date"
  |}.

(** One row of the item table (lines 156 to 164). *)
Definition item_row (is_small_business : bool) (item : gmap string PyVal) : result row :=
  menge ← item_decimal item "quantity";
  preis ← item_decimal item "unit_price";
  vat_rate ← effective_rate is_small_business item;
  netto ← dec_mul menge preis;
  fraction ← dec_div vat_rate Decimal_100_0;
  factor ← dec_add Decimal_1 fraction;
  gesamt ← dec_mul netto factor;
  Ok [CellVal (dict_get_default item "description" (VStr ""));
      CellText (dec_str menge);
      CellText (euro (format_currency preis));
      CellText (euro (format_currency gesamt))].

Fixpoint item_rows (is_small_business : bool) (items : list (gmap string PyVal))
  : result (list row) :=
  match items with
  | [] => Ok []
  | item :: rest =>
      r ← item_row is_small_business item;
      rs ← item_rows is_small_business rest;
      Ok (r :: rs)
  end.

(** [sorted(vat_summary.items())]: the entries are ordered by their rates
    with [<], which raises for a NaN; the keys of a dict are pairwise
    different, so the amounts are never compared. *)
Fixpoint insert_sorted (x : decimal * bucket) (l : vat_summary) : result vat_summary :=
  match l with
  | [] => Ok [x]
  | y :: r =>
      lt ← dec_lt (fst x) (fst y);
      if lt : bool then Ok (x :: y :: r)
      else r' ← insert_sorted x r; Ok (y :: r')
  end.

Fixpoint sorted_items (l : vat_summary) : result vat_summary :=
  match l with
  | [] => Ok []
  | x :: r => r' ← sorted_items r; insert_sorted x r'
  end.

Definition vat_row (kv : decimal * bucket) : row :=
  [CellText ""; CellText "";
   CellPara (dec_str (fst kv) +:+ "% MwSt:") "RightAlign";
   CellText (euro (format_currency (vat (snd kv))))].

(** The loop of lines 171 to 173: a row for every bucket whose VAT amount
    is greater than zero. *)
Fixpoint vat_rows_of (l : vat_summary) : result (list row) :=
  match l with
  | [] => Ok []
  | kv :: r =>
      positive ← dec_gt (vat (snd kv)) (Decimal_of_int 0);
      rs ← vat_rows_of r;
      Ok (if positive : bool then vat_row kv :: rs else rs)
  end.

Definition vat_rows (is_small_business : bool) (summary : vat_summary)
  : result (list row) :=
  if is_small_business then Ok []
  else sorted ← sorted_items summary; vat_rows_of sorted.

Definition header_row : row :=
  [CellText "Beschreibung"; CellText "Menge"; CellText "Einzelpreis"; CellText "Gesamt"].

Definition netto_row (total_netto : decimal) : row :=
  [CellText ""; CellText ""; CellPara "Netto:" "RightAlign";
   CellText (euro (format_currency total_netto))].

Definition gesamt_row (total_brutto : decimal) : row :=
  [CellText ""; CellText ""; CellPara "<b>Gesamt:</b>" "RightAlign";
   CellPara ("<b>" +:+ euro (format_currency total_brutto) +:+ "</b>") "RightAlign"].

(** The list [data] of the item table (lines 151 to 175). *)
Definition table_data (form_data : gmap string PyVal) (items : list (gmap string PyVal))
  : result (list row) :=
  let is_small_business := is_small_business_flag form_data in
  totals ← _calculate_totals items is_small_business;
  let '(total_netto, _, total_brutto, vat_summary_details) := totals in
  rows ← item_rows is_small_business items;
  vrows ← vat_rows is_small_business vat_summary_details;
  Ok (header_row :: rows ++ [netto_row total_netto] ++ vrows ++ [gesamt_row total_brutto]).

(** [_build_reportlab_pdf]: the table is laid out over the pages, and every
    page gets the header and the footer.  A document has at least one page,
    so the callback always runs. *)
Definition _build_reportlab_pdf (e : env) (form_data : gmap string PyVal)
    (items : list (gmap string PyVal)) (logo_path : option string) : result pdf_buffer :=
  let main_font := if font_exists e then "DejaVuSans" else "Helvetica" in
  data ← table_data form_data items;
  deco ← _draw_header_and_footer e form_data logo_path;
  let mk rows := {| pg_font := main_font; pg_decoration := deco; pg_rows := rows |} in
  let pages := match flow e data with [] => [mk []] | l => map mk l end in
  Ok (PdfBytes {| doc_pages := pages; doc_root := layout_catalog e; doc_objects := [] |}).

(** ** Dates: [datetime.strptime(s, '%Y-%m-%d')] and [strftime('%Y%m%d')] *)

Definition is_leap (y : Z) : bool :=
  ((y mod 4 =? 0) && negb (y mod 100 =? 0)) || (y mod 400 =? 0).

Definition days_in_month (y m : Z) : Z :=
  if m =? 2 then (if is_leap y then 29 else 28)
  else if (m =? 4) || (m =? 6) || (m =? 9) || (m =? 11) then 30
  else 31.

(** The month directive matches [1[0-2]|0[1-9]|[1-9]]; the hyphen that
    follows decides between the alternatives. *)
Definition parse_month (l : list ascii) : option (Z * list ascii) :=
  match l with
  | a :: b :: "-"%char :: r =>
      if is_digit a && is_digit b then
        let m := Z.of_N (N_of_digits [a; b]) in
        if (1 <=? m) && (m <=? 12) then Some (m, r) else None
      else None
  | a :: "-"%char :: r =>
      if is_digit a && negb (Ascii.eqb a "0"%char)
      then Some (Z.of_N (digit_val a), r) else None
  | _ => None
  end.

(** The day directive matches [3[0-1]|[1-2]\d|0[1-9]|[1-9]| [1-9]], and no
    character may remain after it. *)
Definition parse_day (l : list ascii) : option Z :=
  match l with
  | [a; b] =>
      if is_digit a && is_digit b then
        let d := Z.of_N (N_of_digits [a; b]) in
        if (1 <=? d) && (d <=? 31) then Some d else None
      else if Ascii.eqb a " "%char && is_digit b && negb (Ascii.eqb b "0"%char)
      then Some (Z.of_N (digit_val b)) else None
  | [a] =>
      if is_digit a && negb (Ascii.eqb a "0"%char)
      then Some (Z.of_N (digit_val a)) else None
  | _ => None
  end.

Definition parse_ymd (l : list ascii) : option date :=
  match l with
  | y1 :: y2 :: y3 :: y4 :: "-"%char :: r =>
      if is_digit y1 && is_digit y2 && is_digit y3 && is_digit y4 then
        match parse_month r with
        | Some (m, r') =>
            match parse_day r' with
            | Some d =>
                let y := Z.of_N (N_of_digits [y1; y2; y3; y4]) in
                if (1 <=? y) && (d <=? days_in_month y m)
                then Some {| year := y; month := m; day := d |} else None
            | None => None
            end
        | None => None
        end
      else None
  | _ => None
  end.

(** [datetime.strptime(v, '%Y-%m-%d')]: a value that is not a string is a
    [TypeError], a string that is not such a date is a [ValueError]. *)
Definition strptime (v : PyVal) : result date :=
  match v with
  | VStr s =>
      match parse_ymd (PyStr.chars s) with
      | Some d => Ok d
      | None => Raise ValueError
      end
  | _ => Raise TypeError
  end.

Definition pad (width : nat) (n : Z) : list ascii :=
  let ds := digits (Z.to_N n) in
  repeat "0"%char (width - length ds) ++ ds.

(** [strftime('%Y%m%d')]; the C library writes the year without padding. *)
Definition strftime (d : date) : string :=
  PyStr.str (pad 1 (year d) ++ pad 2 (month d) ++ pad 2 (day d)).

(** ** The trade-document serializer: [_generate_zugferd_xml] *)

Definition rsm (name : string) : string :=
  "{urn:un:unece:uncefact:data:standard:CrossIndustryInvoice:100}" +:+ name.
Definition ram (name : string) : string :=
  "{urn:un:unece:uncefact:data:standard:ReusableAggregateBusinessInformationEntity:100}"
  +:+ name.
Definition udt (name : string) : string :=
  "{urn:un:unece:uncefact:data:standard:UnqualifiedDataType:100}" +:+ name.

(** An element with a text and no child, and an element with children. *)
Definition leaf (tag : string) (text : PyVal) : xml := Element tag [] text [].
Definition leaf_attr (tag : string) (attrib : list (string * string)) (text : PyVal) : xml :=
  Element tag attrib text [].
Definition node (tag : string) (children : list xml) : xml := Element tag [] VNone children.

(** [x.quantize(q)] written by an f-string. *)
Definition quantized_text (d q : decimal) : result PyVal :=
  r ← quantize ROUND_HALF_EVEN d q;
  Ok (VStr (dec_str r)).

(** [total_vat.quantize(TWO_PLACES)]: the integer that [sum] returns for an
    empty summary has no such method. *)
Definition quantized_total (v : PyVal) : result PyVal :=
  match v with
  | VDec d => quantized_text d TWO_PLACES
  | _ => Raise AttributeError
  end.

Definition exemption (category_code : string) : list xml :=
  if String.eqb category_code "O" then [leaf (ram "ExemptionReasonCode") (VStr "VATEX-EU-DE")]
  else [].

(** One [IncludedSupplyChainTradeLineItem] (lines 236 to 265). *)
Definition line_item (is_small_business : bool) (i : nat) (item : gmap string PyVal)
  : result xml :=
  menge ← item_decimal item "quantity";
  preis ← item_decimal item "unit_price";
  vat_rate ← effective_rate is_small_business item;
  netto ← dec_mul menge preis;
  line_total ← quantize ROUND_HALF_UP netto TWO_PLACES;
  billed ← quantized_text menge FOUR_PLACES;
  category_code ← _get_tax_category_code (dec_str vat_rate);
  rate_text ← quantized_text vat_rate TWO_PLACES;
  total_text ← quantized_text line_total TWO_PLACES;
  charge ← quantized_text preis FOUR_PLACES;
  Ok (node (ram "IncludedSupplyChainTradeLineItem")
        [node (ram "AssociatedDocumentLineDocument")
           [leaf (ram "LineID") (VStr (PyStr.str (PyStr.str_of_Z (Z.of_nat i))))];
         node (ram "SpecifiedTradeProduct")
           [leaf (ram "Name") (dict_get_default item "description" (VStr "Beschreibung"))];
         node (ram "SpecifiedLineTradeDelivery")
           [leaf_attr (ram "BilledQuantity") [("unitCode", "C62")] billed];
         node (ram "SpecifiedLineTradeSettlement")
           [node (ram "ApplicableTradeTax")
              ([leaf (ram "TypeCode") (VStr "VAT");
                leaf (ram "CategoryCode") (VStr category_code)]
               ++ exemption category_code
               ++ [leaf (ram "RateApplicablePercent") rate_text]);
            node (ram "SpecifiedTradeSettlementLineMonetarySummation")
              [leaf (ram "LineTotalAmount") total_text]];
         node (ram "SpecifiedLineTradeAgreement")
           [node (ram "NetPriceProductTradePrice")
              [leaf (ram "ChargeAmount") charge]]]).

Fixpoint line_items (is_small_business : bool) (i : nat) (items : list (gmap string PyVal))
  : result (list xml) :=
  match items with
  | [] => Ok []
  | item :: rest =>
      x ← line_item is_small_business i item;
      xs ← line_items is_small_business (S i) rest;
      Ok (x :: xs)
  end.

(** One [ApplicableTradeTax] of the settlement (lines 310 to 319). *)
Definition trade_tax (kv : decimal * bucket) : result xml :=
  amount ← quantized_text (vat (snd kv)) TWO_PLACES;
  basis_text ← quantized_text (basis (snd kv)) TWO_PLACES;
  rate_q ← quantize ROUND_HALF_EVEN (fst kv) TWO_PLACES;
  category_code ← _get_tax_category_code (dec_str rate_q);
  Ok (node (ram "ApplicableTradeTax")
        ([leaf (ram "CalculatedAmount") amount;
          leaf (ram "TypeCode") (VStr "VAT");
          leaf (ram "BasisAmount") basis_text;
          leaf (ram "CategoryCode") (VStr category_code)]
         ++ exemption category_code
         ++ [leaf (ram "RateApplicablePercent") (VStr (dec_str rate_q))])).

Fixpoint trade_taxes (summary : vat_summary) : result (list xml) :=
  match summary with
  | [] => Ok []
  | kv :: rest =>
      x ← trade_tax kv;
      xs ← trade_taxes rest;
      Ok (x :: xs)
  end.

Definition postal_address (form_data : gmap string PyVal) (who : string) : xml :=
  node (ram "PostalTradeAddress")
    [leaf (ram "PostcodeCode") (dict_get_default form_data (who +:+ "_zip") (VStr ""));
     leaf (ram "LineOne") (dict_get_default form_data (who +:+ "_address") (VStr ""));
     leaf (ram "CityName") (dict_get_default form_data (who +:+ "_city") (VStr ""));
     leaf (ram "CountryID") (VStr "DE")].

Definition tax_registration (form_data : gmap string PyVal) (key scheme : string) : list xml :=
  if truthy (dict_get form_data key)
  then [node (ram "SpecifiedTaxRegistration")
          [leaf_attr (ram "ID") [("schemeID", scheme)] (dict_get form_data key)]]
  else [].

(** The header monetary summation (lines 321 to 326). *)
Definition header_summation (total_netto : decimal) (total_vat : PyVal)
    (total_brutto : decimal) : result xml :=
  line_total ← quantized_text total_netto TWO_PLACES;
  tax_basis ← quantized_text total_netto TWO_PLACES;
  tax_total ← quantized_total total_vat;
  grand_total ← quantized_text total_brutto TWO_PLACES;
  due ← quantized_text total_brutto TWO_PLACES;
  Ok (node (ram "SpecifiedTradeSettlementHeaderMonetarySummation")
        [leaf (ram "LineTotalAmount") line_total;
         leaf (ram "TaxBasisTotalAmount") tax_basis;
         leaf_attr (ram "TaxTotalAmount") [("currencyID", "EUR")] tax_total;
         leaf (ram "GrandTotalAmount") grand_total;
         leaf (ram "DuePayableAmount") due]).

(** What [ET.tostring] accepts as the text of an element: a string, or a
    value that counts as false and is written as no text. *)
Definition serializable (v : PyVal) : bool :=
  match v with
  | VStr _ => true
  | _ => negb (truthy v)
  end.

Fixpoint check_texts (x : xml) : bool :=
  match x with
  | Element _ _ text children =>
      serializable text && forallb check_texts children
  end.

(** [ET.tostring(root, ...)]: the bytes are kept as the tree they encode;
    a text that is neither a string nor false raises [TypeError]. *)
Definition tostring (root : xml) : result xml :=
  if check_texts root then Ok root else Raise TypeError.

Definition _generate_zugferd_xml (e : env) (form_data : gmap string PyVal)
    (items : list (gmap string PyVal)) : result xml :=
  let invoice_date_str := dict_get_default form_data "invoice_date" (VStr (today e)) in
  invoice_date_obj ← strptime invoice_date_str;
  let is_small_business := is_small_business_flag form_data in
  totals ← _calculate_totals items is_small_business;
  let '(total_netto, total_vat, total_brutto, vat_summary) := totals in
  lines ← line_items is_small_business 1 items;
  taxes ← trade_taxes vat_summary;
  summation ← header_summation total_netto total_vat total_brutto;
  tostring
    (node (rsm "CrossIndustryInvoice")
       [node (rsm "ExchangedDocumentContext")
          [node (ram "GuidelineSpecifiedDocumentContextParameter")
             [leaf (ram "ID")
                (VStr "urn:cen.eu:en16931:2017#compliant#urn:xoev-de:kosit:standard:xrechnung_2.2")]];
        node (rsm "ExchangedDocument")
          [leaf (ram "ID")
             (dict_get_default form_data "invoice_number" (VStr ("INV-" +:+ uuid_hex6 e)));
           leaf (ram "TypeCode") (VStr "380");
           node (ram "IssueDateTime")
             [leaf_attr (udt "DateTimeString") [("format", "102")]
                (VStr (strftime invoice_date_obj))]];
        node (rsm "SupplyChainTradeTransaction")
          (lines
           ++ [node (ram "ApplicableHeaderTradeAgreement")
                 [node (ram "SellerTradeParty")
                    ([leaf (ram "Name") (dict_get_default form_data "sender_name" (VStr "Verkaeufer"));
                      postal_address form_data "sender"]
                     ++ tax_registration form_data "sender_tax_id" "FC"
                     ++ tax_registration form_data "sender_vat_id" "VA");
                  node (ram "BuyerTradeParty")
                    ((if truthy (dict_get form_data "leitweg_id")
                      then [leaf (ram "BuyerReference") (dict_get form_data "leitweg_id")]
                      else [])
                     ++ [leaf (ram "Name") (dict_get_default form_data "receiver_name" (VStr "Kunde"));
                         postal_address form_data "receiver"])];
               node (ram "ApplicableHeaderTradeSettlement")
                 ([leaf (ram "InvoiceCurrencyCode") (VStr "EUR")]
                  ++ (if truthy (dict_get form_data "sender_iban")
                      then [node (ram "SpecifiedTradeSettlementPaymentMeans")
                              [leaf (ram "TypeCode") (VStr "30");
                               node (ram "PayeePartyCreditorFinancialAccount")
                                 [leaf (ram "IBANID") (dict_get form_data "sender_iban")]]]
                      else [])
                  ++ taxes
                  ++ [summation])])]).

(** ** The PDF/A-3 assembler: [_make_pdfa_compliant] *)

(** A [PdfWriter]: the pages added so far, the catalog [_root_object] and
    the indirect objects added with [_add_object]. *)
Record writer : Type := {
  w_pages : list page;
  w_root : pdf_dict;
  w_objects : list pdf_obj
}.

(** The catalog of a new writer. *)
Definition new_catalog : pdf_dict := [("/Type", NameObject "/Catalog")].

Definition PdfWriter : writer :=
  {| w_pages := []; w_root := new_catalog; w_objects := [] |}.

Definition add_page (w : writer) (p : page) : writer :=
  {| w_pages := w_pages w ++ [p]; w_root := w_root w; w_objects := w_objects w |}.

(** [writer._add_object(obj)]: the object is appended and the reference to
    it is returned. *)
Definition _add_object (w : writer) (obj : pdf_obj) : writer * pdf_obj :=
  ({| w_pages := w_pages w; w_root := w_root w; w_objects := w_objects w ++ [obj] |},
   IndirectObject (length (w_objects w))).

Fixpoint dict_lookup (key : string) (d : pdf_dict) : option pdf_obj :=
  match d with
  | [] => None
  | (k, v) :: r => if String.eqb k key then Some v else dict_lookup key r
  end.

(** [d[key] = v]. *)
Fixpoint dict_set (key : string) (v : pdf_obj) (d : pdf_dict) : pdf_dict :=
  match d with
  | [] => [(key, v)]
  | (k, x) :: r => if String.eqb k key then (k, v) :: r else (k, x) :: dict_set key v r
  end.

Definition set_root (w : writer) (root : pdf_dict) : writer :=
  {| w_pages := w_pages w; w_root := root; w_objects := w_objects w |}.

(** [root.setdefault(key, ArrayObject()).append(x)]. *)
Definition setdefault_append (key : string) (x : pdf_obj) (root : pdf_dict)
  : result pdf_dict :=
  match dict_lookup key root with
  | None => Ok (dict_set key (ArrayObject [x]) root)
  | Some (ArrayObject l) => Ok (dict_set key (ArrayObject (l ++ [x])) root)
  | Some _ => Raise AttributeError
  end.

(** [root.setdefault(key, DictionaryObject()).setdefault(key2, v)]: an
    entry that is already there is kept. *)
Definition setdefault_setdefault (key key2 : string) (v : pdf_obj) (root : pdf_dict)
  : result pdf_dict :=
  match dict_lookup key root with
  | None => Ok (dict_set key (DictionaryObject [(key2, v)]) root)
  | Some (DictionaryObject d) =>
      match dict_lookup key2 d with
      | None => Ok (dict_set key (DictionaryObject (dict_set key2 v d)) root)
      | Some _ => Ok root
      end
  | Some _ => Raise AttributeError
  end.

Definition xml_filename : string := "factur-x.xml".

Definition nl : string := String "010"%char "".
Definition dq : string := String (ascii_of_nat 34) "".
Definition bom : string :=
  String (ascii_of_nat 239) (String (ascii_of_nat 187) (String (ascii_of_nat 191) "")).

(** An XML attribute [name="value"]. *)
Definition attr (name value : string) : string := name +:+ "=" +:+ dq +:+ value +:+ dq.

Definition unlines (lines : list string) : string :=
  match lines with
  | [] => ""
  | l :: r => fold_left (fun acc x => acc +:+ nl +:+ x) r l
  end.

(** The XMP packet (lines 344 to 363). *)
Definition xmp_metadata (form_data : gmap string PyVal) : string :=
  unlines
    ["<?xpacket " +:+ attr "begin" bom +:+ " " +:+ attr "id" "W5M0MpCehiHzreSzNTczkc9d" +:+ "?>";
     "<x:xmpmeta " +:+ attr "xmlns:x" "adobe:ns:meta/" +:+ ">";
     "  <rdf:RDF " +:+ attr "xmlns:rdf" "http://www.w3.org/1999/02/22-rdf-syntax-ns#" +:+ ">";
     "    <rdf:Description " +:+ attr "rdf:about" "" +:+ " "
       +:+ attr "xmlns:pdfaid" "http://www.aiim.org/pdfa/ns/id/" +:+ ">";
     "      <pdfaid:part>3</pdfaid:part>";
     "      <pdfaid:conformance>B</pdfaid:conformance>";
     "    </rdf:Description>";
     "    <rdf:Description " +:+ attr "rdf:about" "" +:+ " "
       +:+ attr "xmlns:dc" "http://purl.org/dc/elements/1.1/" +:+ ">";
     "      <dc:title><rdf:Alt><rdf:li " +:+ attr "xml:lang" "x-default" +:+ ">Rechnung "
       +:+ field form_data "invoice_number" +:+ "</rdf:li></rdf:Alt></dc:title>";
     "      <dc:creator><rdf:Seq><rdf:li>" +:+ field form_data "sender_name"
       +:+ "</rdf:li></rdf:Seq></dc:creator>";
     "    </rdf:Description>";
     "    <rdf:Description " +:+ attr "rdf:about" "" +:+ " "
       +:+ attr "xmlns:fx" "urn:factur-x:pdfa:CrossIndustryDocument:invoice:1p0#" +:+ ">";
     "      <fx:DocumentType>INVOICE</fx:DocumentType>";
     "      <fx:DocumentFileName>factur-x.xml</fx:DocumentFileName>";
     "      <fx:Version>1.0</fx:Version> ";
     "      <fx:ConformanceLevel>EN 16931</fx:ConformanceLevel>";
     "    </rdf:Description>";
     "  </rdf:RDF>";
     "</x:xmpmeta>";
     "<?xpacket " +:+ attr "end" "w" +:+ "?>"].

(** [PdfReader(pdf_buffer).pages]. *)
Definition reader_pages (buf : pdf_buffer) : result (list page) :=
  match buf with
  | PdfBytes doc => Ok (doc_pages doc)
  | Unparseable => Raise PdfReadError
  end.

(** [_make_pdfa_compliant]. *)
Definition _make_pdfa_compliant (e : env) (buffer : pdf_buffer) (xml_data : xml)
    (form_data : gmap string PyVal) : result pdf_buffer :=
  pages ← reader_pages buffer;
  let w := fold_left add_page pages PdfWriter in
  (* 1. XMP metadata *)
  let xmp_stream :=
    StreamObject [("/Type", NameObject "/Metadata"); ("/Subtype", NameObject "/XML")]
      (DataText (xmp_metadata form_data)) in
  let '(w, xmp_ref) := _add_object w xmp_stream in
  let w := set_root w (dict_set "/Metadata" xmp_ref (w_root w)) in
  (* 2. output intent, when the ICC profile is on disk *)
  w ← match icc_profile e with
      | Some icc_profile_data =>
          let icc_stream :=
            StreamObject [("/N", NameObject "3"); ("/Alternate", NameObject "/DeviceRGB")]
              (DataFile icc_profile_data) in
          let '(w, icc_stream_ref) := _add_object w icc_stream in
          let output_intent :=
            DictionaryObject
              [("/Type", NameObject "/OutputIntent");
               ("/S", NameObject "/GTS_PDFA1");
               ("/OutputConditionIdentifier", TextStringObject "sRGB IEC61966-2.1");
               ("/Info", TextStringObject "sRGB IEC61966-2.1");
               ("/DestOutputProfile", icc_stream_ref)] in
          root ← setdefault_append "/OutputIntents" output_intent (w_root w);
          Ok (set_root w root)
      | None => Ok w
      end;
  (* 3. the XML attachment *)
  let xml_stream :=
    StreamObject
      [("/Type", NameObject "/EmbeddedFile");
       ("/Subtype", NameObject "/text/xml");
       ("/Params",
        DictionaryObject
          [("/ModDate", TextStringObject ("D:" +:+ now_stamp e +:+ "+00'00'"))])]
      (DataXml xml_data) in
  let '(w, xml_stream_ref) := _add_object w xml_stream in
  let filespec_obj :=
    DictionaryObject
      [("/Type", NameObject "/Filespec");
       ("/F", TextStringObject xml_filename);
       ("/EF", DictionaryObject [("/F", xml_stream_ref)]);
       ("/Desc", TextStringObject "Factur-X Invoice");
       ("/AFRelationship", NameObject "/Data")] in
  let '(w, filespec_ref) := _add_object w filespec_obj in
  let embedded_files_names_array :=
    ArrayObject [TextStringObject xml_filename; filespec_ref] in
  root ← setdefault_setdefault "/Names" "/EmbeddedFiles"
           (DictionaryObject [("/Names", embedded_files_names_array)]) (w_root w);
  root ← setdefault_append "/AF" filespec_ref root;
  (* writer.write(output_buffer) *)
  Ok (PdfBytes {| doc_pages := w_pages w; doc_root := root; doc_objects := w_objects w |}).

(** ** The pipeline: [generate_invoice_pdf] *)

Definition generate_invoice_pdf (e : env) (form_data : gmap string PyVal)
    (items : list (gmap string PyVal)) (logo_path : option string) : result pdf_buffer :=
  reportlab_buffer ← _build_reportlab_pdf e form_data items logo_path;
  xml_data ← _generate_zugferd_xml e form_data items;
  _make_pdfa_compliant e reportlab_buffer xml_data form_data.

(** * Observations and predicates used in the statements *)

(** Two forms that agree on the flag and on every other field. *)
Definition same_reads (fd1 fd2 : gmap string PyVal) : Prop :=
  is_small_business_flag fd1 = is_small_business_flag fd2 /\
  forall k : string, k <> "is_small_business" -> fd1 !! k = fd2 !! k.


(** Reading the XML document back: the first child with a tag, and the
    element at the end of a path of tags, as [Element.find] does. *)
Definition tag_of (x : xml) : string := match x with Element t _ _ _ => t end.
Definition text_of (x : xml) : PyVal := match x with Element _ _ t _ => t end.
Definition children_of (x : xml) : list xml := match x with Element _ _ _ c => c end.

Definition find_child (tag : string) (x : xml) : option xml :=
  find (fun c => String.eqb (tag_of c) tag) (children_of x).

Fixpoint find_path (path : list string) (x : xml) : option xml :=
  match path with
  | [] => Some x
  | t :: r =>
      match find_child t x with
      | Some c => find_path r c
      | None => None
      end
  end.

Definition summation_path : list string :=
  [rsm "SupplyChainTradeTransaction";
   ram "ApplicableHeaderTradeSettlement";
   ram "SpecifiedTradeSettlementHeaderMonetarySummation"].

(** The text of the [GrandTotalAmount] element. *)
Definition grand_total_amount (x : xml) : option PyVal :=
  text_of <$> find_path (summation_path ++ [ram "GrandTotalAmount"]) x.

(** The cell of the bold gross-total row that shows the amount: the last
    cell of the last row of the table. *)
Definition displayed_gross (rows : list row) : option cell :=
  r ← last rows; last r.

(** The embedded files of a document: the data of its streams of type
    [/EmbeddedFile]. *)
Definition is_embedded_file (o : pdf_obj) : bool :=
  match o with
  | StreamObject d _ =>
      match dict_lookup "/Type" d with
      | Some (NameObject n) => String.eqb n "/EmbeddedFile"
      | _ => false
      end
  | _ => false
  end.

Definition embedded_files (doc : pdf_document) : list pdf_obj :=
  filter (fun o => is_embedded_file o = true) (doc_objects doc).

(** The value of a finite decimal as a rational number. *)
Definition dec_to_Q (d : decimal) : Q :=
  match d with
  | Finite s c e =>
      let n := if s then - Z.of_N c else Z.of_N c in
      if 0 <=? e then inject_Z (n * 10 ^ e) else Qmake n (Z.to_pos (10 ^ (- e)))
  | _ => 0%Q
  end.

(** The value of what [sum] returns. *)
Definition py_to_Q (v : PyVal) : Q :=
  match v with
  | VDec d => dec_to_Q d
  | VInt n => inject_Z n
  | _ => 0%Q
  end.

(** A bucket whose VAT amount is greater than zero. *)
Definition vat_positive (kv : decimal * bucket) : bool :=
  match dec_gt (vat (snd kv)) (Decimal_of_int 0) with
  | Ok b => b
  | Raise _ => false
  end.

(** A bucket whose rate is not zero. *)
Definition nonzero_rate (kv : decimal * bucket) : bool := dec_bool (fst kv).


(** The value that the integer or decimal total of the VAT is zero. *)
Definition is_zero_total (v : PyVal) : Prop :=
  v = VInt 0 \/ v = VDec (Finite false 0 (-2)).

(** Sample inputs. *)
Definition sample_env : env :=
  {| font_exists := true;
     icc_profile := Some "ICC";
     image_loads := fun _ => false;
     today := "2024-05-06";
     now_stamp := "20240506101500";
     uuid_hex6 := "A1B2C3";
     flow := fun rows => [rows];
     layout_catalog := [("/Type", NameObject "/Catalog")] |}.

Definition sample_item (description quantity unit_price vat_rate : string)
  : gmap string PyVal :=
  <["description" := VStr description]>
    (<["quantity" := VStr quantity]>
       (<["unit_price" := VStr unit_price]>
          (<["vat_rate" := VStr vat_rate]> ∅))).

Definition sample_form : gmap string PyVal :=
  <["invoice_number" := VStr "RE-2024-001"]>
    (<["invoice_date" := VStr "2024-05-06"]>
       (<["sender_name" := VStr "Muster GmbH"]>
          (<["notes" := VStr "Zahlbar innerhalb von 14 Tagen."]> ∅))).

Definition small_business_form : gmap string PyVal :=
  <["is_small_business" := VStr "true"]> sample_form.

Definition consulting : list (gmap string PyVal) :=
  [sample_item "Consulting" "2" "100.00" "19"].

(** Every bucket holds the VAT amount 0.00. *)
Definition zero_vat (s : vat_summary) : Prop :=
  Forall (fun kv => vat (snd kv) = Finite false 0 (-2)) s.

(** Two items with the same quantity and the same unit price. *)
Definition same_amounts (i1 i2 : gmap string PyVal) : Prop :=
  i1 !! "quantity" = i2 !! "quantity" /\ i1 !! "unit_price" = i2 !! "unit_price".

(** The sentence of the disclaimer, without the line break after it. *)
Definition disclaimer_sentence : string :=
  "Gemäß § 19 UStG wird keine Umsatzsteuer berechnet.".

(** * Further observations on the results *)

(** The first cell of the row of an item: its description as it is. *)
Definition description_cell (item : gmap string PyVal) : cell :=
  CellVal (dict_get_default item "description" (VStr "")).

(** The rates of a summary, in the order of the dict. *)
Definition rates (s : vat_summary) : list decimal := map fst s.

(** No two keys of the list are equal as dict keys. *)
Fixpoint distinct_keys (l : list decimal) : Prop :=
  match l with
  | [] => True
  | k :: r => Forall (fun k' => key_eqb k k' = false) r /\ distinct_keys r
  end.

(** The text of the element at the end of a path. *)
Definition text_at (path : list string) (x : xml) : option PyVal :=
  text_of <$> find_path path x.

Definition has_tag (t : string) (x : xml) : bool := String.eqb (tag_of x) t.

(** The line items of a trade document, in document order. *)
Definition line_item_elements (x : xml) : list xml :=
  match find_child (rsm "SupplyChainTradeTransaction") x with
  | Some t =>
      filter (fun c => has_tag (ram "IncludedSupplyChainTradeLineItem") c = true)
        (children_of t)
  | None => []
  end.

(** The tax entries of the header settlement, in document order. *)
Definition header_tax_elements (x : xml) : list xml :=
  match find_path [rsm "SupplyChainTradeTransaction";
                   ram "ApplicableHeaderTradeSettlement"] x with
  | Some t => filter (fun c => has_tag (ram "ApplicableTradeTax") c = true) (children_of t)
  | None => []
  end.

Definition line_id : xml -> option PyVal :=
  text_at [ram "AssociatedDocumentLineDocument"; ram "LineID"].
Definition product_name : xml -> option PyVal :=
  text_at [ram "SpecifiedTradeProduct"; ram "Name"].

(** The tax entry of a line item. *)
Definition line_tax (li : xml) : option xml :=
  find_path [ram "SpecifiedLineTradeSettlement"; ram "ApplicableTradeTax"] li.

(** A tax entry of an exempt supply: category O with the exemption reason
    and the rate 0.00. *)
Definition exempt_tax (t : xml) : Prop :=
  text_at [ram "CategoryCode"] t = Some (VStr "O") /\
  text_at [ram "ExemptionReasonCode"] t = Some (VStr "VATEX-EU-DE") /\
  text_at [ram "RateApplicablePercent"] t = Some (VStr "0.00").

(** The decimal number of a line, as [str(i)] writes it. *)
Definition str_of_nat (i : nat) : string := PyStr.str (PyStr.str_of_Z (Z.of_nat i)).

(** One step of [int(s)] over a string of digits. *)
Definition digit_step (acc : N) (a : ascii) : N := (10 * acc + digit_val a)%N.

(** Characters that neither [strip] nor the removal of underscores
    touches. *)
Definition plain (a : ascii) : bool :=
  negb (PyStr.is_space a) && negb (Ascii.eqb a "_"%char).

(** The sign, the fraction and the exponent as [str] writes them. *)
Definition sign_chars (s : bool) : list ascii := if s then ["-"%char] else [].
Definition frac_chars (dot : bool) (fp : list ascii) : list ascii :=
  if dot then "."%char :: fp else [].
Definition exp_chars (ex : option Z) : list ascii :=
  match ex with Some n => "E"%char :: PyStr.str_of_Z_signed n | None => [] end.

(** What the engine reads from a field that holds the decimal [d]: a zero
    counts as false and is replaced by the string "0". *)
Definition read_back (d : decimal) : decimal :=
  if dec_bool d then d else Finite false 0 0.

(** A rate that is greater than zero. *)
Definition rate_positive (rate : decimal) : bool :=
  match dec_gt rate (Decimal_of_int 0) with
  | Ok b => b
  | Raise _ => false
  end.

(** The category of a tax entry and its exemption reason, if any. *)
Definition category_code : xml -> option PyVal := text_at [ram "CategoryCode"].
Definition exemption_reason : xml -> option PyVal := text_at [ram "ExemptionReasonCode"].

(** * Exact values of decimals *)

(** Exact arithmetic.  An amount is [good] when it is finite with an
    exponent between -12 and 1; [sval] is then its value in units of
    10^-12, an integer. *)
Definition sval (d : decimal) : Z :=
  match d with
  | Finite s c e => (if s then -1 else 1) * (Z.of_N c * 10 ^ (e + 12))
  | _ => 0
  end.

Definition good (d : decimal) : Prop :=
  exists s c e, d = Finite s c e /\ -12 <= e <= 1.

(** The sums of the amounts of a summary, and of their absolute values. *)
Definition sum_basis (s : vat_summary) : Z :=
  fold_right (fun kv acc => sval (basis (snd kv)) + acc) 0 s.
Definition sum_vat (s : vat_summary) : Z :=
  fold_right (fun kv acc => sval (vat (snd kv)) + acc) 0 s.
Definition abs_basis (s : vat_summary) : Z :=
  fold_right (fun kv acc => Z.abs (sval (basis (snd kv))) + acc) 0 s.
Definition abs_vat (s : vat_summary) : Z :=
  fold_right (fun kv acc => Z.abs (sval (vat (snd kv))) + acc) 0 s.

Definition good_summary (s : vat_summary) : Prop :=
  Forall (fun kv => good (basis (snd kv)) /\ good (vat (snd kv))) s.

(** The largest net amount and the largest VAT amount of a line, in units
    of 10^-12, are below this bound. *)
Definition line_bound : Z := 2 * 10 ^ 24.

(** The state of the loop after [k] items. *)
Definition exact_state (k : Z) (net : decimal) (s : vat_summary) : Prop :=
  good net /\ Z.abs (sval net) <= k * line_bound /\
  good_summary s /\ abs_basis s <= k * line_bound /\ abs_vat s <= k * line_bound /\
  sum_basis s = sval net.

(** Amounts below one million with at most four places, rates below one
    hundred with at most two places. *)
Definition small_amount (d : decimal) : Prop :=
  exists s c e, d = Finite s c e /\ -4 <= e <= 0 /\ Z.of_N c * 10 ^ (e + 4) < 10 ^ 10.

Definition small_rate (d : decimal) : Prop :=
  exists s c e, d = Finite s c e /\ -2 <= e <= 0 /\ Z.of_N c * 10 ^ (e + 2) < 10 ^ 4.

(** An item whose quantity and unit price are such amounts and whose
    effective rate is such a rate. *)
Definition small_item (is_small_business : bool) (item : gmap string PyVal) : Prop :=
  exists q p r,
    item_decimal item "quantity" = Ok q /\
    item_decimal item "unit_price" = Ok p /\
    effective_rate is_small_business item = Ok r /\
    small_amount q /\ small_amount p /\ small_rate r.

(** An item whose effective rate has the value [R] (in units of 10^-12). *)
Definition has_rate (is_small_business : bool) (R : Z) (item : gmap string PyVal) : Prop :=
  exists r, effective_rate is_small_business item = Ok r /\ sval r = R.

(** The sum of a list of rationals. *)
Definition Qsum (l : list Q) : Q := fold_right Qplus 0%Q l.

(** The value of what [sum] returns, in units of 10^-12. *)
Definition sval_py (v : PyVal) : Z :=
  match v with
  | VDec d => sval d
  | VInt n => n * 10 ^ 12
  | _ => 0
  end.

(** What [sum] returns over good amounts: the integer 0 or a good amount. *)
Definition good_total (v : PyVal) : Prop :=
  v = VInt 0 \/ exists d, v = VDec d /\ good d.

(** The number of units of 10^-12 in one. *)
Definition units : positive := 1000000000000.

(** The sums of the basis amounts and of the VAT amounts of the buckets, as
    rational numbers. *)
Definition basis_total (s : vat_summary) : Q :=
  Qsum (map (fun kv => dec_to_Q (basis (snd kv))) s).
Definition vat_total (s : vat_summary) : Q :=
  Qsum (map (fun kv => dec_to_Q (vat (snd kv))) s).

(** An invoice with three lines at two rates. *)
Definition three_lines : list (gmap string PyVal) :=
  [sample_item "Consulting" "2" "100.00" "19";
   sample_item "Handbuch" "3" "19.99" "7";
   sample_item "Porto" "1" "0.03" "19"].

(** Three lines of three cents each at 19 percent. *)
Definition three_cents : list (gmap string PyVal) :=
  [sample_item "Porto" "1" "0.03" "19";
   sample_item "Porto" "1" "0.03" "19";
   sample_item "Porto" "1" "0.03" "19"].

(** * Characters of a formatted amount *)

(** What the three replacements of [format_currency] do to one character. *)
Definition replace_char (old new a : ascii) : ascii := if Ascii.eqb a old then new else a.
Definition sep_swap (a : ascii) : ascii :=
  replace_char "X" "." (replace_char "." "," (replace_char "," "X" a)).

(** * The route that creates an invoice: [create_rechnung] of [app/main.py] *)

(** ** The name of the PDF file (lines 419 to 430)

    The name typed by the user is inspected character by character, so it
    is modelled as the list of its code points.  [str.isalnum] is decided
    here for ASCII; for the other code points it is the table of the
    Unicode database, a parameter of the model. *)
Section Filenames.

Variable isalnum_unicode : N -> bool.

Definition ascii_alnum (c : N) : bool :=
  (((48 <=? c) && (c <=? 57)) || ((65 <=? c) && (c <=? 90)) || ((97 <=? c) && (c <=? 122)))%N.

(** [c.isalnum()]. *)
Definition isalnum (c : N) : bool :=
  if (c <? 128)%N then ascii_alnum c else isalnum_unicode c.

(** [user_filename.replace(" ", "_")]. *)
Definition replace_spaces (name : list N) : list N :=
  map (fun c => if (c =? 32)%N then 95%N else c) name.

(** [c.isalnum() or c in ('-', '_')]. *)
Definition kept (c : N) : bool := isalnum c || (c =? 45)%N || (c =? 95)%N.

(** The two assignments to [safe_filename]. *)
Definition safe_filename (user_filename : list N) : list N :=
  List.filter kept (replace_spaces user_filename).

(** The value of the form field: absent, a text, or an uploaded file, which
    counts as true and has no [replace]. *)
Inductive form_value : Type :=
  | FieldAbsent
  | FieldText (text : list N)
  | FieldFile.

Definition dot_pdf : list N := [46; 112; 100; 102]%N.   (* ".pdf" *)

(** [pdf_filename]; [generated] is the name made of the user's id and a
    random number. *)
Definition pdf_filename (user_filename : form_value) (generated : list N)
  : result (list N) :=
  match user_filename with
  | FieldAbsent => Ok generated
  | FieldText [] => Ok generated
  | FieldText name =>
      match safe_filename name with
      | [] => Ok generated
      | safe => Ok (safe ++ dot_pdf)
      end
  | FieldFile => Raise AttributeError
  end.

End Filenames.

(** A character that can appear in a sanitized name: an ASCII letter or
    digit, a hyphen, an underscore, or a character outside ASCII. *)
Definition harmless (c : N) : Prop :=
  (c < 128)%N -> ascii_alnum c = true \/ c = 45%N \/ c = 95%N.

(** ** The items of the form (lines 370 to 390) *)

(** The exceptions of the route: those of the engine, and [IndexError]. *)
Inductive route_error : Type :=
  | Engine (e : exn)
  | IndexError.

Inductive attempt (A : Type) : Type :=
  | Got (a : A)
  | Failed (e : route_error).
Arguments Got {A} a.
Arguments Failed {A} e.

Definition lift {A : Type} (m : result A) : attempt A :=
  match m with Ok a => Got a | Raise e => Failed (Engine e) end.

(** [s.startswith(prefix)]. *)
Fixpoint startswith (prefix l : list ascii) : bool :=
  match prefix, l with
  | [], _ => true
  | p :: ps, a :: r => Ascii.eqb p a && startswith ps r
  | _ :: _, [] => false
  end.

(** [s.split(sep)] for a one-character separator: the pieces between the
    separators, at least one piece. *)
Fixpoint split_on (sep : ascii) (l : list ascii) : list (list ascii) :=
  match l with
  | [] => [[]]
  | a :: r =>
      if Ascii.eqb a sep then [] :: split_on sep r
      else match split_on sep r with
           | p :: ps => (a :: p) :: ps
           | [] => [[a]]
           end
  end.

(** The digits of an integer literal: a digit first, single underscores
    only between digits. *)
Fixpoint grouped_digits (l : list ascii) (after_digit : bool) : option (list ascii) :=
  match l with
  | [] => if after_digit then Some [] else None
  | a :: r =>
      if is_digit a then cons a <$> grouped_digits r true
      else if Ascii.eqb a "_"%char && after_digit then grouped_digits r false
      else None
  end.

(** [int(s)] for a string: white space around the text is dropped, a sign
    may come first, and more than 4300 digits are refused. *)
Definition py_int (l : list ascii) : result Z :=
  let '(neg, r) := parse_sign (PyStr.strip l) in
  match grouped_digits r false with
  | Some ds =>
      if (4300 <? length ds)%nat then Raise ValueError
      else Ok (if neg : bool then - Z.of_N (N_of_digits ds) else Z.of_N (N_of_digits ds))
  | None => Raise ValueError
  end.

(** [item_data]: the fields of the items by index, in the order in which
    the indices were first seen. *)
Abbreviation item_store := (list (Z * gmap string PyVal)).

(** [if index not in item_data: item_data[index] = {}] and
    [item_data[index][field] = value]. *)
Fixpoint store_field (index : Z) (field : string) (value : PyVal)
    (item_data : item_store) : item_store :=
  match item_data with
  | [] => [(index, <[field := value]> ∅)]
  | (i, item) :: r =>
      if i =? index then (i, <[field := value]> item) :: r
      else (i, item) :: store_field index field value r
  end.

(** The body of the loop over the fields of the form. *)
Definition collect_field (item_data : item_store) (kv : string * PyVal)
  : attempt item_store :=
  let k := PyStr.chars (fst kv) in
  if startswith (PyStr.chars "items[") k then
    match split_on "["%char (PyStr.replace "]"%char [] k) with
    | _ :: index_text :: rest =>
        match py_int index_text with
        | Ok index =>
            match rest with
            | field :: _ => Got (store_field index (PyStr.str field) (snd kv) item_data)
            | [] => Failed IndexError
            end
        | Raise e => Failed (Engine e)
        end
    | _ => Failed IndexError
    end
  else Got item_data.

Fixpoint collect (form : list (string * PyVal)) (item_data : item_store)
  : attempt item_store :=
  match form with
  | [] => Got item_data
  | kv :: rest =>
      match collect_field item_data kv with
      | Got item_data' => collect rest item_data'
      | Failed e => Failed e
      end
  end.

(** [sorted(item_data.keys())], each index with its item. *)
Fixpoint insert_index (x : Z * gmap string PyVal) (l : item_store) : item_store :=
  match l with
  | [] => [x]
  | y :: r => if fst x <? fst y then x :: y :: r else y :: insert_index x r
  end.

Definition sorted_indices (item_data : item_store) : item_store :=
  fold_right insert_index [] item_data.

(** A list of indices in strictly increasing order. *)
Fixpoint increasing (l : list Z) : Prop :=
  match l with
  | [] => True
  | x :: r => List.Forall (fun y => x < y) r /\ increasing r
  end.

(** [Decimal(v)]. *)
Definition Decimal_of_val (v : PyVal) : result decimal :=
  match v with
  | VStr s => Decimal_of_str s
  | VDec d => Ok d
  | VInt n => Ok (Decimal_of_int n)
  | VBool b => Ok (Decimal_of_int (if b then 1 else 0))
  | VNone => Raise TypeError
  end.

(** [Decimal(item.get(key) or '0')]. *)
Definition to_decimal (item : gmap string PyVal) (key : string) : result decimal :=
  Decimal_of_val (py_or (dict_get item key) (VStr "0")).

(** Lines 387 to 389: the three numbers of an item become decimals. *)
Definition convert_item (item : gmap string PyVal) : result (gmap string PyVal) :=
  quantity ← to_decimal item "quantity";
  let item := <["quantity" := VDec quantity]> item in
  unit_price ← to_decimal item "unit_price";
  let item := <["unit_price" := VDec unit_price]> item in
  vat_rate ← to_decimal item "vat_rate";
  Ok (<["vat_rate" := VDec vat_rate]> item).

Fixpoint convert_items (l : list (gmap string PyVal)) : result (list (gmap string PyVal)) :=
  match l with
  | [] => Ok []
  | item :: rest =>
      item' ← convert_item item;
      rest' ← convert_items rest;
      Ok (item' :: rest')
  end.

(** The list [items] that the route hands to [generate_invoice_pdf]. *)
Definition parse_items (form : list (string * PyVal)) : attempt (list (gmap string PyVal)) :=
  match collect form [] with
  | Got item_data => lift (convert_items (map snd (sorted_indices item_data)))
  | Failed e => Failed e
  end.

(** An item whose three numbers are decimals that the engine reads
    back. *)
Definition decimal_fields (item : gmap string PyVal) : Prop :=
  forall key, key = "quantity" \/ key = "unit_price" \/ key = "vat_rate" ->
    exists d, item !! key = Some (VDec d) /\ item_decimal item key = Ok (read_back d).

(** A form with the fields of two items, the second item first. *)
Definition sample_fields : list (string * PyVal) :=
  [("invoice_number", VStr "RE-2024-001");
   ("items[1][description]", VStr "Handbuch");
   ("items[1][quantity]", VStr "3");
   ("items[1][unit_price]", VStr "19.99");
   ("items[0][description]", VStr "Consulting");
   ("items[0][quantity]", VStr "2");
   ("items[0][unit_price]", VStr "100.00");
   ("items[0][vat_rate]", VStr "19")].

(** The items of [sample_fields]. *)
Definition sample_parsed : list (gmap string PyVal) :=
  [<["description" := VStr "Consulting"]>
     (<["quantity" := VDec (Finite false 2 0)]>
        (<["unit_price" := VDec (Finite false 10000 (-2))]>
           (<["vat_rate" := VDec (Finite false 19 0)]> ∅)));
   <["description" := VStr "Handbuch"]>
     (<["quantity" := VDec (Finite false 3 0)]>
        (<["unit_price" := VDec (Finite false 1999 (-2))]>
           (<["vat_rate" := VDec (Finite false 0 0)]> ∅)))].

(** ** The amount stored with the invoice (lines 437 to 447) *)

(** [Decimal(str(item.get(key) or "0"))]. *)
Definition stored_decimal (item : gmap string PyVal) (key : string) : result decimal :=
  Decimal_of_str (py_str (py_or (dict_get item key) (VStr "0"))).

(** One iteration of the loop; the state is [total_netto] and
    [total_vat].  The VAT of a line is not rounded here, and the flag of
    the small business is not looked at. *)
Definition stored_step (st : decimal * decimal) (item : gmap string PyVal)
  : result (decimal * decimal) :=
  quantity ← stored_decimal item "quantity";
  unit_price ← stored_decimal item "unit_price";
  vat_rate ← stored_decimal item "vat_rate";
  line_netto ← dec_mul quantity unit_price;
  total_netto ← dec_add (fst st) line_netto;
  fraction ← dec_div vat_rate Decimal_100_0;
  line_vat ← dec_mul line_netto fraction;
  total_vat ← dec_add (snd st) line_vat;
  Ok (total_netto, total_vat).

Fixpoint stored_loop (items : list (gmap string PyVal)) (st : decimal * decimal)
  : result (decimal * decimal) :=
  match items with
  | [] => Ok st
  | item :: rest => st' ← stored_step st item; stored_loop rest st'
  end.

(** [total_netto], [total_vat] and [total_brutto], the amount that is
    stored as [total_amount]. *)
Definition stored_total (items : list (gmap string PyVal))
  : result (decimal * decimal * decimal) :=
  st ← stored_loop items (Decimal_0_0, Decimal_0_0);
  total_brutto ← dec_add (fst st) (snd st);
  Ok (fst st, snd st, total_brutto).

(** * The order of the VAT rows *)

(** No rate of the list is less than a rate before it. *)
Fixpoint ascending (l : list decimal) : Prop :=
  match l with
  | [] => True
  | x :: r => List.Forall (fun y => dec_lt y x = Ok false) r /\ ascending r
  end.

(** The value of a finite decimal in units of [10^m]. *)
Definition scaled (m : Z) (d : decimal) : Z :=
  match d with
  | Finite s c e => signed_at m s c e
  | _ => 0
  end.

(** * Inputs of the assembler and of the totals engine *)

(** A document as the layout library writes it: one page, a catalog that
    also names the page mode, and the document information dictionary as
    one more indirect object. *)
Definition info_dictionary : pdf_obj :=
  DictionaryObject [("/Producer", TextStringObject "ReportLab PDF Library")].

Definition rendered_document : pdf_document :=
  {| doc_pages :=
       [{| pg_font := "Helvetica";
           pg_decoration :=
             {| footer_notes := "";
                footer_details := "";
                logo_drawn := false;
                receiver_address := "";
                sender_line := "Muster GmbH";
                invoice_details := "" |};
           pg_rows := [] |}];
     doc_root := [("/Type", NameObject "/Catalog"); ("/PageMode", NameObject "/UseNone")];
     doc_objects := [info_dictionary] |}.

(** An XML document with no child. *)
Definition empty_invoice : xml := Element "rsm:CrossIndustryInvoice" [] VNone [].

(** A quantity of 28 digits, the precision of the context, and two lines of
    forty cents at another rate. *)
Definition long_quantity : list (gmap string PyVal) :=
  [sample_item "Schraube" "9999999999999999999999999999" "1" "0";
   sample_item "Porto" "1" "0.4" "7";
   sample_item "Porto" "1" "0.4" "7"].
(** * Properties *)

(** ** Sequencing *)

Lemma bind_Ok_inv {A B : Type} (m : result A) (k : A -> result B) (b : B) :
  (x ← m; k x) = Ok b -> exists a, m = Ok a /\ k a = Ok b.
Proof.
  destruct m as [a|e]; simpl; intros H.
  - exists a. split; [reflexivity | exact H].
  - discriminate H.
Qed.

Lemma bind_Raise_l {A B : Type} (m : result A) (k : A -> result B) (e : exn) :
  m = Raise e -> (x ← m; k x) = Raise e.
Proof. intros ->. reflexivity. Qed.

Lemma bind_Ok_l {A B : Type} (m : result A) (k : A -> result B) (a : A) :
  m = Ok a -> (x ← m; k x) = k a.
Proof. intros ->. reflexivity. Qed.

Lemma Ok_inj {A : Type} (a b : A) : Ok a = Ok b -> a = b.
Proof. intros H. injection H as ->. reflexivity. Qed.

(** Split a hypothesis [x ← m; k x = Ok b] into its two steps. *)
Ltac inv_bind H :=
  let a := fresh "a" in
  let Ha := fresh "H" a in
  apply bind_Ok_inv in H; destruct H as (a & Ha & H).

(** ** The small-business flag *)

Lemma is_small_business_flag_true (fd : gmap string PyVal) :
  is_small_business_flag fd = true <-> fd !! "is_small_business" = Some (VStr "true").
Proof.
  unfold is_small_business_flag, dict_get, py_eq_str.
  destruct (fd !! "is_small_business") as [v|]; simpl.
  - destruct v as [ | b | n | s | d ]; simpl; try (split; intros H; discriminate H).
    rewrite String.eqb_eq. split; [intros -> | intros [= ->]]; reflexivity.
  - split; intros H; discriminate H.
Qed.

Lemma is_small_business_flag_other (fd : gmap string PyVal) (v : PyVal) :
  v <> VStr "true" ->
  is_small_business_flag (<["is_small_business" := v]> fd) = false.
Proof.
  intros Hv. destruct (is_small_business_flag _) eqn:E; [|reflexivity].
  apply is_small_business_flag_true in E.
  rewrite lookup_insert_eq in E. congruence.
Qed.

Lemma is_small_business_flag_absent (fd : gmap string PyVal) :
  is_small_business_flag (delete "is_small_business" fd) = false.
Proof.
  destruct (is_small_business_flag _) eqn:E; [|reflexivity].
  apply is_small_business_flag_true in E.
  rewrite lookup_delete_eq in E. discriminate E.
Qed.

Lemma dict_get_same (fd1 fd2 : gmap string PyVal) (k : string) :
  same_reads fd1 fd2 -> k <> "is_small_business" -> dict_get fd1 k = dict_get fd2 k.
Proof. intros [_ H] Hk. unfold dict_get. rewrite (H k Hk). reflexivity. Qed.

Lemma dict_get_default_same (fd1 fd2 : gmap string PyVal) (k : string) (d : PyVal) :
  same_reads fd1 fd2 -> k <> "is_small_business" ->
  dict_get_default fd1 k d = dict_get_default fd2 k d.
Proof. intros [_ H] Hk. unfold dict_get_default. rewrite (H k Hk). reflexivity. Qed.

Ltac other_key := let H := fresh in intros H; discriminate H.

Lemma field_same (fd1 fd2 : gmap string PyVal) (k : string) :
  same_reads fd1 fd2 -> k <> "is_small_business" -> field fd1 k = field fd2 k.
Proof. intros H Hk. unfold field. rewrite (dict_get_default_same fd1 fd2 k _ H Hk). reflexivity. Qed.

Lemma detail_line_same (fd1 fd2 : gmap string PyVal) (k label : string) :
  same_reads fd1 fd2 -> k <> "is_small_business" ->
  detail_line fd1 k label = detail_line fd2 k label.
Proof. intros H Hk. unfold detail_line. rewrite (dict_get_same fd1 fd2 k H Hk). reflexivity. Qed.

Lemma footer_notes_of_same (fd1 fd2 : gmap string PyVal) :
  same_reads fd1 fd2 -> footer_notes_of fd1 = footer_notes_of fd2.
Proof.
  intros H. unfold footer_notes_of.
  rewrite (dict_get_default_same fd1 fd2 "notes" _ H) by other_key.
  destruct H as [-> _]. reflexivity.
Qed.

Lemma draw_header_and_footer_same (e : env) (fd1 fd2 : gmap string PyVal)
    (logo : option string) :
  same_reads fd1 fd2 ->
  _draw_header_and_footer e fd1 logo = _draw_header_and_footer e fd2 logo.
Proof.
  intros H. unfold _draw_header_and_footer.
  rewrite (footer_notes_of_same fd1 fd2 H).
  rewrite !(detail_line_same fd1 fd2 _ _ H) by other_key.
  rewrite !(field_same fd1 fd2 _ H) by other_key.
  reflexivity.
Qed.

Lemma table_data_same (fd1 fd2 : gmap string PyVal) (items : list (gmap string PyVal)) :
  same_reads fd1 fd2 -> table_data fd1 items = table_data fd2 items.
Proof. intros [H _]. unfold table_data. rewrite H. reflexivity. Qed.

Lemma build_reportlab_pdf_same (e : env) (fd1 fd2 : gmap string PyVal)
    (items : list (gmap string PyVal)) (logo : option string) :
  same_reads fd1 fd2 ->
  _build_reportlab_pdf e fd1 items logo = _build_reportlab_pdf e fd2 items logo.
Proof.
  intros H. unfold _build_reportlab_pdf.
  rewrite (table_data_same fd1 fd2 items H).
  rewrite (draw_header_and_footer_same e fd1 fd2 logo H).
  reflexivity.
Qed.

Lemma postal_address_same (fd1 fd2 : gmap string PyVal) (who : string) :
  same_reads fd1 fd2 -> who = "sender" \/ who = "receiver" ->
  postal_address fd1 who = postal_address fd2 who.
Proof.
  intros H [-> | ->]; unfold postal_address; simpl;
    rewrite !(dict_get_default_same fd1 fd2 _ _ H) by other_key; reflexivity.
Qed.

Lemma tax_registration_same (fd1 fd2 : gmap string PyVal) (k scheme : string) :
  same_reads fd1 fd2 -> k <> "is_small_business" ->
  tax_registration fd1 k scheme = tax_registration fd2 k scheme.
Proof.
  intros H Hk. unfold tax_registration.
  rewrite (dict_get_same fd1 fd2 k H Hk). reflexivity.
Qed.

Lemma generate_zugferd_xml_same (e : env) (fd1 fd2 : gmap string PyVal)
    (items : list (gmap string PyVal)) :
  same_reads fd1 fd2 ->
  _generate_zugferd_xml e fd1 items = _generate_zugferd_xml e fd2 items.
Proof.
  intros H. unfold _generate_zugferd_xml.
  rewrite !(postal_address_same fd1 fd2 _ H) by auto.
  rewrite !(tax_registration_same fd1 fd2 _ _ H) by other_key.
  rewrite !(dict_get_default_same fd1 fd2 _ _ H) by other_key.
  rewrite !(dict_get_same fd1 fd2 _ H) by other_key.
  destruct H as [-> _]. reflexivity.
Qed.

Lemma xmp_metadata_same (fd1 fd2 : gmap string PyVal) :
  same_reads fd1 fd2 -> xmp_metadata fd1 = xmp_metadata fd2.
Proof.
  intros H. unfold xmp_metadata.
  rewrite !(field_same fd1 fd2 _ H) by other_key. reflexivity.
Qed.

Lemma make_pdfa_compliant_same (e : env) (buf : pdf_buffer) (x : xml)
    (fd1 fd2 : gmap string PyVal) :
  same_reads fd1 fd2 ->
  _make_pdfa_compliant e buf x fd1 = _make_pdfa_compliant e buf x fd2.
Proof.
  intros H. unfold _make_pdfa_compliant.
  rewrite (xmp_metadata_same fd1 fd2 H). reflexivity.
Qed.

Lemma generate_invoice_pdf_same (e : env) (fd1 fd2 : gmap string PyVal)
    (items : list (gmap string PyVal)) (logo : option string) :
  same_reads fd1 fd2 ->
  generate_invoice_pdf e fd1 items logo = generate_invoice_pdf e fd2 items logo.
Proof.
  intros H. unfold generate_invoice_pdf.
  rewrite (build_reportlab_pdf_same e fd1 fd2 items logo H).
  rewrite (generate_zugferd_xml_same e fd1 fd2 items H).
  destruct (_build_reportlab_pdf e fd2 items logo) as [buf|]; simpl; [|reflexivity].
  destruct (_generate_zugferd_xml e fd2 items) as [x|]; simpl; [|reflexivity].
  apply make_pdfa_compliant_same, H.
Qed.

Lemma same_reads_other_value (fd : gmap string PyVal) (v : PyVal) :
  v <> VStr "true" ->
  same_reads (<["is_small_business" := v]> fd) (delete "is_small_business" fd).
Proof.
  intros Hv. split.
  - rewrite is_small_business_flag_other by exact Hv.
    rewrite is_small_business_flag_absent. reflexivity.
  - intros k Hk. rewrite lookup_insert_ne by congruence.
    rewrite lookup_delete_ne by congruence. reflexivity.
Qed.

(** ** Digits and powers of ten *)

Lemma pow10_pos (k : Z) : (0 < pow10 k)%N.
Proof. unfold pow10. apply N.neq_0_lt_0, N.pow_nonzero. discriminate. Qed.

Lemma pow10_Z (k : Z) : 0 <= k -> Z.of_N (pow10 k) = 10 ^ k.
Proof.
  intros Hk. unfold pow10. rewrite N2Z.inj_pow, Z2N.id by exact Hk. reflexivity.
Qed.

Lemma pow10_neg (k : Z) : k <= 0 -> pow10 k = 1%N.
Proof.
  intros Hk. unfold pow10. destruct k as [|p|p]; try reflexivity. lia.
Qed.

Lemma ndigits_fuel_spec (fuel : nat) (c : N) :
  (c < 2 ^ N.of_nat fuel)%N ->
  1 <= ndigits_fuel fuel c /\
  Z.of_N c < 10 ^ ndigits_fuel fuel c /\
  (c <> 0%N -> 10 ^ (ndigits_fuel fuel c - 1) <= Z.of_N c).
Proof.
  revert c. induction fuel as [|fuel IH]; intros c Hc.
  - simpl in *. assert (c = 0%N) by lia. subst c. simpl. lia.
  - cbn [ndigits_fuel]. destruct (N.ltb_spec c 10) as [Hlt|Hge].
    + simpl. lia.
    + assert (Hdiv : (c / 10 < 2 ^ N.of_nat fuel)%N).
      { rewrite Nat2N.inj_succ, N.pow_succ_r' in Hc.
        apply N.Div0.div_lt_upper_bound. lia. }
      destruct (IH _ Hdiv) as (H1 & H2 & H3).
      set (r := ndigits_fuel fuel (c / 10)) in *.
      assert (Hne : (c / 10)%N <> 0%N).
      { intros H0. apply N.div_small_iff in H0; lia. }
      specialize (H3 Hne).
      pose proof (N.div_mod c 10 ltac:(lia)) as Hdm.
      pose proof (N.mod_lt c 10 ltac:(lia)) as Hm.
      replace (1 + r - 1) with (Z.succ (r - 1)) by lia.
      replace (1 + r) with (Z.succ r) by lia.
      rewrite !Z.pow_succ_r by lia.
      rewrite N2Z.inj_div in H2, H3. change (Z.of_N 10) with 10 in *.
      pose proof (Z.div_mod (Z.of_N c) 10 ltac:(lia)) as Hzdm.
      pose proof (Z.mod_pos_bound (Z.of_N c) 10 ltac:(lia)) as Hzm.
      lia.
Qed.

Lemma ndigits_spec (c : N) :
  1 <= ndigits c /\ Z.of_N c < 10 ^ ndigits c /\
  (c <> 0%N -> 10 ^ (ndigits c - 1) <= Z.of_N c).
Proof.
  unfold ndigits. apply ndigits_fuel_spec.
  rewrite N2Nat.id. apply N.size_gt.
Qed.

Lemma ndigits_le (c : N) (k : Z) : 1 <= k -> Z.of_N c < 10 ^ k -> ndigits c <= k.
Proof.
  intros Hk Hc. destruct (ndigits_spec c) as (H1 & H2 & H3).
  destruct (N.eq_dec c 0%N) as [->|Hne]; [change (ndigits 0) with 1; lia|].
  specialize (H3 Hne).
  destruct (Z_le_gt_dec (ndigits c) k) as [|Hgt]; [assumption|exfalso].
  assert (10 ^ k <= 10 ^ (ndigits c - 1)) by (apply Z.pow_le_mono_r; lia).
  lia.
Qed.

Lemma ndigits_ge (c : N) (k : Z) : 0 <= k -> 10 ^ k <= Z.of_N c -> k + 1 <= ndigits c.
Proof.
  intros Hk Hc. destruct (ndigits_spec c) as (H1 & H2 & _).
  destruct (Z_le_gt_dec (k + 1) (ndigits c)) as [|Hgt]; [assumption|exfalso].
  assert (10 ^ ndigits c <= 10 ^ k) by (apply Z.pow_le_mono_r; lia).
  lia.
Qed.

Lemma ndigits_0 : ndigits 0 = 1.
Proof. reflexivity. Qed.

(** ** Results of the decimal operations *)

Lemma fix_nan_idem (d : decimal) : fix_nan (fix_nan d) = fix_nan d.
Proof.
  assert (H : forall p : N, (prec <? ndigits (p mod pow10 prec)) = false).
  { intros p. apply Z.ltb_ge. apply ndigits_le; [unfold prec; lia|].
    rewrite N2Z.inj_mod, pow10_Z by (unfold prec; lia).
    apply Z.mod_pos_bound. unfold prec. lia. }
  destruct d as [s c e|s|s p|s p]; simpl; try reflexivity;
    destruct (prec <? ndigits p) eqn:E; simpl; rewrite ?H, ?E; reflexivity.
Qed.

Lemma dec_fix_finite (s : bool) (c : N) (e : Z) (r : decimal) :
  dec_fix (Finite s c e) = Ok r -> exists c' e', r = Finite s c' e'.
Proof.
  unfold dec_fix. intros H.
  repeat match type of H with
         | (if ?b then _ else _) = _ => destruct b
         | Ok _ = Ok _ => injection H as <-; eauto
         | Raise _ = Ok _ => discriminate H
         end.
Qed.

Lemma check_nans_None (a b : decimal) :
  check_nans a b = Ok None -> is_nan a = false /\ is_nan b = false.
Proof. destruct a, b; simpl; intros H; try discriminate H; auto. Qed.

Lemma check_nans_Some (a b d : decimal) :
  check_nans a b = Ok (Some d) -> is_nan d = true /\ fix_nan d = d.
Proof.
  destruct a as [? ? ?|?|sa pa|? ?], b as [? ? ?|?|sb pb|? ?]; simpl; intros H;
    try discriminate H; injection H as <-;
    (split; [|first [apply (fix_nan_idem (NaN sa pa)) | apply (fix_nan_idem (NaN sb pb))]]);
    destruct (prec <? ndigits _); reflexivity.
Qed.

Lemma rescale_finite (r : rounding) (s : bool) (c : N) (e exp : Z) :
  exists c', rescale r (Finite s c e) exp = Finite s c' exp.
Proof.
  unfold rescale. destruct (c =? 0)%N; [eauto|].
  destruct (exp <=? e); [eauto|]. eauto.
Qed.

Lemma dec_add_finite_finite (s1 s2 : bool) (c1 c2 : N) (e1 e2 : Z) (r : decimal) :
  dec_add (Finite s1 c1 e1) (Finite s2 c2 e2) = Ok r -> is_finite r = true.
Proof.
  unfold dec_add. simpl check_nans. cbn [mbind result_bind bind].
  destruct (normalize c1 e1 c2 e2) as [[n1 ne] [n2 ne']].
  destruct (rescale_finite ROUND_HALF_EVEN s1 c1 e1 (Z.max (Z.min e1 e2) (e1 - prec - 1)))
    as [ca ->].
  destruct (rescale_finite ROUND_HALF_EVEN s2 c2 e2 (Z.max (Z.min e1 e2) (e2 - prec - 1)))
    as [cb ->].
  repeat match goal with |- context [if ?b then _ else _] => destruct b end;
    intros H; apply dec_fix_finite in H as (c & e & ->); reflexivity.
Qed.

(** A sum is never a NaN with an oversized payload, and it is finite only
    when both operands are. *)
Lemma dec_add_fixed (a b r : decimal) : dec_add a b = Ok r -> fix_nan r = r.
Proof.
  intros H. pose proof H as H'. unfold dec_add in H. inv_bind H. destruct a0 as [d|].
  - injection H as <-. eapply check_nans_Some, Ha0.
  - apply check_nans_None in Ha0 as [Ha Hb].
    destruct a as [s1 c1 e1|s1|s1 p1|s1 p1], b as [s2 c2 e2|s2|s2 p2|s2 p2];
      simpl in Ha, Hb; try discriminate.
    + apply dec_add_finite_finite in H'. destruct r; try discriminate H'. reflexivity.
    + injection H as <-. reflexivity.
    + injection H as <-. reflexivity.
    + destruct (Bool.eqb s1 s2); [injection H as <-; reflexivity | discriminate H].
Qed.

Lemma dec_add_finite_inv (a b r : decimal) :
  dec_add a b = Ok r -> is_finite r = true -> is_finite a = true /\ is_finite b = true.
Proof.
  unfold dec_add. intros H Hr. inv_bind H. destruct a0 as [d|].
  - injection H as <-. apply check_nans_Some in Ha0 as [Hn _].
    destruct d; discriminate.
  - apply check_nans_None in Ha0 as [Ha Hb].
    destruct a as [s1 c1 e1|s1|s1 p1|s1 p1], b as [s2 c2 e2|s2|s2 p2|s2 p2];
      simpl in Ha, Hb; try discriminate; auto; exfalso;
      try (destruct (Bool.eqb s1 s2); [|discriminate H]);
      injection H as <-; discriminate Hr.
Qed.

(** A coefficient of at most [prec] digits at exponent -2 (or -4) is left
    alone by [dec_fix]. *)
Lemma dec_fix_small_exp (s : bool) (c : N) (e : Z) :
  ndigits c <= prec -> -30 <= e <= 0 -> dec_fix (Finite s c e) = Ok (Finite s c e).
Proof.
  intros Hc He. unfold dec_fix.
  destruct (N.eqb_spec c 0) as [->|Hne].
  - f_equal. f_equal. unfold Etiny, Emax, Emin, prec. lia.
  - pose proof (ndigits_spec c) as (H1 & _).
    unfold Etop, Etiny, Emax, Emin, prec in *.
    destruct (Z.ltb_spec (999999 - 28 + 1) (ndigits c + e - 28)); [lia|].
    destruct (Z.ltb_spec (ndigits c + e - 28) (-999999 - 28 + 1)); [lia|].
    destruct (Z.ltb_spec e (ndigits c + e - 28)); [lia|]. reflexivity.
Qed.

(** Quantizing a finite decimal to two places is rescaling it. *)
Lemma quantize_two_places (r : rounding) (s : bool) (c : N) (e : Z) (d : decimal) :
  quantize r (Finite s c e) TWO_PLACES = Ok d ->
  d = rescale r (Finite s c e) (-2).
Proof.
  unfold quantize, TWO_PLACES. simpl check_nans. cbn [mbind result_bind bind].
  change (negb ((Etiny <=? -2) && (-2 <=? Emax))) with false. cbv iota.
  destruct (N.eqb_spec c 0) as [->|Hne].
  - intros H. rewrite dec_fix_small_exp in H by (rewrite ?ndigits_0; unfold prec; lia).
    injection H as <-. reflexivity.
  - destruct (Emax <? adjusted c e); [discriminate|].
    destruct (prec <? adjusted c e - -2 + 1); [discriminate|].
    destruct (rescale_finite r s c e (-2)) as [c' ->].
    destruct (Emax <? adjusted c' (-2)); [discriminate|].
    destruct (Z.ltb_spec prec (ndigits c')) as [|Hd]; [discriminate|].
    intros H. rewrite dec_fix_small_exp in H by lia. injection H as <-. reflexivity.
Qed.

Lemma rescale_idem (r r' : rounding) (d : decimal) (exp : Z) :
  rescale r' (rescale r d exp) exp = rescale r d exp.
Proof.
  destruct d as [s c e|s|s p|s p]; try reflexivity.
  destruct (rescale_finite r s c e exp) as [c' ->].
  unfold rescale. destruct (N.eqb_spec c' 0) as [->|Hne]; [reflexivity|].
  rewrite Z.leb_refl, Z.sub_diag. unfold pow10. simpl. rewrite N.mul_1_r. reflexivity.
Qed.

(** What [format(d, ",.2f")] writes depends on [d] only through its
    rescaling to two places. *)
Lemma format_2f_rescale (d : decimal) :
  is_finite d = true -> format_2f (rescale ROUND_HALF_EVEN d (-2)) = format_2f d.
Proof.
  destruct d as [s c e|s|s p|s p]; try discriminate. intros _.
  destruct (rescale_finite ROUND_HALF_EVEN s c e (-2)) as [c' E].
  unfold format_2f at 2. rewrite E.
  unfold format_2f. rewrite <- E, rescale_idem, E. reflexivity.
Qed.

(** The text written for a quantized amount and the text displayed for the
    amount itself show the same decimal. *)
Lemma format_2f_quantized (g d : decimal) :
  fix_nan g = g ->
  quantize ROUND_HALF_EVEN g TWO_PLACES = Ok d ->
  format_2f g = format_2f d.
Proof.
  intros Hfix H. destruct g as [s c e|s|s p|s p].
  - apply quantize_two_places in H. subst d. symmetry. apply format_2f_rescale. reflexivity.
  - discriminate H.
  - change (quantize ROUND_HALF_EVEN (NaN s p) TWO_PLACES)
      with (Ok (fix_nan (NaN s p))) in H.
    rewrite Hfix in H. injection H as <-. reflexivity.
  - discriminate H.
Qed.

Lemma format_currency_quantized (g d : decimal) :
  fix_nan g = g ->
  quantize ROUND_HALF_EVEN g TWO_PLACES = Ok d ->
  format_currency g = format_currency d.
Proof.
  intros Hfix H. unfold format_currency. rewrite (format_2f_quantized g d Hfix H). reflexivity.
Qed.

(** ** The table of the renderer *)

Lemma table_data_inv (fd : gmap string PyVal) (items : list (gmap string PyVal))
    (rows : list row) :
  table_data fd items = Ok rows ->
  exists net vat gross summary irows vrows,
    _calculate_totals items (is_small_business_flag fd) = Ok (net, vat, gross, summary) /\
    item_rows (is_small_business_flag fd) items = Ok irows /\
    vat_rows (is_small_business_flag fd) summary = Ok vrows /\
    rows = header_row :: irows ++ [netto_row net] ++ vrows ++ [gesamt_row gross].
Proof.
  unfold table_data. intros H. inv_bind H.
  destruct a as [[[net vat] gross] summary].
  inv_bind H. inv_bind H. injection H as <-.
  exists net, vat, gross, summary, a, a0. auto.
Qed.

Lemma item_rows_length (b : bool) (items : list (gmap string PyVal)) (rows : list row) :
  item_rows b items = Ok rows -> length rows = length items.
Proof.
  revert rows. induction items as [|item rest IH]; intros rows H; simpl in H.
  - injection H as <-. reflexivity.
  - inv_bind H. inv_bind H. injection H as <-. simpl. f_equal. apply IH, Ha0.
Qed.

Lemma vat_rows_of_filter (l : vat_summary) (rows : list row) :
  vat_rows_of l = Ok rows ->
  rows = map vat_row (filter (fun kv => vat_positive kv = true) l).
Proof.
  revert rows. induction l as [|kv r IH]; intros rows H; simpl in H.
  - injection H as <-. reflexivity.
  - inv_bind H. inv_bind H. injection H as <-.
    assert (Hp : vat_positive kv = a) by (unfold vat_positive; rewrite Ha; reflexivity).
    rewrite (IH a0 Ha0). destruct a.
    + rewrite filter_cons_True by exact Hp. reflexivity.
    + rewrite filter_cons_False by congruence. reflexivity.
Qed.

Lemma insert_sorted_perm (x : decimal * bucket) (l l' : vat_summary) :
  insert_sorted x l = Ok l' -> Permutation (x :: l) l'.
Proof.
  revert l'. induction l as [|y r IH]; intros l' H; simpl in H.
  - injection H as <-. reflexivity.
  - inv_bind H. destruct a.
    + injection H as <-. reflexivity.
    + inv_bind H. injection H as <-.
      rewrite perm_swap. apply perm_skip. apply IH, Ha0.
Qed.

Lemma sorted_items_perm (l l' : vat_summary) :
  sorted_items l = Ok l' -> Permutation l l'.
Proof.
  revert l'. induction l as [|x r IH]; intros l' H; simpl in H.
  - injection H as <-. reflexivity.
  - inv_bind H. rewrite <- (insert_sorted_perm _ _ _ H).
    apply perm_skip. apply IH, Ha.
Qed.


(** ** The document of the serializer *)

Lemma find_skip (t : string) (l r : list xml) :
  Forall (fun c => String.eqb (tag_of c) t = false) l ->
  find (fun c => String.eqb (tag_of c) t) (l ++ r) = find (fun c => String.eqb (tag_of c) t) r.
Proof.
  induction 1 as [|c l Hc _ IH]; simpl; [reflexivity|]. rewrite Hc. exact IH.
Qed.

Lemma find_path_app (p q : list string) (x : xml) :
  find_path (p ++ q) x = y ← find_path p x; find_path q y.
Proof.
  revert x. induction p as [|t p IH]; intros x; simpl; [reflexivity|].
  destruct (find_child t x); [apply IH | reflexivity].
Qed.

Lemma line_items_tags (b : bool) (i : nat) (items : list (gmap string PyVal)) (l : list xml) :
  line_items b i items = Ok l ->
  Forall (fun c => tag_of c = ram "IncludedSupplyChainTradeLineItem") l.
Proof.
  revert i l. induction items as [|item rest IH]; intros i l H; simpl in H.
  - injection H as <-. constructor.
  - inv_bind H. inv_bind H. injection H as <-. constructor; [|eapply IH, Ha0].
    unfold line_item in Ha. repeat inv_bind Ha. injection Ha as <-. reflexivity.
Qed.

Lemma trade_taxes_tags (summary : vat_summary) (l : list xml) :
  trade_taxes summary = Ok l ->
  Forall (fun c => tag_of c = ram "ApplicableTradeTax") l.
Proof.
  revert l. induction summary as [|kv rest IH]; intros l H; simpl in H.
  - injection H as <-. constructor.
  - inv_bind H. inv_bind H. injection H as <-. constructor; [|eapply IH, Ha0].
    unfold trade_tax in Ha. repeat inv_bind Ha. injection Ha as <-. reflexivity.
Qed.

Lemma quantized_text_inv (d q : decimal) (v : PyVal) :
  quantized_text d q = Ok v ->
  exists r, quantize ROUND_HALF_EVEN d q = Ok r /\ v = VStr (dec_str r).
Proof.
  unfold quantized_text. intros H. inv_bind H. injection H as <-. eauto.
Qed.

Lemma header_summation_inv (net : decimal) (vat : PyVal) (gross : decimal) (summ : xml) :
  header_summation net vat gross = Ok summ ->
  exists q,
    quantize ROUND_HALF_EVEN gross TWO_PLACES = Ok q /\
    tag_of summ = ram "SpecifiedTradeSettlementHeaderMonetarySummation" /\
    find_child (ram "GrandTotalAmount") summ
      = Some (leaf (ram "GrandTotalAmount") (VStr (dec_str q))).
Proof.
  unfold header_summation. intros H.
  repeat inv_bind H. injection H as <-.
  apply quantized_text_inv in Ha2 as (q & Hq & ->).
  exists q. split; [exact Hq|]. split; reflexivity.
Qed.

Lemma generate_zugferd_xml_inv (e : env) (fd : gmap string PyVal)
    (items : list (gmap string PyVal)) (x : xml) :
  _generate_zugferd_xml e fd items = Ok x ->
  exists net vat gross summary summ,
    _calculate_totals items (is_small_business_flag fd) = Ok (net, vat, gross, summary) /\
    header_summation net vat gross = Ok summ /\
    find_path summation_path x = Some summ.
Proof.
  unfold _generate_zugferd_xml. intros H. inv_bind H. inv_bind H.
  destruct a0 as [[[net vat] gross] summary].
  inv_bind H. inv_bind H. inv_bind H.
  unfold tostring in H.
  match type of H with (if ?c then _ else _) = _ => destruct c; [|discriminate H] end.
  injection H as <-.
  match goal with Hx : _calculate_totals _ _ = Ok _ |- _ => rename Hx into Hcalc end.
  match goal with Hx : line_items _ _ _ = Ok ?l |- _ => rename Hx into Hlines end.
  match goal with Hx : trade_taxes _ = Ok ?l |- _ => rename Hx into Htaxes end.
  match goal with Hx : header_summation _ _ _ = Ok ?l |- _ =>
    rename Hx into Hsum; rename l into summ end.
  exists net, vat, gross, summary, summ. split; [exact Hcalc|]. split; [exact Hsum|].
  destruct (header_summation_inv _ _ _ _ Hsum) as (q & _ & Htag & _).
  unfold summation_path, find_path.
  change (find_child (rsm "SupplyChainTradeTransaction") (node (rsm "CrossIndustryInvoice") ?l))
    with (find (fun c => String.eqb (tag_of c) (rsm "SupplyChainTradeTransaction")) l).
  cbn [find tag_of node].
  change (String.eqb (rsm "ExchangedDocumentContext") (rsm "SupplyChainTradeTransaction")) with false.
  change (String.eqb (rsm "ExchangedDocument") (rsm "SupplyChainTradeTransaction")) with false.
  change (String.eqb (rsm "SupplyChainTradeTransaction") (rsm "SupplyChainTradeTransaction")) with true.
  cbv iota.
  unfold find_child at 1. cbn [children_of node].
  rewrite find_skip.
  2:{ eapply Forall_impl; [eapply line_items_tags, Hlines|]. intros c ->. reflexivity. }
  cbn [find tag_of node].
  change (String.eqb (ram "ApplicableHeaderTradeAgreement") (ram "ApplicableHeaderTradeSettlement")) with false.
  change (String.eqb (ram "ApplicableHeaderTradeSettlement") (ram "ApplicableHeaderTradeSettlement")) with true.
  cbv iota.
  unfold find_child. cbn [children_of node].
  cbn [app find tag_of leaf].
  change (String.eqb (ram "InvoiceCurrencyCode") (ram "SpecifiedTradeSettlementHeaderMonetarySummation")) with false.
  cbv iota.
  rewrite find_skip.
  2:{ destruct (truthy (dict_get fd "sender_iban")); constructor; [reflexivity|constructor]. }
  rewrite find_skip.
  2:{ eapply Forall_impl; [eapply trade_taxes_tags, Htaxes|]. intros c ->. reflexivity. }
  cbn [find]. rewrite Htag.
  change (String.eqb (ram "SpecifiedTradeSettlementHeaderMonetarySummation")
            (ram "SpecifiedTradeSettlementHeaderMonetarySummation")) with true.
  reflexivity.
Qed.

Lemma grand_total_amount_spec (e : env) (fd : gmap string PyVal)
    (items : list (gmap string PyVal)) (x : xml) :
  _generate_zugferd_xml e fd items = Ok x ->
  exists net vat gross summary q,
    _calculate_totals items (is_small_business_flag fd) = Ok (net, vat, gross, summary) /\
    quantize ROUND_HALF_EVEN gross TWO_PLACES = Ok q /\
    grand_total_amount x = Some (VStr (dec_str q)).
Proof.
  intros H. destruct (generate_zugferd_xml_inv _ _ _ _ H) as (net & vat & gross & summary & summ & Hc & Hs & Hp).
  destruct (header_summation_inv _ _ _ _ Hs) as (q & Hq & _ & Hf).
  exists net, vat, gross, summary, q. split; [exact Hc|]. split; [exact Hq|].
  unfold grand_total_amount. rewrite find_path_app, Hp. simpl.
  rewrite Hf. reflexivity.
Qed.

(** ** Totals *)

Lemma calculate_totals_inv (items : list (gmap string PyVal)) (b : bool)
    (net : decimal) (total_vat : PyVal) (gross : decimal) (summary : vat_summary) :
  _calculate_totals items b = Ok (net, total_vat, gross, summary) ->
  totals_loop b items (Decimal_0_0, []) = Ok (net, summary) /\
  py_sum (map (fun kv => vat (snd kv)) summary) = Ok total_vat /\
  add_total net total_vat = Ok gross.
Proof.
  unfold _calculate_totals. intros H. inv_bind H. inv_bind H. inv_bind H.
  injection H as <- <- <- <-. destruct a as [n s]. auto.
Qed.

Lemma calculate_totals_gross_fixed (items : list (gmap string PyVal)) (b : bool)
    (net : decimal) (vat : PyVal) (gross : decimal) (summary : vat_summary) :
  _calculate_totals items b = Ok (net, vat, gross, summary) -> fix_nan gross = gross.
Proof.
  intros H. apply calculate_totals_inv in H as (_ & _ & H).
  unfold add_total in H. destruct vat; try discriminate H; eapply dec_add_fixed, H.
Qed.

Lemma last_app_singleton {A : Type} (l : list A) (x : A) : last (l ++ [x]) = Some x.
Proof. apply last_snoc. Qed.

(** C1: the amount shown in the bold gross-total row of the table and the
    text of the GrandTotalAmount element show one and the same decimal,
    the gross total of [_calculate_totals] at two places. *)
Theorem C1_grand_total_pdf_xml (e : env) (fd : gmap string PyVal)
    (items : list (gmap string PyVal)) (rows : list row) (x : xml) :
  table_data fd items = Ok rows ->
  _generate_zugferd_xml e fd items = Ok x ->
  exists net vat gross summary d,
    _calculate_totals items (is_small_business_flag fd) = Ok (net, vat, gross, summary) /\
    quantize ROUND_HALF_EVEN gross TWO_PLACES = Ok d /\
    grand_total_amount x = Some (VStr (dec_str d)) /\
    displayed_gross rows
      = Some (CellPara ("<b>" +:+ euro (format_currency d) +:+ "</b>") "RightAlign").
Proof.
  intros Ht Hx.
  destruct (table_data_inv _ _ _ Ht) as (net & vat & gross & summary & irows & vrows & Hc & _ & _ & ->).
  destruct (grand_total_amount_spec _ _ _ _ Hx) as (net' & vat' & gross' & summary' & d & Hc' & Hq & Hg).
  rewrite Hc in Hc'. injection Hc' as <- <- <- <-.
  exists net, vat, gross, summary, d. repeat split; try assumption.
  unfold displayed_gross.
  replace (header_row :: irows ++ [netto_row net] ++ vrows ++ [gesamt_row gross])
    with ((header_row :: irows ++ [netto_row net] ++ vrows) ++ [gesamt_row gross])
    by (simpl; rewrite <- !app_assoc; reflexivity).
  rewrite last_snoc. simpl.
  rewrite (format_currency_quantized gross d (calculate_totals_gross_fixed _ _ _ _ _ _ Hc) Hq).
  reflexivity.
Qed.

Lemma C1_grand_total_pdf_xml_witness :
  exists rows x,
    table_data sample_form consulting = Ok rows /\
    _generate_zugferd_xml sample_env sample_form consulting = Ok x /\
    exists net vat gross summary d,
      _calculate_totals consulting (is_small_business_flag sample_form)
        = Ok (net, vat, gross, summary) /\
      quantize ROUND_HALF_EVEN gross TWO_PLACES = Ok d /\
      grand_total_amount x = Some (VStr (dec_str d)) /\
      displayed_gross rows
        = Some (CellPara ("<b>" +:+ euro (format_currency d) +:+ "</b>") "RightAlign").
Proof.
  eexists _, _. split; [vm_compute; reflexivity|]. split; [vm_compute; reflexivity|].
  apply (C1_grand_total_pdf_xml sample_env sample_form consulting); vm_compute; reflexivity.
Defined.

(** ** VAT rows of the table *)

(** C8, as the code has it: the summary block is the net row, then one row
    for every bucket of the summary whose accumulated VAT amount is greater
    than zero (none for a small business), then the bold gross row. *)
Theorem C8_vat_rows (fd : gmap string PyVal) (items : list (gmap string PyVal))
    (rows : list row) :
  table_data fd items = Ok rows ->
  exists net vat gross summary irows vrows,
    _calculate_totals items (is_small_business_flag fd) = Ok (net, vat, gross, summary) /\
    rows = header_row :: irows ++ [netto_row net] ++ vrows ++ [gesamt_row gross] /\
    length irows = length items /\
    (is_small_business_flag fd = true -> vrows = []) /\
    (is_small_business_flag fd = false ->
     exists sorted,
       sorted_items summary = Ok sorted /\
       Permutation summary sorted /\
       vrows = map vat_row (filter (fun kv => vat_positive kv = true) sorted) /\
       length vrows = length (filter (fun kv => vat_positive kv = true) summary)).
Proof.
  intros H.
  destruct (table_data_inv _ _ _ H) as (net & vat & gross & summary & irows & vrows & Hc & Hi & Hv & ->).
  exists net, vat, gross, summary, irows, vrows.
  split; [exact Hc|]. split; [reflexivity|]. split; [eapply item_rows_length, Hi|].
  unfold vat_rows in Hv. split; intros Hflag; rewrite Hflag in Hv.
  - injection Hv as <-. reflexivity.
  - inv_bind Hv. exists a. split; [exact Ha|].
    pose proof (sorted_items_perm _ _ Ha) as Hp. split; [exact Hp|].
    pose proof (vat_rows_of_filter _ _ Hv) as ->. split; [reflexivity|].
    rewrite length_map. apply Permutation_length. symmetry.
    apply filter_Permutation, Hp.
Qed.

Lemma C8_vat_rows_witness :
  exists rows,
    table_data sample_form consulting = Ok rows /\
    exists net vat gross summary irows vrows,
      _calculate_totals consulting (is_small_business_flag sample_form)
        = Ok (net, vat, gross, summary) /\
      rows = header_row :: irows ++ [netto_row net] ++ vrows ++ [gesamt_row gross] /\
      length irows = length consulting /\
      (is_small_business_flag sample_form = true -> vrows = []) /\
      (is_small_business_flag sample_form = false ->
       exists sorted,
         sorted_items summary = Ok sorted /\
         Permutation summary sorted /\
         vrows = map vat_row (filter (fun kv => vat_positive kv = true) sorted) /\
         length vrows = length (filter (fun kv => vat_positive kv = true) summary)).
Proof.
  eexists. split; [vm_compute; reflexivity|].
  apply (C8_vat_rows sample_form consulting). vm_compute. reflexivity.
Defined.

(** One cent at 19 percent: the bucket of the rate 19 is a bucket of a rate
    that is not zero, its VAT amount rounds to 0.00, and the table has no
    VAT row. *)
Lemma C8_counterexample :
  exists net vat gross summary,
    _calculate_totals [sample_item "Stift" "1" "0.01" "19"] false
      = Ok (net, vat, gross, summary) /\
    length (filter (fun kv => nonzero_rate kv = true) summary) = 1%nat /\
    vat_rows false summary = Ok [] /\
    exists irow,
      table_data sample_form [sample_item "Stift" "1" "0.01" "19"]
        = Ok [header_row; irow; netto_row net; gesamt_row gross].
Proof.
  eexists _, _, _, _. split; [vm_compute; reflexivity|].
  split; [vm_compute; reflexivity|]. split; [vm_compute; reflexivity|].
  eexists. vm_compute. reflexivity.
Qed.

(** ** The assembler *)

Lemma fold_add_page (pages : list page) (w : writer) :
  fold_left add_page pages w
  = {| w_pages := w_pages w ++ pages; w_root := w_root w; w_objects := w_objects w |}.
Proof.
  revert w. induction pages as [|p r IH]; intros w; simpl.
  - rewrite app_nil_r. destruct w; reflexivity.
  - rewrite IH. simpl. rewrite <- app_assoc. reflexivity.
Qed.
(** The steps of the assembler on a parsed document. *)
Lemma make_pdfa_compliant_parsed (e : env) (doc : pdf_document) (x : xml)
    (fd : gmap string PyVal) :
  exists out k j params,
    _make_pdfa_compliant e (PdfBytes doc) x fd = Ok (PdfBytes out) /\
    doc_pages out = doc_pages doc /\
    (forall key, is_Some (dict_lookup key (doc_root out)) ->
       key = "/Type" \/ key = "/Metadata" \/ key = "/OutputIntents"
       \/ key = "/Names" \/ key = "/AF") /\
    dict_lookup "/Type" (doc_root out) = Some (NameObject "/Catalog") /\
    dict_lookup "/Names" (doc_root out)
      = Some (DictionaryObject
                [("/EmbeddedFiles",
                  DictionaryObject
                    [("/Names",
                      ArrayObject [TextStringObject "factur-x.xml"; IndirectObject k])])]) /\
    dict_lookup "/AF" (doc_root out) = Some (ArrayObject [IndirectObject k]) /\
    doc_objects out !! k
      = Some (DictionaryObject
                [("/Type", NameObject "/Filespec");
                 ("/F", TextStringObject "factur-x.xml");
                 ("/EF", DictionaryObject [("/F", IndirectObject j)]);
                 ("/Desc", TextStringObject "Factur-X Invoice");
                 ("/AFRelationship", NameObject "/Data")]) /\
    doc_objects out !! j = Some (StreamObject params (DataXml x)) /\
    embedded_files out = [StreamObject params (DataXml x)].
Proof.
  unfold _make_pdfa_compliant. simpl reader_pages.
  cbn [mbind result_bind bind]. rewrite fold_add_page. simpl.
  assert (Hkeys : forall (key : string) (P : Prop) (d : pdf_dict),
             (is_Some (dict_lookup key d) -> P) ->
             forall k0 v0, (key = k0 -> P) ->
             is_Some (dict_lookup key ((k0, v0) :: d)) -> P).
  { intros key P d Hd k0 v0 Hk. simpl.
    destruct (String.eqb_spec k0 key) as [->|]; intros H; auto. }
  destruct (icc_profile e) as [icc|]; simpl.
  - eexists _, 3%nat, 2%nat, _. split; [reflexivity|]. cbn [doc_root doc_pages doc_objects].
    split; [reflexivity|]. split.
    { intros key. repeat (apply Hkeys; [|intros ->; tauto]).
      simpl. intros [? [=]]. }
    repeat split; reflexivity.
  - eexists _, 2%nat, 1%nat, _. split; [reflexivity|]. cbn [doc_root doc_pages doc_objects].
    split; [reflexivity|]. split.
    { intros key. repeat (apply Hkeys; [|intros ->; tauto]).
      simpl. intros [? [=]]. }
    repeat split; reflexivity.
Qed.

(** C9, as the code has it: on a buffer that parses, the assembler returns
    a document with the pages of its input, as many, in the same order and
    unchanged.  Nothing else of the input is kept: the pages are added to a
    new writer, so the catalog of the output is the catalog of a new writer
    with the metadata, the output intent and the structures of the embedded
    and associated file, and the output is the same for every input with
    these pages, whatever its catalog and its other objects. *)
Theorem C9_assembler_keeps_pages (e : env) (doc : pdf_document) (x : xml)
    (fd : gmap string PyVal) :
  exists out,
    _make_pdfa_compliant e (PdfBytes doc) x fd = Ok (PdfBytes out) /\
    doc_pages out = doc_pages doc /\
    length (doc_pages out) = length (doc_pages doc) /\
    (forall key v, dict_lookup key new_catalog = Some v ->
       dict_lookup key (doc_root out) = Some v) /\
    (forall key, is_Some (dict_lookup key (doc_root out)) ->
       is_Some (dict_lookup key new_catalog) \/ key = "/Metadata"
       \/ key = "/OutputIntents" \/ key = "/Names" \/ key = "/AF") /\
    (forall doc', doc_pages doc' = doc_pages doc ->
       _make_pdfa_compliant e (PdfBytes doc') x fd = Ok (PdfBytes out)) /\
    length (doc_objects out) = match icc_profile e with Some _ => 4%nat | None => 3%nat end.
Proof.
  destruct (make_pdfa_compliant_parsed e doc x fd)
    as (out & k & j & params & H & Hp & Hkeys & Htype & _).
  exists out. split; [exact H|]. split; [exact Hp|]. split; [rewrite Hp; reflexivity|].
  split; [|split; [|split]].
  - intros key v. unfold new_catalog. cbn [dict_lookup].
    destruct (String.eqb_spec "/Type" key) as [<-|]; [|discriminate].
    intros [= <-]. exact Htype.
  - intros key Hk. destruct (Hkeys key Hk) as [->|Hr]; [|tauto].
    left. eexists. reflexivity.
  - intros doc' Hd. rewrite <- H. unfold _make_pdfa_compliant.
    cbn [reader_pages]. rewrite Hd. reflexivity.
  - clear - H. unfold _make_pdfa_compliant in H. cbn [reader_pages] in H.
    cbn [mbind result_bind bind] in H. rewrite fold_add_page in H.
    destruct (icc_profile e); cbn in H; injection H as <-; reflexivity.
Qed.

(** An input whose catalog names the page mode and which holds a document
    information dictionary: the pages are kept, and neither the entry of
    the catalog nor the dictionary is in the output. *)
Lemma C9_counterexample :
  exists out,
    _make_pdfa_compliant sample_env (PdfBytes rendered_document) empty_invoice sample_form
      = Ok (PdfBytes out) /\
    doc_pages out = doc_pages rendered_document /\
    dict_lookup "/PageMode" (doc_root rendered_document) = Some (NameObject "/UseNone") /\
    dict_lookup "/PageMode" (doc_root out) = None /\
    In info_dictionary (doc_objects rendered_document) /\
    ~ In info_dictionary (doc_objects out).
Proof.
  eexists. split; [vm_compute; reflexivity|].
  split; [reflexivity|]. split; [reflexivity|]. split; [reflexivity|].
  split; [left; reflexivity|].
  cbn [doc_objects In]. unfold info_dictionary. intros H.
  repeat (destruct H as [H|H]; [discriminate H|]). exact H.
Qed.

(** ** The pipeline *)

Lemma build_reportlab_pdf_parsed (e : env) (fd : gmap string PyVal)
    (items : list (gmap string PyVal)) (logo : option string) (buf : pdf_buffer) :
  _build_reportlab_pdf e fd items logo = Ok buf ->
  exists doc rows, buf = PdfBytes doc /\ table_data fd items = Ok rows.
Proof.
  unfold _build_reportlab_pdf. intros H. inv_bind H. inv_bind H.
  injection H as <-. eauto.
Qed.

Lemma generate_invoice_pdf_inv (e : env) (fd : gmap string PyVal)
    (items : list (gmap string PyVal)) (logo : option string) (buf : pdf_buffer) :
  generate_invoice_pdf e fd items logo = Ok buf ->
  exists doc rows x,
    _build_reportlab_pdf e fd items logo = Ok (PdfBytes doc) /\
    table_data fd items = Ok rows /\
    _generate_zugferd_xml e fd items = Ok x /\
    _make_pdfa_compliant e (PdfBytes doc) x fd = Ok buf.
Proof.
  unfold generate_invoice_pdf. intros H. inv_bind H. inv_bind H.
  destruct (build_reportlab_pdf_parsed _ _ _ _ _ Ha) as (doc & rows & -> & Hr).
  exists doc, rows, a0. auto.
Qed.

(** C7, as the code has it: a buffer returned by the pipeline holds exactly
    one embedded file; it is registered under the name factur-x.xml in the
    name tree of the embedded files and in the array of associated files,
    its data is the document of the serializer, and the GrandTotalAmount of
    that document is the gross total of the totals engine quantized to two
    places with the context's rounding. *)
Theorem C7_embedded_invoice (e : env) (fd : gmap string PyVal)
    (items : list (gmap string PyVal)) (logo : option string) (buf : pdf_buffer) :
  generate_invoice_pdf e fd items logo = Ok buf ->
  exists out x k j params net vat gross summary d,
    buf = PdfBytes out /\
    _generate_zugferd_xml e fd items = Ok x /\
    dict_lookup "/Names" (doc_root out)
      = Some (DictionaryObject
                [("/EmbeddedFiles",
                  DictionaryObject
                    [("/Names",
                      ArrayObject [TextStringObject "factur-x.xml"; IndirectObject k])])]) /\
    dict_lookup "/AF" (doc_root out) = Some (ArrayObject [IndirectObject k]) /\
    doc_objects out !! k
      = Some (DictionaryObject
                [("/Type", NameObject "/Filespec");
                 ("/F", TextStringObject "factur-x.xml");
                 ("/EF", DictionaryObject [("/F", IndirectObject j)]);
                 ("/Desc", TextStringObject "Factur-X Invoice");
                 ("/AFRelationship", NameObject "/Data")]) /\
    doc_objects out !! j = Some (StreamObject params (DataXml x)) /\
    embedded_files out = [StreamObject params (DataXml x)] /\
    _calculate_totals items (is_small_business_flag fd) = Ok (net, vat, gross, summary) /\
    quantize ROUND_HALF_EVEN gross TWO_PLACES = Ok d /\
    grand_total_amount x = Some (VStr (dec_str d)).
Proof.
  intros H.
  destruct (generate_invoice_pdf_inv _ _ _ _ _ H) as (doc & rows & x & _ & _ & Hx & Hm).
  destruct (make_pdfa_compliant_parsed e doc x fd)
    as (out & k & j & params & Hm' & _ & _ & _ & Hn & Haf & Hk & Hj & Hemb).
  rewrite Hm in Hm'. injection Hm' as ->.
  destruct (grand_total_amount_spec _ _ _ _ Hx) as (net & vat & gross & summary & d & Hc & Hq & Hg).
  exists out, x, k, j, params, net, vat, gross, summary, d.
  repeat split; assumption.
Qed.

Lemma C7_embedded_invoice_witness :
  exists buf,
    generate_invoice_pdf sample_env sample_form consulting None = Ok buf /\
    exists out x k j params net vat gross summary d,
      buf = PdfBytes out /\
      _generate_zugferd_xml sample_env sample_form consulting = Ok x /\
      dict_lookup "/Names" (doc_root out)
        = Some (DictionaryObject
                  [("/EmbeddedFiles",
                    DictionaryObject
                      [("/Names",
                        ArrayObject [TextStringObject "factur-x.xml"; IndirectObject k])])]) /\
      dict_lookup "/AF" (doc_root out) = Some (ArrayObject [IndirectObject k]) /\
      doc_objects out !! k
        = Some (DictionaryObject
                  [("/Type", NameObject "/Filespec");
                   ("/F", TextStringObject "factur-x.xml");
                   ("/EF", DictionaryObject [("/F", IndirectObject j)]);
                   ("/Desc", TextStringObject "Factur-X Invoice");
                   ("/AFRelationship", NameObject "/Data")]) /\
      doc_objects out !! j = Some (StreamObject params (DataXml x)) /\
      embedded_files out = [StreamObject params (DataXml x)] /\
      _calculate_totals consulting (is_small_business_flag sample_form)
        = Ok (net, vat, gross, summary) /\
      quantize ROUND_HALF_EVEN gross TWO_PLACES = Ok d /\
      grand_total_amount x = Some (VStr (dec_str d)).
Proof.
  eexists. split; [vm_compute; reflexivity|].
  apply (C7_embedded_invoice sample_env sample_form consulting None).
  vm_compute. reflexivity.
Defined.

(** Three units at 0.333 without VAT: the gross total is 0.999, and the
    GrandTotalAmount of the embedded document reads 1.00, another number. *)
Lemma C7_counterexample :
  exists out x net vat gross summary,
    generate_invoice_pdf sample_env sample_form [sample_item "Schraube" "3" "0.333" "0"] None
      = Ok (PdfBytes out) /\
    embedded_files out
      = [StreamObject
           [("/Type", NameObject "/EmbeddedFile"); ("/Subtype", NameObject "/text/xml");
            ("/Params",
             DictionaryObject [("/ModDate", TextStringObject "D:20240506101500+00'00'")])]
           (DataXml x)] /\
    _calculate_totals [sample_item "Schraube" "3" "0.333" "0"] false
      = Ok (net, vat, gross, summary) /\
    dec_str gross = "0.999" /\
    grand_total_amount x = Some (VStr "1.00") /\
    (total ← Decimal_of_str "1.00"; dec_eq total gross) = Ok false.
Proof.
  eexists _, _, _, _, _, _. split; [vm_compute; reflexivity|].
  split; [vm_compute; reflexivity|]. split; [vm_compute; reflexivity|].
  split; [vm_compute; reflexivity|]. split; vm_compute; reflexivity.
Qed.

(** ** Malformed and missing numeric fields *)




(** A numeric field that is absent, [None] or the empty string counts as 0. *)
Lemma item_decimal_missing (item : gmap string PyVal) (key : string) :
  item !! key = None \/ item !! key = Some VNone \/ item !! key = Some (VStr "") ->
  item_decimal item key = Ok (Finite false 0 0).
Proof.
  unfold item_decimal, dict_get_default. intros [-> | [-> | ->]]; reflexivity.
Qed.







(** C6: an invoice date that is present and empty.  The form has only this
    field and the one item has no field at all; the numeric fields count as
    zero and the table is built, and then the serializer raises
    [ValueError] on the date. *)
Theorem C6_empty_invoice_date (e : env) (logo : option string) :
  is_ok (table_data (<["invoice_date" := VStr ""]> ∅) [∅]) = true /\
  _generate_zugferd_xml e (<["invoice_date" := VStr ""]> ∅) [∅] = Raise ValueError /\
  generate_invoice_pdf e (<["invoice_date" := VStr ""]> ∅) [∅] logo = Raise ValueError.
Proof.
  split; [vm_compute; reflexivity|]. split; [reflexivity|].
  unfold generate_invoice_pdf.
  assert (H : exists buf, _build_reportlab_pdf e (<["invoice_date" := VStr ""]> ∅) [∅] logo = Ok buf).
  { unfold _build_reportlab_pdf.
    replace (table_data (<["invoice_date" := VStr ""]> ∅) [∅])
      with (Ok (match table_data (<["invoice_date" := VStr ""]> ∅) [∅] with
                | Ok r => r | Raise _ => [] end)) by (vm_compute; reflexivity).
    cbn [mbind result_bind bind].
    replace (_draw_header_and_footer e (<["invoice_date" := VStr ""]> ∅) logo)
      with (Ok (match _draw_header_and_footer e (<["invoice_date" := VStr ""]> ∅) logo with
                | Ok r => r
                | Raise _ => {| footer_notes := ""; footer_details := ""; logo_drawn := false;
                                receiver_address := ""; sender_line := ""; invoice_details := "" |}
                end)) by reflexivity.
    cbn [mbind result_bind bind]. eauto. }
  destruct H as [buf ->]. reflexivity.
Qed.

(** ** Totals of a small business *)

(** The VAT of a finite line at the forced rate 0.0: the rounded amount is
    a zero at two places, and adding it to a zero amount gives 0.00. *)
Lemma zero_rate_line_vat (s : bool) (c : N) (e ev : Z) :
  ev = -1 \/ ev = -2 ->
  (fraction ← dec_div Decimal_0_0 Decimal_100_0;
   line_vat ← dec_mul (Finite s c e) fraction;
   rounded ← quantize ROUND_HALF_UP line_vat TWO_PLACES;
   dec_add (Finite false 0 ev) rounded) = Ok (Finite false 0 (-2)).
Proof.
  intros Hev.
  change (dec_div Decimal_0_0 Decimal_100_0) with (Ok (Finite false 0 0)).
  cbn [mbind result_bind bind].
  unfold dec_mul. cbn [check_nans mbind result_bind bind].
  rewrite N.mul_0_r. unfold dec_fix at 1. cbn [N.eqb].
  cbn [mbind result_bind bind].
  unfold quantize, TWO_PLACES. cbn [check_nans mbind result_bind bind N.eqb].
  change (negb ((Etiny <=? -2) && (-2 <=? Emax))) with false. cbv iota.
  unfold dec_fix at 1. cbn [N.eqb mbind result_bind bind].
  change (Z.min (Z.max (-2) Etiny) Emax) with (-2).
  unfold dec_add. cbn [check_nans mbind result_bind bind N.eqb andb].
  unfold dec_fix. cbn [N.eqb]. f_equal. f_equal.
  unfold Etiny, Emax, Emin, prec. destruct Hev as [-> | ->]; reflexivity.
Qed.

Lemma update_bucket_zero_rate (f : bucket -> result bucket) (s s' : vat_summary) :
  update_bucket Decimal_0_0 f s = Ok s' ->
  (s = [] \/ exists b, s = [(Decimal_0_0, b)]) ->
  exists b b',
    s' = [(Decimal_0_0, b')] /\ f b = Ok b' /\
    (s = [] /\ b = {| basis := Decimal_0_0; vat := Decimal_0_0 |} \/ s = [(Decimal_0_0, b)]).
Proof.
  intros H [-> | [b ->]]; simpl in H.
  - inv_bind H. injection H as <-. eauto 10.
  - change (key_eqb Decimal_0_0 Decimal_0_0) with true in H. cbv iota in H.
    inv_bind H. injection H as <-. eauto 10.
Qed.

Lemma totals_step_small_business (st st' : decimal * vat_summary)
    (item : gmap string PyVal) :
  totals_step true st item = Ok st' ->
  (snd st = [] \/ exists b, snd st = [(Decimal_0_0, b)]) ->
  (exists b, snd st' = [(Decimal_0_0, b)]) /\
  (is_finite (fst st') = true -> is_finite (fst st) = true) /\
  (is_finite (fst st') = true -> zero_vat (snd st) -> zero_vat (snd st')).
Proof.
  unfold totals_step. intros H Hs.
  inv_bind H. inv_bind H. inv_bind H. inv_bind H. inv_bind H. inv_bind H. inv_bind H.
  injection H as <-. cbn [fst snd].
  match goal with Hx : effective_rate true item = Ok ?r |- _ =>
    injection Hx as <- end.
  match goal with Hx : update_bucket _ _ _ = Ok ?r |- _ =>
    destruct (update_bucket_zero_rate _ _ _ Hx Hs) as (b & b' & -> & Hf & Hb) end.
  split; [eauto|].
  match goal with Hx : dec_add (fst st) ?l = Ok ?n |- _ =>
    rename Hx into Hadd; rename l into line; rename n into net' end.
  split.
  { intros Hfin. exact (proj1 (dec_add_finite_inv _ _ _ Hadd Hfin)). }
  intros Hfin Hz.
  destruct (dec_add_finite_inv _ _ _ Hadd Hfin) as [_ Hline].
  destruct line as [ls lc le| | |]; try discriminate Hline.
  constructor; [|constructor]. cbn [snd].
  inv_bind Hf.
  assert (Hev : exists ev, vat b = Finite false 0 ev /\ (ev = -1 \/ ev = -2)).
  { destruct Hb as [[_ ->] | Hb].
    - exists (-1). split; [reflexivity|]. left. reflexivity.
    - rewrite Hb in Hz. inversion Hz as [|? ? Hv _]. cbn [snd] in Hv.
      exists (-2). split; [exact Hv|]. right. reflexivity. }
  destruct Hev as (ev & Hvb & Hev).
  pose proof (zero_rate_line_vat ls lc le ev Hev) as Hz'.
  rewrite Hvb in Hf.
  destruct (dec_div Decimal_0_0 Decimal_100_0) as [fraction|]; [|discriminate Hz'].
  cbn [mbind result_bind bind] in Hf, Hz'.
  destruct (dec_mul (Finite ls lc le) fraction) as [line_vat|]; [|discriminate Hz'].
  cbn [mbind result_bind bind] in Hf, Hz'.
  destruct (quantize ROUND_HALF_UP line_vat TWO_PLACES) as [rounded|]; [|discriminate Hz'].
  cbn [mbind result_bind bind] in Hf, Hz'.
  rewrite Hz' in Hf. cbn [mbind result_bind bind] in Hf.
  injection Hf as <-. reflexivity.
Qed.

Lemma totals_loop_small_business (items : list (gmap string PyVal))
    (st st' : decimal * vat_summary) :
  totals_loop true items st = Ok st' ->
  (snd st = [] \/ exists b, snd st = [(Decimal_0_0, b)]) ->
  (items = [] /\ st' = st \/ items <> [] /\ exists b, snd st' = [(Decimal_0_0, b)]) /\
  (is_finite (fst st') = true -> is_finite (fst st) = true) /\
  (is_finite (fst st') = true -> zero_vat (snd st) -> zero_vat (snd st')).
Proof.
  revert st. induction items as [|item rest IH]; intros st H Hs; simpl in H.
  - injection H as <-. split; [left; auto|]. split; auto.
  - inv_bind H.
    destruct (totals_step_small_business _ _ _ Ha Hs) as (Hb & Hfin & Hz).
    destruct (IH a H (or_intror Hb)) as (Hcase & Hfin' & Hz').
    split.
    + right. split; [discriminate|].
      destruct Hcase as [[_ ->] | [_ Hb']]; assumption.
    + split; [auto|]. intros Hf Hzv. apply Hz'; [exact Hf|]. apply Hz; auto.
Qed.

Lemma totals_step_same_amounts (st : decimal * vat_summary) (i1 i2 : gmap string PyVal) :
  same_amounts i1 i2 -> totals_step true st i1 = totals_step true st i2.
Proof.
  intros [Hq Hp]. unfold totals_step, item_decimal, dict_get_default, effective_rate.
  rewrite Hq, Hp. reflexivity.
Qed.

Lemma totals_loop_same_amounts (items items' : list (gmap string PyVal))
    (st : decimal * vat_summary) :
  Forall2 same_amounts items items' ->
  totals_loop true items st = totals_loop true items' st.
Proof.
  intros H. revert st. induction H as [|i1 i2 l1 l2 Hi _ IH]; intros st; simpl.
  - reflexivity.
  - rewrite (totals_step_same_amounts st i1 i2 Hi).
    destruct (totals_step true st i2); simpl; [apply IH | reflexivity].
Qed.

(** For a small business the summary has no bucket but that of the rate
    0.0. *)
Lemma small_business_summary_keys (items : list (gmap string PyVal))
    (net : decimal) (vat : PyVal) (gross : decimal) (summary : vat_summary) :
  _calculate_totals items true = Ok (net, vat, gross, summary) ->
  Forall (fun kv => fst kv = Decimal_0_0) summary.
Proof.
  intros H. apply calculate_totals_inv in H as (Hloop & _ & _).
  destruct (totals_loop_small_business _ _ _ Hloop (or_introl eq_refl))
    as (Hcase & _ & _). cbn [fst snd] in *.
  destruct Hcase as [[_ Heq] | [_ [b ->]]].
  - injection Heq as _ ->. constructor.
  - repeat constructor.
Qed.

(** C2, as the code has it: for a small business every item goes into the
    bucket of the rate 0.0, whatever rate it stores, so the summary has no
    other bucket (it has this one bucket as soon as there is an item, and
    is empty only for no item), no VAT row is shown, and, when the net
    total is a number, the VAT of the bucket and the total VAT are zero. *)
Theorem C2_small_business_totals (items : list (gmap string PyVal))
    (net : decimal) (vat : PyVal) (gross : decimal) (summary : vat_summary) :
  _calculate_totals items true = Ok (net, vat, gross, summary) ->
  Forall (fun kv => fst kv = Decimal_0_0) summary /\
  (items = [] -> summary = [] /\ vat = VInt 0) /\
  (items <> [] -> exists b, summary = [(Decimal_0_0, b)]) /\
  vat_rows true summary = Ok [] /\
  (is_finite net = true -> zero_vat summary /\ is_zero_total vat) /\
  (forall items', Forall2 same_amounts items items' ->
     _calculate_totals items' true = Ok (net, vat, gross, summary)).
Proof.
  intros H. pose proof H as H0.
  apply calculate_totals_inv in H as (Hloop & Hsum & Hadd).
  destruct (totals_loop_small_business _ _ _ Hloop (or_introl eq_refl))
    as (Hcase & _ & Hz). cbn [fst snd] in *.
  assert (Hshape : summary = [] \/ exists b, summary = [(Decimal_0_0, b)]).
  { destruct Hcase as [[_ Heq] | [_ Hb]]; [|auto].
    injection Heq as _ ->. auto. }
  split.
  { destruct Hshape as [-> | [b ->]]; repeat constructor. }
  split.
  { intros ->. destruct Hcase as [[_ Heq] | [Hne _]]; [|congruence].
    injection Heq as _ ->. simpl in Hsum. injection Hsum as <-. auto. }
  split.
  { intros Hne. destruct Hcase as [[-> _] | [_ Hb]]; [congruence | exact Hb]. }
  split; [reflexivity|].
  split.
  { intros Hfin. specialize (Hz Hfin (Forall_nil_2 _)). split; [exact Hz|].
    destruct Hshape as [-> | [b ->]].
    - simpl in Hsum. injection Hsum as <-. left. reflexivity.
    - inversion Hz as [|? ? Hv _]. cbn [snd] in Hv.
      simpl in Hsum. rewrite Hv in Hsum.
      change (dec_add (Finite false 0 (-2)) (Decimal_of_int 0))
        with (Ok (Finite false 0 (-2))) in Hsum.
      simpl in Hsum. injection Hsum as <-. right. reflexivity. }
  intros items' Hsame. rewrite <- H0. unfold _calculate_totals.
  rewrite (totals_loop_same_amounts items items' _ Hsame). reflexivity.
Qed.

Lemma C2_small_business_totals_witness :
  exists net vat gross summary,
    _calculate_totals consulting true = Ok (net, vat, gross, summary) /\
    Forall (fun kv => fst kv = Decimal_0_0) summary /\
    (consulting = [] -> summary = [] /\ vat = VInt 0) /\
    (consulting <> [] -> exists b, summary = [(Decimal_0_0, b)]) /\
    vat_rows true summary = Ok [] /\
    (is_finite net = true -> zero_vat summary /\ is_zero_total vat) /\
    (forall items', Forall2 same_amounts consulting items' ->
       _calculate_totals items' true = Ok (net, vat, gross, summary)).
Proof.
  eexists _, _, _, _. split; [vm_compute; reflexivity|].
  apply (C2_small_business_totals consulting). vm_compute. reflexivity.
Defined.

(** The example of the specification, two hours at 100.00 and 19 percent
    for a small business: the summary has the bucket of the rate 0.0. *)
Lemma C2_counterexample :
  exists net total_vat gross b,
    _calculate_totals consulting true = Ok (net, total_vat, gross, [(Decimal_0_0, b)]) /\
    dec_str (basis b) = "200.00" /\ dec_str (vat b) = "0.00" /\
    [(Decimal_0_0, b)] <> [].
Proof.
  eexists _, _, _, _. split; [vm_compute; reflexivity|].
  split; [vm_compute; reflexivity|]. split; [vm_compute; reflexivity|]. discriminate.
Qed.

(** ** Stripping and replacing *)

Lemma chars_app (a b : string) : PyStr.chars (a +:+ b) = PyStr.chars a ++ PyStr.chars b.
Proof. induction a as [|c a IH]; simpl; [reflexivity|]. rewrite IH. reflexivity. Qed.

Lemma str_app (a b : list ascii) : PyStr.str (a ++ b) = PyStr.str a +:+ PyStr.str b.
Proof. induction a as [|c a IH]; simpl; [reflexivity|]. rewrite IH. reflexivity. Qed.

Lemma str_chars (s : string) : PyStr.str (PyStr.chars s) = s.
Proof. apply string_of_list_ascii_of_string. Qed.

Lemma lstrip_app (a b : list ascii) :
  PyStr.lstrip (a ++ b)
  = match PyStr.lstrip a with [] => PyStr.lstrip b | x => x ++ b end.
Proof.
  induction a as [|c a IH]; simpl; [reflexivity|].
  destruct (PyStr.is_space c); [exact IH | reflexivity].
Qed.

(** Text that ends in a character that is no white space is kept by
    [rstrip], whatever follows it. *)
Lemma rstrip_app (p l : list ascii) :
  PyStr.lstrip (rev p) = rev p -> p <> [] ->
  PyStr.rstrip (p ++ l) = p ++ PyStr.rstrip l.
Proof.
  intros Hp Hne. unfold PyStr.rstrip. rewrite rev_app_distr, lstrip_app.
  destruct (PyStr.lstrip (rev l)) as [|x r] eqn:E.
  - rewrite Hp, rev_involutive. simpl. rewrite app_nil_r. reflexivity.
  - rewrite rev_app_distr, rev_involutive. reflexivity.
Qed.

Lemma replace_app (old : ascii) (new a b : list ascii) :
  PyStr.replace old new (a ++ b) = PyStr.replace old new a ++ PyStr.replace old new b.
Proof. apply flat_map_app. Qed.

(** ** The footer of a small business *)

Lemma footer_notes_disclaimer (fd : gmap string PyVal) (lines : list string) :
  is_small_business_flag fd = true ->
  footer_notes_of fd = Ok lines ->
  exists rest,
    lines = ["<b>Anmerkungen / Zahlungsbedingungen:</b><br/>" +:+ disclaimer_sentence +:+ rest].
Proof.
  intros Hflag. unfold footer_notes_of. rewrite Hflag. intros H. inv_bind H.
  unfold py_concat in Ha.
  destruct (dict_get_default fd "notes" (VStr "")) as [| | |n|]; try discriminate Ha.
  injection Ha as <-. inv_bind H. unfold py_strip in Ha. apply Ok_inj in Ha. subst a.
  assert (Hs : PyStr.strip (PyStr.chars (disclaimer +:+ n))
               = PyStr.chars disclaimer_sentence
                 ++ PyStr.rstrip (ascii_of_nat 10 :: PyStr.chars n)).
  { change disclaimer with (disclaimer_sentence +:+ String (ascii_of_nat 10) "").
    rewrite !chars_app. unfold PyStr.strip.
    change (PyStr.chars (String (ascii_of_nat 10) "")) with [ascii_of_nat 10].
    rewrite <- app_assoc. simpl ([ascii_of_nat 10] ++ _).
    replace (PyStr.lstrip (PyStr.chars disclaimer_sentence ++ ascii_of_nat 10 :: PyStr.chars n))
      with (PyStr.chars disclaimer_sentence ++ ascii_of_nat 10 :: PyStr.chars n)
      by reflexivity.
    apply rstrip_app; [vm_compute; reflexivity | discriminate]. }
  rewrite Hs in H. rewrite str_app, str_chars in H.
  match type of H with (if ?c then _ else _) = _ => replace c with true in H by reflexivity end.
  apply Ok_inj in H. subst lines.
  rewrite chars_app, replace_app.
  replace (PyStr.replace "010" (PyStr.chars "<br/>") (PyStr.chars disclaimer_sentence))
    with (PyStr.chars disclaimer_sentence) by (vm_compute; reflexivity).
  rewrite str_app, str_chars. eexists. reflexivity.
Qed.

Lemma same_reads_without_flag (fd : gmap string PyVal) :
  fd !! "is_small_business" <> Some (VStr "true") ->
  same_reads fd (delete "is_small_business" fd).
Proof.
  intros Hne. split.
  - rewrite is_small_business_flag_absent.
    destruct (is_small_business_flag fd) eqn:E; [|reflexivity].
    apply is_small_business_flag_true in E. contradiction.
  - intros k Hk. rewrite lookup_delete_ne by congruence. reflexivity.
Qed.

(** C10: the flag is on exactly when the field is the string "true".  With
    any other value the table, the page decoration, the XML document and
    the whole pipeline are what they are without the field; with "true" all
    rates are 0.0, the table has no VAT row and the footer starts with the
    disclaimer.  The boolean True and the strings "True" and "on" leave the
    flag off. *)
Theorem C10_flag_is_the_string_true (e : env) (fd : gmap string PyVal)
    (items : list (gmap string PyVal)) (logo : option string) :
  (is_small_business_flag fd = true <-> fd !! "is_small_business" = Some (VStr "true")) /\
  (fd !! "is_small_business" <> Some (VStr "true") ->
     is_small_business_flag fd = false /\
     table_data fd items = table_data (delete "is_small_business" fd) items /\
     _draw_header_and_footer e fd logo
       = _draw_header_and_footer e (delete "is_small_business" fd) logo /\
     _generate_zugferd_xml e fd items
       = _generate_zugferd_xml e (delete "is_small_business" fd) items /\
     generate_invoice_pdf e fd items logo
       = generate_invoice_pdf e (delete "is_small_business" fd) items logo) /\
  (fd !! "is_small_business" = Some (VStr "true") ->
     (forall rows, table_data fd items = Ok rows ->
        exists net vat gross summary irows,
          _calculate_totals items true = Ok (net, vat, gross, summary) /\
          Forall (fun kv => fst kv = Decimal_0_0) summary /\
          rows = header_row :: irows ++ [netto_row net; gesamt_row gross]) /\
     (forall deco, _draw_header_and_footer e fd logo = Ok deco ->
        exists rest,
          footer_notes deco
          = "<b>Anmerkungen / Zahlungsbedingungen:</b><br/>" +:+ disclaimer_sentence +:+ rest)) /\
  (forall v, v = VBool true \/ v = VStr "True" \/ v = VStr "on" ->
     is_small_business_flag (<["is_small_business" := v]> fd) = false).
Proof.
  split; [apply is_small_business_flag_true|].
  split.
  { intros Hne. pose proof (same_reads_without_flag fd Hne) as Hs.
    split.
    { destruct (is_small_business_flag fd) eqn:E; [|reflexivity].
      apply is_small_business_flag_true in E. contradiction. }
    split; [apply table_data_same, Hs|].
    split; [apply draw_header_and_footer_same, Hs|].
    split; [apply generate_zugferd_xml_same, Hs|].
    apply generate_invoice_pdf_same, Hs. }
  split.
  { intros Htrue. apply is_small_business_flag_true in Htrue. split.
    - intros rows H.
      destruct (table_data_inv _ _ _ H)
        as (net & vat & gross & summary & irows & vrows & Hc & _ & Hv & ->).
      rewrite Htrue in Hc, Hv. injection Hv as <-.
      exists net, vat, gross, summary, irows. split; [exact Hc|].
      split; [apply (small_business_summary_keys _ _ _ _ _ Hc) | reflexivity].
    - intros deco H. unfold _draw_header_and_footer in H. inv_bind H.
      injection H as <-. cbn [footer_notes].
      destruct (footer_notes_disclaimer fd a Htrue Ha) as [rest ->].
      exists rest. reflexivity. }
  intros v Hv. apply is_small_business_flag_other.
  destruct Hv as [-> | [-> | ->]]; discriminate.
Qed.

(** * Further properties of the code *)

(** ** An invoice without items *)

Lemma calculate_totals_nil (b : bool) :
  _calculate_totals [] b = Ok (Decimal_0_0, VInt 0, Decimal_0_0, []).
Proof. reflexivity. Qed.

Lemma generate_zugferd_xml_nil (e : env) (fd : gmap string PyVal) :
  _generate_zugferd_xml e fd [] =
    match strptime (dict_get_default fd "invoice_date" (VStr (today e))) with
    | Ok _ => Raise AttributeError
    | Raise err => Raise err
    end.
Proof.
  unfold _generate_zugferd_xml.
  destruct (strptime _) as [d | err]; reflexivity.
Qed.

(** X1: no document is ever produced for an invoice without items.  The sum
    of the VAT amounts of an empty summary is the integer 0, which has no
    [quantize]: the serializer raises [AttributeError] as soon as the
    invoice date is accepted, and the error of the date otherwise, so the
    pipeline raises for every form, environment and logo. *)
Theorem no_items_no_document (e : env) (fd : gmap string PyVal) (logo : option string) :
  _generate_zugferd_xml e fd [] =
    match strptime (dict_get_default fd "invoice_date" (VStr (today e))) with
    | Ok _ => Raise AttributeError
    | Raise err => Raise err
    end
  /\ is_ok (generate_invoice_pdf e fd [] logo) = false.
Proof.
  pose proof (generate_zugferd_xml_nil e fd) as Hxml.
  split; [exact Hxml|].
  unfold generate_invoice_pdf.
  destruct (_build_reportlab_pdf e fd [] logo) as [buf | err]; [|reflexivity].
  cbn. rewrite Hxml. destruct (strptime _); reflexivity.
Qed.

(** ** The rows of the items *)

Lemma item_rows_descriptions (b : bool) (items : list (gmap string PyVal)) (rows : list row) :
  item_rows b items = Ok rows -> map head rows = map (fun item => Some (description_cell item)) items.
Proof.
  revert rows. induction items as [|item rest IH]; intros rows H; simpl in H.
  - injection H as <-. reflexivity.
  - inv_bind H. inv_bind H. injection H as <-. simpl. f_equal; [|apply IH; assumption].
    match goal with Hx : item_row _ _ = Ok _ |- _ => unfold item_row in Hx; repeat inv_bind Hx;
      injection Hx as <- end.
    reflexivity.
Qed.

(** ** The keys of the summary *)

Lemma distinct_keys_snoc (l : list decimal) (x : decimal) :
  distinct_keys l -> Forall (fun k => key_eqb k x = false) l -> distinct_keys (l ++ [x]).
Proof.
  induction l as [|k r IH]; simpl; intros Hd Hx.
  - split; [constructor | exact I].
  - destruct Hd as [Hk Hr]. inversion Hx as [|? ? Hkx Hrx]; subst. split.
    + apply Forall_app. split; [exact Hk | constructor; [exact Hkx | constructor]].
    + apply IH; assumption.
Qed.

Lemma update_bucket_rates (rate : decimal) (f : bucket -> result bucket)
    (s s' : vat_summary) :
  update_bucket rate f s = Ok s' ->
  rates s' = rates s \/
  rates s' = rates s ++ [rate] /\ Forall (fun k => key_eqb k rate = false) (rates s).
Proof.
  revert s'. induction s as [|[k b] r IH]; intros s' H; simpl in H.
  - inv_bind H. injection H as <-. right. split; [reflexivity | constructor].
  - destruct (key_eqb k rate) eqn:Ek.
    + inv_bind H. injection H as <-. left. reflexivity.
    + inv_bind H. injection H as <-.
      match goal with Hx : update_bucket _ _ _ = Ok _ |- _ =>
        destruct (IH _ Hx) as [Hr | [Hr Hall]] end.
      * left. unfold rates in *. simpl. f_equal. exact Hr.
      * right. unfold rates in *. simpl. split; [f_equal; exact Hr|].
        constructor; assumption.
Qed.

Lemma totals_step_rates (b : bool) (st st' : decimal * vat_summary)
    (item : gmap string PyVal) :
  totals_step b st item = Ok st' ->
  exists rate, effective_rate b item = Ok rate /\
    (rates (snd st') = rates (snd st) \/
     rates (snd st') = rates (snd st) ++ [rate] /\
     Forall (fun k => key_eqb k rate = false) (rates (snd st))).
Proof.
  unfold totals_step. intros H.
  inv_bind H. inv_bind H. inv_bind H. inv_bind H. inv_bind H. inv_bind H. inv_bind H.
  injection H as <-. cbn [snd].
  match goal with Hx : effective_rate _ _ = Ok ?r |- _ => exists r; split; [exact Hx|] end.
  eapply update_bucket_rates; eassumption.
Qed.

Lemma totals_loop_rates (b : bool) (items : list (gmap string PyVal))
    (st st' : decimal * vat_summary) :
  totals_loop b items st = Ok st' ->
  distinct_keys (rates (snd st)) ->
  exists new,
    rates (snd st') = rates (snd st) ++ new /\
    distinct_keys (rates (snd st')) /\
    (length new <= length items)%nat /\
    Forall (fun k => exists item, In item items /\ effective_rate b item = Ok k) new.
Proof.
  revert st. induction items as [|item rest IH]; intros st H Hd; simpl in H.
  - injection H as <-. exists []. rewrite app_nil_r.
    split; [reflexivity|]. split; [exact Hd|]. split; [reflexivity | constructor].
  - inv_bind H.
    match goal with Hx : totals_step _ _ _ = Ok ?a |- _ =>
      destruct (totals_step_rates _ _ _ _ Hx) as (rate & Hrate & Hcase); rename a into st1 end.
    assert (Hd1 : distinct_keys (rates (snd st1))).
    { destruct Hcase as [-> | [-> Hall]]; [exact Hd | apply distinct_keys_snoc; assumption]. }
    destruct (IH st1 H Hd1) as (new & Hnew & Hd' & Hlen & Hin).
    assert (Hin' : Forall (fun k => exists item0, In item0 (item :: rest) /\
                                     effective_rate b item0 = Ok k) new).
    { eapply Forall_impl; [exact Hin|]. intros k (i & Hi & Hk). exists i. split; [right; exact Hi | exact Hk]. }
    destruct Hcase as [Hsame | [Hsnoc _]].
    + exists new. rewrite Hnew, Hsame. split; [reflexivity|]. split; [rewrite <- Hsame, <- Hnew; exact Hd'|].
      split; [simpl; lia | exact Hin'].
    + exists (rate :: new). rewrite Hnew, Hsnoc, <- app_assoc. split; [reflexivity|].
      split; [rewrite (app_assoc _ [rate] new), <- Hsnoc, <- Hnew; exact Hd'|].
      split; [simpl; lia|].
      constructor; [|exact Hin']. exists item. split; [left; reflexivity | exact Hrate].
Qed.

(** X2: the summary is a dict keyed by the rate: no two of its buckets have
    equal rates, it has at most one bucket per item, and the rate of every
    bucket is the effective rate of one of the items. *)
Theorem summary_keys (items : list (gmap string PyVal)) (b : bool)
    (net : decimal) (total_vat : PyVal) (gross : decimal) (summary : vat_summary) :
  _calculate_totals items b = Ok (net, total_vat, gross, summary) ->
  distinct_keys (rates summary) /\
  (length summary <= length items)%nat /\
  Forall (fun k => exists item, In item items /\ effective_rate b item = Ok k) (rates summary).
Proof.
  intros H. apply calculate_totals_inv in H as (Hloop & _ & _).
  destruct (totals_loop_rates _ _ _ _ Hloop I) as (new & Hnew & Hd & Hlen & Hin).
  change (rates summary = new) in Hnew. split; [exact Hd|].
  assert (Hl : length summary = length new).
  { rewrite <- Hnew. unfold rates. symmetry. apply List.length_map. }
  rewrite Hl, Hnew. split; [exact Hlen | exact Hin].
Qed.

Lemma summary_keys_witness :
  exists net total_vat gross summary,
    _calculate_totals consulting false = Ok (net, total_vat, gross, summary) /\
    distinct_keys (rates summary) /\
    (length summary <= length consulting)%nat /\
    Forall (fun k => exists item, In item consulting /\ effective_rate false item = Ok k)
      (rates summary).
Proof.
  eexists _, _, _, _. split; [vm_compute; reflexivity|].
  eapply (summary_keys consulting false). vm_compute. reflexivity.
Defined.

(** X3: the table has the header row, one row for every item, in the order
    of the items and starting with the description of the item as it is,
    then the row of the net total, at most one VAT row per item, and the row
    of the gross total. *)
Theorem table_rows (fd : gmap string PyVal) (items : list (gmap string PyVal))
    (rows : list row) :
  table_data fd items = Ok rows ->
  exists irows net vrows gross,
    rows = header_row :: irows ++ netto_row net :: vrows ++ [gesamt_row gross] /\
    map head irows = map (fun item => Some (description_cell item)) items /\
    (length vrows <= length items)%nat.
Proof.
  intros H.
  destruct (table_data_inv _ _ _ H) as (net & tv & gross & summary & irows & vrows & Hc & Hi & Hv & ->).
  exists irows, net, vrows, gross. split; [reflexivity|].
  split; [eapply item_rows_descriptions, Hi|].
  destruct (summary_keys _ _ _ _ _ _ Hc) as (_ & Hlen & _).
  unfold vat_rows in Hv. destruct (is_small_business_flag fd).
  - injection Hv as <-. simpl. lia.
  - inv_bind Hv.
    match goal with Hx : sorted_items _ = Ok _ |- _ => apply sorted_items_perm in Hx as Hperm end.
    apply vat_rows_of_filter in Hv. subst vrows.
    rewrite List.length_map.
    etransitivity; [apply length_filter|].
    rewrite <- Hperm. exact Hlen.
Qed.

Lemma table_rows_witness :
  exists rows irows net vrows gross,
    table_data sample_form consulting = Ok rows /\
    rows = header_row :: irows ++ netto_row net :: vrows ++ [gesamt_row gross] /\
    map head irows = map (fun item => Some (description_cell item)) consulting /\
    (length vrows <= length consulting)%nat.
Proof.
  destruct (table_data sample_form consulting) as [rows|] eqn:E; [|vm_compute in E; discriminate E].
  exists rows.
  destruct (table_rows sample_form consulting rows E) as (irows & net & vrows & gross & H).
  exists irows, net, vrows, gross. split; [reflexivity | exact H].
Defined.

(** ** The line items and the tax entries of the trade document *)

Lemma filter_tag_all (t : string) (l : list xml) :
  Forall (fun c => tag_of c = t) l ->
  filter (fun c => has_tag t c = true) l = l.
Proof.
  induction 1 as [|c l Hc _ IH]; [reflexivity|].
  rewrite filter_cons_True; [f_equal; exact IH|].
  unfold has_tag. rewrite Hc. apply String.eqb_refl.
Qed.

Lemma filter_tag_none (t : string) (l : list xml) :
  Forall (fun c => has_tag t c = false) l ->
  filter (fun c => has_tag t c = true) l = [].
Proof.
  induction 1 as [|c l Hc _ IH]; [reflexivity|].
  rewrite filter_cons_False by congruence. exact IH.
Qed.

(** The shape of the document: the transaction holds the line items, the
    trade agreement and the settlement; the settlement holds the currency,
    the payment means if any, the tax entries and the summation. *)
Lemma generate_zugferd_xml_shape (e : env) (fd : gmap string PyVal)
    (items : list (gmap string PyVal)) (x : xml) :
  _generate_zugferd_xml e fd items = Ok x ->
  exists net vat gross summary lines taxes agreement pre summ,
    _calculate_totals items (is_small_business_flag fd) = Ok (net, vat, gross, summary) /\
    line_items (is_small_business_flag fd) 1 items = Ok lines /\
    trade_taxes summary = Ok taxes /\
    find_child (rsm "SupplyChainTradeTransaction") x =
      Some (node (rsm "SupplyChainTradeTransaction")
              (lines ++ [agreement;
                         node (ram "ApplicableHeaderTradeSettlement") (pre ++ taxes ++ [summ])])) /\
    has_tag (ram "IncludedSupplyChainTradeLineItem") agreement = false /\
    tag_of agreement = ram "ApplicableHeaderTradeAgreement" /\
    Forall (fun c => has_tag (ram "ApplicableTradeTax") c = false) pre /\
    has_tag (ram "ApplicableTradeTax") summ = false.
Proof.
  unfold _generate_zugferd_xml. intros H. inv_bind H. inv_bind H.
  destruct a0 as [[[net vat] gross] summary].
  inv_bind H. inv_bind H. inv_bind H.
  unfold tostring in H.
  match type of H with (if ?c then _ else _) = _ => destruct c; [|discriminate H] end.
  apply Ok_inj in H. subst x.
  match goal with Hx : _calculate_totals _ _ = Ok _ |- _ => rename Hx into Hcalc end.
  match goal with Hx : line_items _ _ _ = Ok ?l |- _ => rename Hx into Hlines; rename l into lines end.
  match goal with Hx : trade_taxes _ = Ok ?l |- _ => rename Hx into Htaxes; rename l into taxes end.
  match goal with Hx : header_summation _ _ _ = Ok ?l |- _ =>
    rename Hx into Hsum; rename l into summ end.
  destruct (header_summation_inv _ _ _ _ Hsum) as (q & _ & Htag & _).
  lazymatch goal with
  | |- context [lines ++ [?agr; node _ (?p1 ++ ?p2 ++ taxes ++ [summ])]] =>
      exists net, vat, gross, summary, lines, taxes, agr, (p1 ++ p2), summ
  end.
  split; [exact Hcalc|]. split; [exact Hlines|]. split; [exact Htaxes|].
  split.
  { unfold find_child. cbn [children_of node find tag_of].
    change (String.eqb (rsm "ExchangedDocumentContext") (rsm "SupplyChainTradeTransaction")) with false.
    change (String.eqb (rsm "ExchangedDocument") (rsm "SupplyChainTradeTransaction")) with false.
    change (String.eqb (rsm "SupplyChainTradeTransaction") (rsm "SupplyChainTradeTransaction")) with true.
    cbv iota.
    match goal with |- context [(?p1 ++ ?p2) ++ taxes ++ [summ]] =>
      rewrite <- (app_assoc p1 p2 (taxes ++ [summ])) end.
    reflexivity. }
  split; [reflexivity|]. split; [reflexivity|].
  split.
  { apply Forall_app. split; [repeat constructor|].
    destruct (truthy (dict_get fd "sender_iban")); repeat constructor. }
  unfold has_tag. rewrite Htag. reflexivity.
Qed.

Lemma line_item_elements_spec (e : env) (fd : gmap string PyVal)
    (items : list (gmap string PyVal)) (x : xml) :
  _generate_zugferd_xml e fd items = Ok x ->
  line_items (is_small_business_flag fd) 1 items = Ok (line_item_elements x).
Proof.
  intros H.
  destruct (generate_zugferd_xml_shape _ _ _ _ H)
    as (net & vat & gross & summary & lines & taxes & agreement & pre & summ &
        _ & Hlines & _ & Hfind & Hagr & _ & _ & _).
  unfold line_item_elements. rewrite Hfind. cbn [children_of node].
  rewrite filter_app, (filter_tag_all _ lines) by (eapply line_items_tags, Hlines).
  rewrite filter_cons_False by (rewrite Hagr; discriminate).
  rewrite filter_cons_False by discriminate.
  rewrite filter_nil, app_nil_r. exact Hlines.
Qed.

Lemma header_tax_elements_spec (e : env) (fd : gmap string PyVal)
    (items : list (gmap string PyVal)) (x : xml) :
  _generate_zugferd_xml e fd items = Ok x ->
  exists net vat gross summary,
    _calculate_totals items (is_small_business_flag fd) = Ok (net, vat, gross, summary) /\
    trade_taxes summary = Ok (header_tax_elements x).
Proof.
  intros H.
  destruct (generate_zugferd_xml_shape _ _ _ _ H)
    as (net & vat & gross & summary & lines & taxes & agreement & pre & summ &
        Hcalc & Hlines & Htaxes & Hfind & _ & Hagr & Hpre & Hsumm).
  exists net, vat, gross, summary. split; [exact Hcalc|].
  unfold header_tax_elements. cbn [find_path]. rewrite Hfind.
  unfold find_child. cbn [children_of node].
  rewrite find_skip.
  2:{ eapply Forall_impl; [eapply line_items_tags, Hlines|]. intros c ->. reflexivity. }
  cbn [find]. rewrite Hagr.
  change (String.eqb (ram "ApplicableHeaderTradeAgreement") (ram "ApplicableHeaderTradeSettlement")) with false.
  cbv iota. cbn [tag_of node].
  change (String.eqb (ram "ApplicableHeaderTradeSettlement") (ram "ApplicableHeaderTradeSettlement")) with true.
  cbv iota. cbn [children_of node].
  rewrite !filter_app, (filter_tag_none _ pre Hpre).
  rewrite (filter_tag_all _ taxes) by (eapply trade_taxes_tags, Htaxes).
  rewrite filter_cons_False by congruence.
  rewrite filter_nil, app_nil_r. exact Htaxes.
Qed.

Lemma line_items_ids (b : bool) (i : nat) (items : list (gmap string PyVal)) (l : list xml) :
  line_items b i items = Ok l ->
  map line_id l = map (fun k => Some (VStr (str_of_nat k))) (seq i (length items)) /\
  map product_name l =
    map (fun item => Some (dict_get_default item "description" (VStr "Beschreibung"))) items.
Proof.
  revert i l. induction items as [|item rest IH]; intros i l H; simpl in H.
  - injection H as <-. split; reflexivity.
  - inv_bind H. inv_bind H. apply Ok_inj in H. subst l.
    match goal with Hx : line_items _ _ _ = Ok _ |- _ => destruct (IH _ _ Hx) as [IH1 IH2] end.
    match goal with Hx : line_item _ _ _ = Ok _ |- _ =>
      unfold line_item in Hx; repeat inv_bind Hx; apply Ok_inj in Hx; subst end.
    split; cbn [map seq length]; (f_equal; first [assumption | reflexivity]).
Qed.

(** X4: the trade document has one line item for every item, in the order
    of the items; their line numbers count from 1, and the product name of
    each is the description of its item (Beschreibung if it has none). *)
Theorem line_items_numbered (e : env) (fd : gmap string PyVal)
    (items : list (gmap string PyVal)) (x : xml) :
  _generate_zugferd_xml e fd items = Ok x ->
  map line_id (line_item_elements x) =
    map (fun k => Some (VStr (str_of_nat k))) (seq 1 (length items)) /\
  map product_name (line_item_elements x) =
    map (fun item => Some (dict_get_default item "description" (VStr "Beschreibung"))) items.
Proof.
  intros H. eapply line_items_ids, line_item_elements_spec, H.
Qed.

Lemma line_items_numbered_witness :
  exists x,
    _generate_zugferd_xml sample_env sample_form consulting = Ok x /\
    map line_id (line_item_elements x) =
      map (fun k => Some (VStr (str_of_nat k))) (seq 1 (length consulting)) /\
    map product_name (line_item_elements x) =
      map (fun item => Some (dict_get_default item "description" (VStr "Beschreibung")))
        consulting.
Proof.
  eexists. split; [vm_compute; reflexivity|].
  apply (line_items_numbered sample_env sample_form consulting). vm_compute. reflexivity.
Defined.

(** ** The tax entries of a small business *)

Lemma line_items_small_business (i : nat) (items : list (gmap string PyVal)) (l : list xml) :
  line_items true i items = Ok l ->
  Forall (fun li => exists t, line_tax li = Some t /\ exempt_tax t) l.
Proof.
  revert i l. induction items as [|item rest IH]; intros i l H; simpl in H.
  - injection H as <-. constructor.
  - inv_bind H. inv_bind H. apply Ok_inj in H. subst l.
    constructor; [|eapply IH; eassumption].
    match goal with Hx : line_item _ _ _ = Ok _ |- _ =>
      unfold line_item in Hx; inv_bind Hx; inv_bind Hx; inv_bind Hx end.
    match goal with Hx : effective_rate true item = Ok _ |- _ => apply Ok_inj in Hx; subst end.
    match goal with Hx : (_ ← dec_mul _ _; _) = Ok _ |- _ =>
      inv_bind Hx; inv_bind Hx; inv_bind Hx; inv_bind Hx; inv_bind Hx; inv_bind Hx; inv_bind Hx;
      apply Ok_inj in Hx; subst end.
    match goal with Hx : _get_tax_category_code _ = Ok _ |- _ =>
      vm_compute in Hx; apply Ok_inj in Hx; subst end.
    match goal with Hx : quantized_text Decimal_0_0 TWO_PLACES = Ok _ |- _ =>
      vm_compute in Hx; apply Ok_inj in Hx; subst end.
    eexists. split; [reflexivity|]. repeat split.
Qed.

Lemma trade_tax_zero_rate (b : bucket) (t : xml) :
  trade_tax (Decimal_0_0, b) = Ok t -> exempt_tax t.
Proof.
  unfold trade_tax. cbn [fst snd]. intros H. inv_bind H. inv_bind H. inv_bind H.
  match goal with Hx : quantize ROUND_HALF_EVEN Decimal_0_0 TWO_PLACES = Ok _ |- _ =>
    vm_compute in Hx; apply Ok_inj in Hx; subst end.
  inv_bind H.
  match goal with Hx : _get_tax_category_code _ = Ok _ |- _ =>
    vm_compute in Hx; apply Ok_inj in Hx; subst end.
  apply Ok_inj in H. subst t. repeat split.
Qed.

(** X5: in the trade document of a small business every line item carries
    the tax category O with the exemption reason VATEX-EU-DE and the rate
    0.00, whatever rates the items store, and the settlement has exactly
    one tax entry, which is of the same kind. *)
Theorem small_business_tax_entries (e : env) (fd : gmap string PyVal)
    (items : list (gmap string PyVal)) (x : xml) :
  is_small_business_flag fd = true ->
  _generate_zugferd_xml e fd items = Ok x ->
  Forall (fun li => exists t, line_tax li = Some t /\ exempt_tax t) (line_item_elements x) /\
  exists t, header_tax_elements x = [t] /\ exempt_tax t.
Proof.
  intros Hflag H. split.
  - pose proof (line_item_elements_spec _ _ _ _ H) as Hl. rewrite Hflag in Hl.
    eapply line_items_small_business, Hl.
  - destruct (header_tax_elements_spec _ _ _ _ H) as (net & vat & gross & summary & Hc & Ht).
    rewrite Hflag in Hc. apply calculate_totals_inv in Hc as (Hloop & _ & _).
    destruct (totals_loop_small_business _ _ _ Hloop (or_introl eq_refl)) as (Hcase & _ & _).
    cbn [snd] in Hcase. destruct Hcase as [[-> _] | [_ [b ->]]].
    + rewrite generate_zugferd_xml_nil in H. destruct (strptime _); discriminate H.
    + simpl in Ht. inv_bind Ht. apply Ok_inj in Ht.
      eexists. split; [symmetry; exact Ht|]. eapply trade_tax_zero_rate. eassumption.
Qed.

Lemma small_business_tax_entries_witness :
  exists x,
    _generate_zugferd_xml sample_env small_business_form consulting = Ok x /\
    Forall (fun li => exists t, line_tax li = Some t /\ exempt_tax t) (line_item_elements x) /\
    exists t, header_tax_elements x = [t] /\ exempt_tax t.
Proof.
  eexists. split; [vm_compute; reflexivity|].
  apply (small_business_tax_entries sample_env small_business_form consulting);
    vm_compute; reflexivity.
Defined.

(** ** Decimals and their strings *)

Lemma N_of_digits_fold (l : list ascii) : N_of_digits l = fold_left digit_step l 0%N.
Proof. reflexivity. Qed.

Lemma fold_digits_shift (l : list ascii) (a : N) :
  fold_left digit_step l a = (a * 10 ^ N.of_nat (length l) + fold_left digit_step l 0)%N.
Proof.
  revert a. induction l as [|d l IH]; intros a.
  - simpl. lia.
  - cbn [fold_left length]. rewrite (IH (digit_step a d)), (IH (digit_step 0 d)).
    rewrite Nat2N.inj_succ, N.pow_succ_r'. unfold digit_step. lia.
Qed.

Lemma N_of_digits_app (l1 l2 : list ascii) :
  N_of_digits (l1 ++ l2) = (N_of_digits l1 * 10 ^ N.of_nat (length l2) + N_of_digits l2)%N.
Proof.
  rewrite !N_of_digits_fold, fold_left_app. apply fold_digits_shift.
Qed.

Lemma digit_char_spec (c : N) :
  (c < 10)%N -> is_digit (digit_char c) = true /\ digit_val (digit_char c) = c.
Proof.
  intros H.
  assert (Hc : c = 0%N \/ c = 1%N \/ c = 2%N \/ c = 3%N \/ c = 4%N \/ c = 5%N \/
               c = 6%N \/ c = 7%N \/ c = 8%N \/ c = 9%N) by lia.
  repeat (destruct Hc as [-> | Hc]; [split; reflexivity|]). subst c. split; reflexivity.
Qed.

Lemma digits_fuel_spec (fuel : nat) (c : N) (acc : list ascii) :
  (c < 2 ^ N.of_nat fuel)%N ->
  exists ds,
    digits_fuel fuel c acc = ds ++ acc /\ ds <> [] /\
    Forall (fun a => is_digit a = true) ds /\ N_of_digits ds = c.
Proof.
  revert c acc. induction fuel as [|fuel IH]; intros c acc Hc.
  - simpl in Hc. assert (c = 0%N) by lia. subst c.
    exists ["0"%char]. repeat split; [discriminate | repeat constructor].
  - cbn [digits_fuel]. destruct (N.ltb_spec c 10) as [Hlt | Hge].
    + destruct (digit_char_spec c Hlt) as [Hd Hv].
      exists [digit_char c]. split; [reflexivity|]. split; [discriminate|].
      split; [repeat constructor; exact Hd|].
      unfold N_of_digits. simpl. rewrite Hv. lia.
    + assert (Hdiv : (c / 10 < 2 ^ N.of_nat fuel)%N).
      { rewrite Nat2N.inj_succ, N.pow_succ_r' in Hc.
        apply N.Div0.div_lt_upper_bound. lia. }
      destruct (IH (c / 10)%N (digit_char (c mod 10) :: acc) Hdiv) as (ds & Hds & Hne & Hall & Hval).
      pose proof (N.mod_lt c 10 ltac:(lia)) as Hm.
      destruct (digit_char_spec (c mod 10) Hm) as [Hd Hv].
      exists (ds ++ [digit_char (c mod 10)]). rewrite <- app_assoc. split; [exact Hds|].
      split; [destruct ds; discriminate|].
      split; [apply Forall_app; split; [exact Hall | repeat constructor; exact Hd]|].
      rewrite N_of_digits_app, Hval. unfold N_of_digits. simpl. rewrite Hv.
      pose proof (N.div_mod c 10 ltac:(lia)). lia.
Qed.

(** [int(str(c)) == c], and [str(c)] is a non-empty string of digits. *)
Lemma digits_spec (c : N) :
  digits c <> [] /\ Forall (fun a => is_digit a = true) (digits c) /\
  N_of_digits (digits c) = c.
Proof.
  unfold digits.
  destruct (digits_fuel_spec (N.to_nat (N.size c)) c []) as (ds & Hds & Hne & Hall & Hval).
  { rewrite N2Nat.id. apply N.size_gt. }
  rewrite Hds, app_nil_r. auto.
Qed.

Lemma zeros_digits (k : Z) : Forall (fun a => is_digit a = true) (PyStr.zeros k).
Proof.
  unfold PyStr.zeros. induction (Z.to_nat k) as [|n IH]; simpl; constructor; [reflexivity | exact IH].
Qed.

Lemma N_of_digits_zeros (k : Z) : N_of_digits (PyStr.zeros k) = 0%N.
Proof.
  unfold PyStr.zeros. induction (Z.to_nat k) as [|n IH]; [reflexivity|].
  change (repeat "0"%char (S n)) with (["0"%char] ++ repeat "0"%char n).
  rewrite N_of_digits_app, IH. reflexivity.
Qed.

Lemma length_zeros (k : Z) : length (PyStr.zeros k) = Z.to_nat k.
Proof. apply repeat_length. Qed.

Lemma span_digits (ds rest : list ascii) :
  Forall (fun a => is_digit a = true) ds ->
  match rest with [] => True | a :: _ => is_digit a = false end ->
  PyStr.span is_digit (ds ++ rest) = (ds, rest).
Proof.
  intros Hds Hrest. induction Hds as [|d ds Hd _ IH]; simpl.
  - destruct rest as [|a r]; [reflexivity|]. simpl. rewrite Hrest. reflexivity.
  - rewrite Hd, IH. reflexivity.
Qed.

Lemma is_digit_cases (a : ascii) :
  is_digit a = true ->
  a = "0"%char \/ a = "1"%char \/ a = "2"%char \/ a = "3"%char \/ a = "4"%char \/
  a = "5"%char \/ a = "6"%char \/ a = "7"%char \/ a = "8"%char \/ a = "9"%char.
Proof.
  destruct a as [[] [] [] [] [] [] [] []]; intros H; try discriminate H; tauto.
Qed.

Ltac digit_cases a H :=
  let Hc := fresh in
  pose proof (is_digit_cases a H) as Hc;
  repeat (destruct Hc as [-> | Hc]); [.. | subst a].

Lemma parse_sign_digit (d : ascii) (r : list ascii) :
  is_digit d = true -> parse_sign (d :: r) = (false, d :: r).
Proof. intros H. digit_cases d H; reflexivity. Qed.

Lemma lower_digit (d : ascii) : is_digit d = true -> PyStr.lower d = d.
Proof. intros H. digit_cases d H; reflexivity. Qed.

Lemma map_lower_digits (ds : list ascii) :
  Forall (fun a => is_digit a = true) ds -> map PyStr.lower ds = ds.
Proof.
  induction 1 as [|d ds Hd _ IH]; [reflexivity|]. simpl. rewrite (lower_digit d Hd), IH. reflexivity.
Qed.

Lemma parse_exponent_signed (n : Z) :
  parse_exponent (PyStr.str_of_Z_signed n) = Some n.
Proof.
  unfold parse_exponent, PyStr.str_of_Z_signed.
  destruct (digits_spec (Z.abs_N n)) as (Hne & Hall & Hval).
  assert (Hs : parse_sign ((if n <? 0 then "-"%char else "+"%char) :: digits (Z.abs_N n))
               = (n <? 0, digits (Z.abs_N n))) by (destruct (n <? 0); reflexivity).
  rewrite Hs.
  rewrite <- (app_nil_r (digits (Z.abs_N n))) at 1.
  rewrite span_digits by (exact Hall || exact I).
  destruct (digits (Z.abs_N n)) as [|d ds] eqn:E; [congruence|].
  rewrite Hval. f_equal. destruct (Z.ltb_spec n 0); lia.
Qed.

(** The grammar reads back what [str] writes for a finite number. *)
Lemma parse_decimal_written (s dot : bool) (ip fp : list ascii) (ex : option Z) :
  ip <> [] ->
  Forall (fun a => is_digit a = true) ip ->
  Forall (fun a => is_digit a = true) fp ->
  (dot = false -> fp = []) ->
  parse_decimal (sign_chars s ++ ip ++ frac_chars dot fp ++ exp_chars ex)
  = Some (Finite s (N_of_digits (ip ++ fp)) (default 0 ex - Z.of_nat (length fp))).
Proof.
  intros Hne Hip Hfp Hdot.
  destruct ip as [|d ip']; [congruence|].
  inversion Hip as [|? ? Hd Hip']; subst.
  unfold parse_decimal.
  assert (Hs : parse_sign (sign_chars s ++ (d :: ip') ++ frac_chars dot fp ++ exp_chars ex)
               = (s, (d :: ip') ++ frac_chars dot fp ++ exp_chars ex)).
  { destruct s; [reflexivity|]. apply parse_sign_digit, Hd. }
  rewrite Hs.
  assert (Hex : match exp_chars ex with
                | [] => Some 0
                | a :: r => if Ascii.eqb (PyStr.lower a) "e"%char then parse_exponent r else None
                end = Some (default 0 ex)).
  { destruct ex as [n|]; [|reflexivity]. cbn [exp_chars default].
    change (Ascii.eqb (PyStr.lower "E") "e") with true. cbv iota.
    apply parse_exponent_signed. }
  assert (Hpf : parse_finite ((d :: ip') ++ frac_chars dot fp ++ exp_chars ex)
                = Some (N_of_digits ((d :: ip') ++ fp), default 0 ex - Z.of_nat (length fp))).
  { unfold parse_finite.
    rewrite span_digits; [|exact Hip|].
    2:{ destruct dot; [reflexivity|]. destruct ex; [reflexivity | exact I]. }
    destruct dot; cbn [frac_chars app].
    - rewrite span_digits; [|exact Hfp | destruct ex; [reflexivity | exact I]].
      cbn [app]. rewrite Hex. reflexivity.
    - rewrite (Hdot eq_refl).
      assert (Hm : match exp_chars ex with
                   | "."%char :: r => PyStr.span is_digit r
                   | _ => ([], exp_chars ex)
                   end = ([], exp_chars ex)) by (destruct ex; reflexivity).
      rewrite Hm. rewrite app_nil_r. cbn [app]. rewrite Hex. reflexivity. }
  rewrite Hpf. reflexivity.
Qed.

Lemma chars_str (l : list ascii) : PyStr.chars (PyStr.str l) = l.
Proof. apply list_ascii_of_string_of_list_ascii. Qed.

Lemma lstrip_plain (l : list ascii) :
  match l with [] => True | a :: _ => PyStr.is_space a = false end -> PyStr.lstrip l = l.
Proof. destruct l as [|a r]; [reflexivity|]. simpl. intros ->. reflexivity. Qed.

Lemma strip_plain (l : list ascii) :
  Forall (fun a => plain a = true) l -> PyStr.strip l = l.
Proof.
  intros H. unfold PyStr.strip, PyStr.rstrip.
  assert (Hsp : forall l', Forall (fun a => plain a = true) l' ->
                  match l' with [] => True | a :: _ => PyStr.is_space a = false end).
  { intros l' Hl'. destruct Hl' as [|a r Ha _]; [exact I|].
    unfold plain in Ha. apply andb_prop in Ha as [Ha _]. apply negb_true_iff, Ha. }
  rewrite (lstrip_plain l (Hsp l H)).
  rewrite (lstrip_plain (rev l)).
  - apply rev_involutive.
  - apply Hsp. apply Forall_rev. exact H.
Qed.

Lemma replace_plain (l : list ascii) :
  Forall (fun a => plain a = true) l -> PyStr.replace "_"%char [] l = l.
Proof.
  unfold PyStr.replace. induction 1 as [|a r Ha _ IH]; [reflexivity|].
  simpl. unfold plain in Ha. apply andb_prop in Ha as [_ Ha]. apply negb_true_iff in Ha.
  rewrite Ha, IH. reflexivity.
Qed.

Lemma Decimal_of_str_plain (l : list ascii) :
  Forall (fun a => plain a = true) l ->
  Decimal_of_str (PyStr.str l) =
    match parse_decimal l with Some d => Ok d | None => Raise InvalidOperation end.
Proof.
  intros H. unfold Decimal_of_str. rewrite chars_str, (strip_plain l H), (replace_plain l H).
  reflexivity.
Qed.

Lemma digit_plain (a : ascii) : is_digit a = true -> plain a = true.
Proof. intros H. digit_cases a H; reflexivity. Qed.

Lemma digits_plain (ds : list ascii) :
  Forall (fun a => is_digit a = true) ds -> Forall (fun a => plain a = true) ds.
Proof. intros H. eapply Forall_impl; [exact H | exact digit_plain]. Qed.

Lemma written_plain (s dot : bool) (ip fp : list ascii) (ex : option Z) :
  Forall (fun a => is_digit a = true) ip ->
  Forall (fun a => is_digit a = true) fp ->
  Forall (fun a => plain a = true) (sign_chars s ++ ip ++ frac_chars dot fp ++ exp_chars ex).
Proof.
  intros Hip Hfp. repeat apply Forall_app_2.
  - destruct s; repeat constructor.
  - apply digits_plain, Hip.
  - destruct dot; [constructor; [reflexivity | apply digits_plain, Hfp] | constructor].
  - destruct ex as [n|]; [|constructor]. constructor; [reflexivity|].
    unfold PyStr.str_of_Z_signed. constructor; [destruct (n <? 0); reflexivity|].
    apply digits_plain, digits_spec.
Qed.

Lemma take_nonempty {A : Type} (n : nat) (l : list A) :
  (0 < n)%nat -> l <> [] -> take n l <> [].
Proof. destruct n; [lia|]. destruct l; [congruence | discriminate]. Qed.

(** What [str] writes for a finite number: a sign, digits, a fraction and an
    exponent that spell the coefficient and the exponent. *)
Lemma dec_str_written (s : bool) (c : N) (e : Z) :
  exists dot ip fp ex,
    dec_str (Finite s c e) =
      PyStr.str (sign_chars s ++ ip ++ frac_chars dot fp ++ exp_chars ex) /\
    ip <> [] /\
    Forall (fun a => is_digit a = true) ip /\
    Forall (fun a => is_digit a = true) fp /\
    (dot = false -> fp = []) /\
    N_of_digits (ip ++ fp) = c /\
    default 0 ex - Z.of_nat (length fp) = e.
Proof.
  destruct (digits_spec c) as (Hne & Hall & Hval).
  unfold dec_str. fold (sign_chars s).
  set (int := digits c) in *.
  set (len := Z.of_nat (length int)).
  assert (Hlen : 1 <= len).
  { unfold len. destruct int; [congruence | simpl; lia]. }
  destruct ((e <=? 0) && (-6 <? e + len)) eqn:Eplain.
  - (* positional notation *)
    apply andb_prop in Eplain as [He _]. apply Z.leb_le in He.
    rewrite Z.eqb_refl.
    destruct (Z.leb_spec (e + len) 0) as [Hdot | Hdot].
    + exists true, ["0"%char], (PyStr.zeros (- (e + len)) ++ int), None.
      split; [reflexivity|]. split; [discriminate|].
      split; [repeat constructor|].
      split; [apply Forall_app; split; [apply zeros_digits | exact Hall]|].
      split; [discriminate|]. split.
      * rewrite !N_of_digits_app, N_of_digits_zeros, Hval. reflexivity.
      * rewrite length_app, length_zeros. fold len. cbn [default from_option id]. lia.
    + destruct (Z.leb_spec len (e + len)) as [Hfull | Hfrac].
      * assert (e = 0) by lia. subst e.
        replace (0 + len - len) with 0 by lia.
        change (PyStr.zeros 0) with (@nil ascii). rewrite (app_nil_r int).
        exists false, int, [], None.
        split; [reflexivity|]. split; [exact Hne|]. split; [exact Hall|].
        split; [constructor|]. split; [reflexivity|].
        split; [rewrite app_nil_r; exact Hval | reflexivity].
      * exists true, (take (Z.to_nat (e + len)) int), (drop (Z.to_nat (e + len)) int), None.
        split; [reflexivity|].
        split; [apply take_nonempty; [lia | exact Hne]|].
        split; [apply Forall_take, Hall|]. split; [apply Forall_drop, Hall|].
        split; [discriminate|]. split; [rewrite take_drop; exact Hval|].
        rewrite length_drop. fold len. cbn [default from_option id]. unfold len in *. lia.
  - (* scientific notation *)
    change (1 <=? 0) with false. cbv iota.
    destruct (Z.leb_spec len 1) as [Hone | Hmore].
    + assert (Hl1 : len = 1) by lia. rewrite Hl1.
      change (PyStr.zeros (1 - 1)) with (@nil ascii). rewrite (app_nil_r int).
      exists false, int, [], (if e + 1 =? 1 then None else Some (e + 1 - 1)).
      split; [destruct (e + 1 =? 1); reflexivity|].
      split; [exact Hne|]. split; [exact Hall|]. split; [constructor|].
      split; [reflexivity|]. split; [rewrite app_nil_r; exact Hval|].
      destruct (Z.eqb_spec (e + 1) 1); cbn [default from_option id length]; lia.
    + exists true, (take (Z.to_nat 1) int), (drop (Z.to_nat 1) int),
        (if e + len =? 1 then None else Some (e + len - 1)).
      split; [destruct (e + len =? 1); reflexivity|].
      split; [apply take_nonempty; [simpl; lia | exact Hne]|].
      split; [apply Forall_take, Hall|]. split; [apply Forall_drop, Hall|].
      split; [discriminate|]. split; [rewrite take_drop; exact Hval|].
      rewrite length_drop. fold len.
      destruct (Z.eqb_spec (e + len) 1); cbn [default from_option id]; unfold len in *; lia.
Qed.

Lemma Decimal_of_str_finite (s : bool) (c : N) (e : Z) :
  Decimal_of_str (dec_str (Finite s c e)) = Ok (Finite s c e).
Proof.
  destruct (dec_str_written s c e) as (dot & ip & fp & ex & -> & Hne & Hip & Hfp & Hdot & Hc & He).
  rewrite Decimal_of_str_plain by (apply written_plain; assumption).
  rewrite parse_decimal_written by assumption.
  rewrite Hc, He. reflexivity.
Qed.

Lemma span_nondigit (a : ascii) (r : list ascii) :
  is_digit a = false -> PyStr.span is_digit (a :: r) = ([], a :: r).
Proof. intros H. simpl. rewrite H. reflexivity. Qed.

Lemma parse_diag_digits (ds : list ascii) :
  Forall (fun a => is_digit a = true) ds -> parse_diag ds = Some (N_of_digits ds).
Proof.
  intros H. unfold parse_diag. rewrite <- (app_nil_r ds) at 1.
  rewrite span_digits by (exact H || exact I). reflexivity.
Qed.

Lemma parse_decimal_nan (s : bool) (ds : list ascii) :
  Forall (fun a => is_digit a = true) ds ->
  parse_decimal (sign_chars s ++ PyStr.chars "NaN" ++ ds) = Some (NaN s (N_of_digits ds)).
Proof.
  intros H. unfold parse_decimal.
  assert (Hs : parse_sign (sign_chars s ++ PyStr.chars "NaN" ++ ds)
               = (s, PyStr.chars "NaN" ++ ds)) by (destruct s; reflexivity).
  rewrite Hs. unfold parse_finite.
  change (PyStr.chars "NaN" ++ ds) with ("N"%char :: "a"%char :: "N"%char :: ds).
  rewrite span_nondigit by reflexivity. cbv iota. cbn [app].
  unfold parse_special. cbn [map].
  change (PyStr.lower "N") with "n"%char. change (PyStr.lower "a") with "a"%char.
  cbv iota. rewrite (map_lower_digits ds H), (parse_diag_digits ds H). reflexivity.
Qed.

Lemma parse_decimal_snan (s : bool) (ds : list ascii) :
  Forall (fun a => is_digit a = true) ds ->
  parse_decimal (sign_chars s ++ PyStr.chars "sNaN" ++ ds) = Some (sNaN s (N_of_digits ds)).
Proof.
  intros H. unfold parse_decimal.
  assert (Hs : parse_sign (sign_chars s ++ PyStr.chars "sNaN" ++ ds)
               = (s, PyStr.chars "sNaN" ++ ds)) by (destruct s; reflexivity).
  rewrite Hs. unfold parse_finite.
  change (PyStr.chars "sNaN" ++ ds) with ("s"%char :: "N"%char :: "a"%char :: "N"%char :: ds).
  rewrite span_nondigit by reflexivity. cbv iota. cbn [app].
  unfold parse_special. cbn [map].
  change (PyStr.lower "N") with "n"%char. change (PyStr.lower "a") with "a"%char.
  change (PyStr.lower "s") with "s"%char.
  cbv iota. rewrite (map_lower_digits ds H), (parse_diag_digits ds H). reflexivity.
Qed.

Lemma payload_chars (p : N) :
  let ds := if (p =? 0)%N then [] else digits p in
  Forall (fun a => is_digit a = true) ds /\ N_of_digits ds = p.
Proof.
  destruct (N.eqb_spec p 0) as [-> | Hp]; simpl.
  - split; [constructor | reflexivity].
  - destruct (digits_spec p) as (_ & Hall & Hval). auto.
Qed.

(** A decimal is read back from its string: [Decimal(str(d))] is [d]
    again, with the same sign, coefficient and exponent, for every finite
    number, infinity and NaN. *)
Lemma Decimal_of_str_dec_str (d : decimal) : Decimal_of_str (dec_str d) = Ok d.
Proof.
  destruct d as [s c e | s | s p | s p].
  - apply Decimal_of_str_finite.
  - destruct s; reflexivity.
  - destruct (payload_chars p) as [Hall Hval].
    unfold dec_str. fold (sign_chars s).
    rewrite Decimal_of_str_plain.
    + rewrite parse_decimal_nan by exact Hall. rewrite Hval. reflexivity.
    + repeat apply Forall_app_2; [destruct s; repeat constructor | repeat constructor
                                  | apply digits_plain, Hall].
  - destruct (payload_chars p) as [Hall Hval].
    unfold dec_str. fold (sign_chars s).
    rewrite Decimal_of_str_plain.
    + rewrite parse_decimal_snan by exact Hall. rewrite Hval. reflexivity.
    + repeat apply Forall_app_2; [destruct s; repeat constructor | repeat constructor
                                  | apply digits_plain, Hall].
Qed.

(** X6: the numbers of an item reach the engine unchanged.  The route
    stores them as [Decimal] objects; [Decimal(str(... or "0"))] gives the
    same decimal back, with its sign, coefficient and exponent, except that
    a zero, which counts as false, is read as [Decimal("0")]. *)
Theorem item_decimal_of_decimal (item : gmap string PyVal) (key : string) (d : decimal) :
  item !! key = Some (VDec d) -> item_decimal item key = Ok (read_back d).
Proof.
  intros H. unfold item_decimal, dict_get_default, read_back, py_or. rewrite H.
  cbn [default from_option id truthy]. destruct (dec_bool d).
  - cbn [py_str]. apply Decimal_of_str_dec_str.
  - reflexivity.
Qed.

Lemma item_decimal_of_decimal_witness :
  item_decimal (<["quantity" := VDec (Finite false 250 (-2))]> ∅) "quantity"
  = Ok (read_back (Finite false 250 (-2))).
Proof.
  apply (item_decimal_of_decimal (<["quantity" := VDec (Finite false 250 (-2))]> ∅)).
  reflexivity.
Defined.

(** ** The tax category of a line *)

Lemma get_tax_category_code_str (d : decimal) :
  _get_tax_category_code (dec_str d) =
    (positive ← dec_gt d (Decimal_of_int 0); Ok (if positive : bool then "S" else "O")).
Proof. unfold _get_tax_category_code. rewrite Decimal_of_str_dec_str. reflexivity. Qed.

Lemma line_item_category (i : nat) (item : gmap string PyVal) (li : xml) :
  line_item false i item = Ok li ->
  exists rate t,
    item_decimal item "vat_rate" = Ok rate /\ line_tax li = Some t /\
    category_code t = Some (VStr (if rate_positive rate then "S" else "O")) /\
    exemption_reason t = (if rate_positive rate then None else Some (VStr "VATEX-EU-DE")).
Proof.
  unfold line_item. intros H. inv_bind H. inv_bind H. inv_bind H.
  match goal with Hx : effective_rate false item = Ok ?r |- _ =>
    rename r into rate; rename Hx into Hrate end.
  inv_bind H. inv_bind H. inv_bind H. inv_bind H.
  match goal with Hx : _get_tax_category_code _ = Ok ?c |- _ =>
    rename c into code; rename Hx into Hcode end.
  inv_bind H. inv_bind H. inv_bind H. apply Ok_inj in H. subst li.
  rewrite get_tax_category_code_str in Hcode. inv_bind Hcode.
  match goal with Hx : dec_gt rate _ = Ok ?b |- _ =>
    assert (Hpos : rate_positive rate = b) by (unfold rate_positive; rewrite Hx; reflexivity) end.
  apply Ok_inj in Hcode. subst code.
  exists rate. eexists. split; [exact Hrate|]. split; [reflexivity|].
  rewrite Hpos. match goal with b : bool |- _ => destruct b end; split; reflexivity.
Qed.

Lemma line_items_category (i : nat) (items : list (gmap string PyVal)) (l : list xml) :
  line_items false i items = Ok l ->
  Forall2 (fun item li =>
    exists rate t,
      item_decimal item "vat_rate" = Ok rate /\ line_tax li = Some t /\
      category_code t = Some (VStr (if rate_positive rate then "S" else "O")) /\
      exemption_reason t = (if rate_positive rate then None else Some (VStr "VATEX-EU-DE")))
    items l.
Proof.
  revert i l. induction items as [|item rest IH]; intros i l H; simpl in H.
  - apply Ok_inj in H. subst l. constructor.
  - inv_bind H. inv_bind H. apply Ok_inj in H. subst l.
    constructor; [eapply line_item_category; eassumption | eapply IH; eassumption].
Qed.

(** X7: on an invoice that is not of a small business, the tax category of
    every line item follows the rate of its item: S when the rate is
    greater than zero, and otherwise (a zero or a negative rate) O together
    with the exemption reason VATEX-EU-DE, which no line of category S
    carries. *)
Theorem line_tax_category (e : env) (fd : gmap string PyVal)
    (items : list (gmap string PyVal)) (x : xml) :
  is_small_business_flag fd = false ->
  _generate_zugferd_xml e fd items = Ok x ->
  Forall2 (fun item li =>
    exists rate t,
      item_decimal item "vat_rate" = Ok rate /\ line_tax li = Some t /\
      category_code t = Some (VStr (if rate_positive rate then "S" else "O")) /\
      exemption_reason t = (if rate_positive rate then None else Some (VStr "VATEX-EU-DE")))
    items (line_item_elements x).
Proof.
  intros Hflag H. pose proof (line_item_elements_spec _ _ _ _ H) as Hl.
  rewrite Hflag in Hl. eapply line_items_category, Hl.
Qed.

Lemma line_tax_category_witness :
  exists x,
    _generate_zugferd_xml sample_env sample_form consulting = Ok x /\
    Forall2 (fun item li =>
      exists rate t,
        item_decimal item "vat_rate" = Ok rate /\ line_tax li = Some t /\
        category_code t = Some (VStr (if rate_positive rate then "S" else "O")) /\
        exemption_reason t = (if rate_positive rate then None else Some (VStr "VATEX-EU-DE")))
      consulting (line_item_elements x).
Proof.
  eexists. split; [vm_compute; reflexivity|].
  apply (line_tax_category sample_env sample_form consulting); vm_compute; reflexivity.
Defined.
(** ** Exact decimal arithmetic within the precision *)

Lemma pow10_nonneg_pos (k : Z) : 0 < 10 ^ k \/ (k < 0 /\ 10 ^ k = 0).
Proof.
  destruct (Z_lt_le_dec k 0) as [H|H].
  - right. split; [exact H|]. apply Z.pow_neg_r, H.
  - left. apply Z.pow_pos_nonneg; lia.
Qed.

Lemma abs_sval (s : bool) (c : N) (e : Z) :
  Z.abs (sval (Finite s c e)) = Z.of_N c * 10 ^ (e + 12).
Proof.
  unfold sval. assert (0 <= Z.of_N c * 10 ^ (e + 12)).
  { apply Z.mul_nonneg_nonneg; [lia|]. destruct (pow10_nonneg_pos (e + 12)); lia. }
  destruct s; lia.
Qed.

Lemma coeff_le_abs (s : bool) (c : N) (e : Z) :
  -12 <= e -> Z.of_N c <= Z.abs (sval (Finite s c e)).
Proof.
  intros He. rewrite abs_sval.
  assert (1 <= 10 ^ (e + 12)) by (apply (Z.pow_le_mono_r 10 0); lia).
  nia.
Qed.

Lemma dec_fix_exact (s : bool) (c : N) (e : Z) :
  Z.of_N c < 10 ^ 28 -> -1000 <= e <= 1000 ->
  dec_fix (Finite s c e) = Ok (Finite s c e).
Proof.
  intros Hc He. unfold dec_fix.
  destruct (N.eqb_spec c 0) as [->|Hne].
  - f_equal. f_equal. unfold Etiny, Emax, Emin, prec. lia.
  - pose proof (ndigits_spec c) as (H1 & _).
    pose proof (ndigits_le c 28 ltac:(lia) Hc) as H2.
    unfold Etop, Etiny, Emax, Emin, prec in *.
    destruct (Z.ltb_spec (999999 - 28 + 1) (ndigits c + e - 28)); [lia|].
    destruct (Z.ltb_spec (ndigits c + e - 28) (-999999 - 28 + 1)); [lia|].
    destruct (Z.ltb_spec e (ndigits c + e - 28)); [lia|]. reflexivity.
Qed.

Lemma dec_mul_exact (s1 s2 : bool) (c1 c2 : N) (e1 e2 : Z) :
  Z.of_N c1 * Z.of_N c2 < 10 ^ 28 -> -1000 <= e1 + e2 <= 1000 ->
  dec_mul (Finite s1 c1 e1) (Finite s2 c2 e2)
  = Ok (Finite (xorb s1 s2) (c1 * c2) (e1 + e2)).
Proof.
  intros Hc He. unfold dec_mul. cbn [check_nans mbind result_bind bind].
  apply dec_fix_exact; [|exact He]. rewrite N2Z.inj_mul. exact Hc.
Qed.

Lemma sval_mul (s1 s2 : bool) (c1 c2 : N) (e1 e2 : Z) :
  -12 <= e1 -> -12 <= e2 -> -12 <= e1 + e2 ->
  sval (Finite (xorb s1 s2) (c1 * c2) (e1 + e2)) * 10 ^ 12
  = sval (Finite s1 c1 e1) * sval (Finite s2 c2 e2).
Proof.
  intros H1 H2 H3. unfold sval. rewrite N2Z.inj_mul.
  replace (10 ^ (e1 + 12) ) with (10 ^ (e1 + 12)) by reflexivity.
  assert (E : 10 ^ (e1 + e2 + 12) * 10 ^ 12 = 10 ^ (e1 + 12) * 10 ^ (e2 + 12)).
  { rewrite <- !Z.pow_add_r by lia. f_equal. lia. }
  destruct s1, s2; simpl xorb; cbv iota; nia.
Qed.

Lemma ndigits_exp_bound (c : N) (e : Z) :
  c <> 0%N -> -12 <= e -> Z.of_N c * 10 ^ (e + 12) < 10 ^ 28 -> ndigits c + e <= 16.
Proof.
  intros Hne He Hc. destruct (ndigits_spec c) as (H1 & _ & H3). specialize (H3 Hne).
  assert (Hp : 10 ^ (ndigits c - 1 + (e + 12)) < 10 ^ 28).
  { rewrite Z.pow_add_r by lia.
    assert (0 < 10 ^ (e + 12)) by (apply Z.pow_pos_nonneg; lia). nia. }
  apply (proj2 (Z.pow_lt_mono_r_iff 10 _ 28 ltac:(lia) ltac:(lia))) in Hp. lia.
Qed.

Lemma scaled_coeff (c : N) (e m : Z) :
  -12 <= m <= e ->
  Z.of_N (c * pow10 (e - m)) * 10 ^ (m + 12) = Z.of_N c * 10 ^ (e + 12).
Proof.
  intros H. rewrite N2Z.inj_mul, pow10_Z by lia.
  rewrite <- Z.mul_assoc, <- Z.pow_add_r by lia. do 2 f_equal. lia.
Qed.

Lemma normalize_exact (c1 c2 : N) (e1 e2 : Z) :
  c1 <> 0%N -> c2 <> 0%N -> -12 <= e1 <= 1 -> -12 <= e2 <= 1 ->
  Z.of_N c1 * 10 ^ (e1 + 12) < 10 ^ 28 ->
  Z.of_N c2 * 10 ^ (e2 + 12) < 10 ^ 28 ->
  normalize c1 e1 c2 e2
  = ((c1 * pow10 (e1 - Z.min e1 e2), Z.min e1 e2)%N,
     (c2 * pow10 (e2 - Z.min e1 e2), Z.min e1 e2)%N).
Proof.
  intros Hn1 Hn2 He1 He2 Hc1 Hc2.
  pose proof (ndigits_exp_bound c1 e1 Hn1 ltac:(lia) Hc1) as Hd1.
  pose proof (ndigits_exp_bound c2 e2 Hn2 ltac:(lia) Hc2) as Hd2.
  pose proof (ndigits_spec c1) as (Hl1 & _).
  pose proof (ndigits_spec c2) as (Hl2 & _).
  unfold normalize, prec.
  destruct (Z.ltb_spec e1 e2) as [Hlt|Hge].
  - rewrite (Z.min_l e1 e2) by lia.
    destruct (Z.ltb_spec (ndigits c1 + e1 - 1) (e2 + Z.min (-1) (ndigits c2 - 28 - 2))); [lia|].
    rewrite Z.sub_diag. change (pow10 0) with 1%N. rewrite N.mul_1_r. reflexivity.
  - rewrite (Z.min_r e1 e2) by lia.
    destruct (Z.ltb_spec (ndigits c2 + e2 - 1) (e1 + Z.min (-1) (ndigits c1 - 28 - 2))); [lia|].
    rewrite Z.sub_diag. change (pow10 0) with 1%N. rewrite N.mul_1_r. reflexivity.
Qed.

Lemma good_Finite (s : bool) (c : N) (e : Z) : -12 <= e <= 1 -> good (Finite s c e).
Proof. intros H. exists s, c, e. auto. Qed.

Lemma sval_zero (s : bool) (e : Z) : sval (Finite s 0 e) = 0.
Proof. unfold sval. destruct s; lia. Qed.

(** An addition whose operands and result fit into the precision is exact. *)
Lemma dec_add_exact (a b : decimal) :
  good a -> good b -> Z.abs (sval a) + Z.abs (sval b) < 10 ^ 28 ->
  exists r, dec_add a b = Ok r /\ good r /\ sval r = sval a + sval b.
Proof.
  intros (s1 & c1 & e1 & -> & He1) (s2 & c2 & e2 & -> & He2) Hb.
  rewrite !abs_sval in Hb.
  assert (Hx1 : 0 <= Z.of_N c1 * 10 ^ (e1 + 12)).
  { apply Z.mul_nonneg_nonneg; [lia|]. apply Z.pow_nonneg. lia. }
  assert (Hx2 : 0 <= Z.of_N c2 * 10 ^ (e2 + 12)).
  { apply Z.mul_nonneg_nonneg; [lia|]. apply Z.pow_nonneg. lia. }
  set (m := Z.min e1 e2).
  assert (Hm : -12 <= m <= 1) by (unfold m; lia).
  assert (Hm1 : m <= e1) by (unfold m; lia).
  assert (Hm2 : m <= e2) by (unfold m; lia).
  pose proof (scaled_coeff c1 e1 m ltac:(lia)) as Hs1.
  pose proof (scaled_coeff c2 e2 m ltac:(lia)) as Hs2.
  assert (Hpm : 1 <= 10 ^ (m + 12)) by (apply (Z.pow_le_mono_r 10 0); lia).
  unfold dec_add. cbn [check_nans mbind result_bind bind]. fold m.
  destruct (N.eqb_spec c1 0) as [->|Hn1]; destruct (N.eqb_spec c2 0) as [->|Hn2];
    cbn [andb].
  - rewrite dec_fix_exact by (simpl; lia).
    eexists. split; [reflexivity|]. split; [apply good_Finite; lia|].
    rewrite !sval_zero. reflexivity.
  - unfold rescale. destruct (N.eqb_spec c2 0) as [|_]; [contradiction|].
    rewrite Z.max_l by (unfold prec; lia).
    destruct (Z.leb_spec m e2); [|lia].
    rewrite dec_fix_exact by nia.
    eexists. split; [reflexivity|]. split; [apply good_Finite; lia|].
    rewrite sval_zero. unfold sval. rewrite Hs2. lia.
  - unfold rescale. destruct (N.eqb_spec c1 0) as [|_]; [contradiction|].
    rewrite Z.max_l by (unfold prec; lia).
    destruct (Z.leb_spec m e1); [|lia].
    rewrite dec_fix_exact by nia.
    eexists. split; [reflexivity|]. split; [apply good_Finite; lia|].
    rewrite sval_zero. unfold sval. rewrite Hs1. lia.
  - rewrite normalize_exact by (try assumption; lia). fold m.
    set (n1 := (c1 * pow10 (e1 - m))%N) in *.
    set (n2 := (c2 * pow10 (e2 - m))%N) in *.
    destruct (Bool.eqb s1 s2) eqn:Es.
    + apply Bool.eqb_prop in Es. subst s2.
      rewrite dec_fix_exact by (rewrite ?N2Z.inj_add; nia).
      eexists. split; [reflexivity|]. split; [apply good_Finite; lia|].
      unfold sval. rewrite N2Z.inj_add. destruct s1; nia.
    + assert (Hs : s2 = negb s1) by (destruct s1, s2; simpl in Es; try reflexivity; discriminate Es).
      subst s2.
      destruct (N.eqb_spec n1 n2) as [Heq|Hneq].
      * rewrite dec_fix_exact by (simpl; lia).
        eexists. split; [reflexivity|]. split; [apply good_Finite; lia|].
        rewrite sval_zero. unfold sval. rewrite <- Hs1, <- Hs2, Heq.
        destruct s1; simpl; lia.
      * destruct (N.ltb_spec n1 n2) as [Hlt|Hge].
        -- rewrite dec_fix_exact by (rewrite ?N2Z.inj_sub by lia; nia).
           eexists. split; [reflexivity|]. split; [apply good_Finite; lia|].
           unfold sval. rewrite N2Z.inj_sub by lia. destruct s1; simpl; nia.
        -- rewrite dec_fix_exact by (rewrite ?N2Z.inj_sub by lia; nia).
           eexists. split; [reflexivity|]. split; [apply good_Finite; lia|].
           unfold sval. rewrite N2Z.inj_sub by lia. destruct s1; simpl; nia.
Qed.

(** *** Division by 100.0 *)

Lemma strip_pow10 (k : nat) :
  forall (fuel : nat) (a : N) (exp ideal : Z),
    (k <= fuel)%nat -> exp + Z.of_nat k <= ideal ->
    strip_to_ideal fuel (a * 10 ^ N.of_nat k) exp ideal
    = strip_to_ideal (fuel - k) a (exp + Z.of_nat k) ideal.
Proof.
  induction k as [|k IH]; intros fuel a exp ideal Hk He.
  - simpl. rewrite N.mul_1_r, Z.add_0_r, Nat.sub_0_r. reflexivity.
  - destruct fuel as [|fuel]; [lia|]. cbn [strip_to_ideal].
    rewrite Nat2N.inj_succ, N.pow_succ_r'.
    destruct (Z.ltb_spec exp ideal); [|lia].
    replace (a * (10 * 10 ^ N.of_nat k))%N with (a * 10 ^ N.of_nat k * 10)%N by lia.
    rewrite N.Div0.mod_mul, N.div_mul by discriminate. cbn [N.eqb andb].
    rewrite IH by lia. simpl Nat.sub. f_equal. lia.
Qed.

Lemma strip_spec (fuel : nat) :
  forall (a : N) (exp ideal : Z),
    exists j : nat,
      (j <= fuel)%nat /\
      a = (fst (strip_to_ideal fuel a exp ideal) * 10 ^ N.of_nat j)%N /\
      snd (strip_to_ideal fuel a exp ideal) = exp + Z.of_nat j.
Proof.
  induction fuel as [|fuel IH]; intros a exp ideal.
  - exists 0%nat. simpl. split; [lia|]. split; [lia|lia].
  - cbn [strip_to_ideal].
    destruct ((exp <? ideal) && (a mod 10 =? 0)%N) eqn:E.
    + apply andb_prop in E as [_ E]. apply N.eqb_eq in E.
      destruct (IH (a / 10)%N (exp + 1) ideal) as (j & Hj & Ha & He).
      exists (S j). split; [lia|]. split.
      * rewrite Nat2N.inj_succ, N.pow_succ_r'.
        pose proof (N.div_mod a 10 ltac:(discriminate)) as Hd. rewrite E in Hd.
        rewrite Hd at 1. rewrite Ha at 1. lia.
      * rewrite He. lia.
    + exists 0%nat. simpl. split; [lia|]. split; lia.
Qed.

(** A rate below 10000 with at most two places divided by 100.0: the
    quotient is exact, and its coefficient is not larger than that of the
    rate. *)
Lemma dec_div_100_exact (s : bool) (c : N) (e : Z) :
  Z.of_N c < 10 ^ 4 -> -2 <= e <= 0 ->
  exists c' e',
    dec_div (Finite s c e) Decimal_100_0 = Ok (Finite s c' e') /\
    -4 <= e' <= 1 /\ Z.of_N c' <= Z.of_N c /\
    100 * sval (Finite s c' e') = sval (Finite s c e).
Proof.
  intros Hc He. unfold dec_div, Decimal_100_0.
  cbn [check_nans mbind result_bind bind]. rewrite xorb_false_r.
  change (1000 =? 0)%N with false. cbv iota.
  destruct (N.eqb_spec c 0) as [->|Hne].
  - rewrite dec_fix_exact by (simpl; lia).
    exists 0%N, (e - -1). split; [reflexivity|]. split; [lia|]. split; [lia|].
    rewrite !sval_zero. reflexivity.
  - change (ndigits 1000) with 4. unfold prec.
    pose proof (ndigits_spec c) as (Hl1 & _).
    pose proof (ndigits_le c 4 ltac:(lia) Hc) as Hl2.
    set (shift := 4 - ndigits c + 28 + 1).
    assert (Hshift : 29 <= shift <= 32) by (unfold shift; lia).
    destruct (Z.leb_spec 0 shift); [|lia].
    set (k := Z.to_nat (shift - 3)).
    assert (Hpow : pow10 shift = (10 ^ N.of_nat k * 1000)%N).
    { unfold pow10, k. rewrite Z_nat_N.
      change 1000%N with (10 ^ 3)%N. rewrite <- N.pow_add_r. f_equal. lia. }
    rewrite Hpow.
    replace (c * (10 ^ N.of_nat k * 1000))%N with (c * 10 ^ N.of_nat k * 1000)%N by lia.
    rewrite N.Div0.mod_mul, N.div_mul by discriminate. cbn [N.eqb negb].
    replace (Z.to_nat (e - -1 - (e - -1 - shift))) with (k + 3)%nat by (unfold k; lia).
    rewrite strip_pow10 by (unfold k; lia).
    replace (k + 3 - k)%nat with 3%nat by lia.
    destruct (strip_spec 3 c (e - -1 - shift + Z.of_nat k) (e - -1)) as (j & Hj & Ha & Hex).
    destruct (strip_to_ideal 3 c (e - -1 - shift + Z.of_nat k) (e - -1)) as [c' e'].
    cbn [fst snd] in Ha, Hex.
    assert (He' : e' = e - 2 + Z.of_nat j) by (unfold k in Hex; lia).
    assert (Hp1 : (1 <= 10 ^ N.of_nat j)%N).
    { apply N.neq_0_lt_0 in Hne. pose proof (N.pow_nonzero 10 (N.of_nat j) ltac:(discriminate)). lia. }
    assert (Hc' : Z.of_N c' <= Z.of_N c) by nia.
    rewrite dec_fix_exact by lia.
    exists c', e'. split; [reflexivity|]. split; [lia|]. split; [exact Hc'|].
    assert (E1 : 10 ^ (e + 12) = 100 * 10 ^ (e - 2 + 12)).
    { replace (e + 12) with (2 + (e - 2 + 12)) by lia.
      rewrite (Z.pow_add_r 10 2 (e - 2 + 12)) by lia. reflexivity. }
    assert (E2 : 10 ^ (e' + 12) = 10 ^ Z.of_nat j * 10 ^ (e - 2 + 12)).
    { replace (e' + 12) with (Z.of_nat j + (e - 2 + 12)) by lia.
      apply Z.pow_add_r; lia. }
    assert (E3 : Z.of_N c = Z.of_N c' * 10 ^ Z.of_nat j).
    { rewrite Ha at 1. rewrite N2Z.inj_mul, N2Z.inj_pow, nat_N_Z. reflexivity. }
    unfold sval. rewrite E1, E2, E3. destruct s; ring.
Qed.

(** *** Rounding half up to two places *)

(** Dropping [k] digits with [_round_half_up]: the kept coefficient, put
    back at the old exponent, is off by at most half of the last kept
    place. *)
Lemma round_half_up_error (c : N) (k : Z) :
  1 <= k ->
  let c' := if round_half_up c k =? 1 then (c / pow10 k + 1)%N else (c / pow10 k)%N in
  2 * Z.abs (Z.of_N c' * 10 ^ k - Z.of_N c) <= 10 ^ k.
Proof.
  intros Hk. cbv zeta. unfold round_half_up.
  pose proof (pow10_Z k ltac:(lia)) as Hp.
  pose proof (pow10_pos k) as Hpos.
  set (p := pow10 k) in *.
  pose proof (N.div_mod c p ltac:(lia)) as Hd.
  pose proof (N.mod_lt c p ltac:(lia)) as Hm.
  rewrite <- Hp. clear Hp.
  set (q := (c / p)%N) in *. set (r := (c mod p)%N) in *. clearbody q r p.
  destruct (N.leb_spec p (2 * r)) as [Hup|Hdown].
  - change (1 =? 1) with true. cbv iota. nia.
  - destruct (N.eqb_spec r 0);
      [change (0 =? 1) with false | change (-1 =? 1) with false]; cbv iota; nia.
Qed.

Lemma quantize_half_up_exact (s : bool) (c : N) (e : Z) :
  -12 <= e <= 1 -> Z.of_N c * 10 ^ (e + 12) < 10 ^ 27 ->
  exists c',
    quantize ROUND_HALF_UP (Finite s c e) TWO_PLACES = Ok (Finite s c' (-2)) /\
    Z.abs (sval (Finite s c' (-2)) - sval (Finite s c e)) <= 5 * 10 ^ 9.
Proof.
  intros He Hc.
  assert (Hgoal : forall c' : N,
             Z.abs (Z.of_N c' * 10 ^ 10 - Z.of_N c * 10 ^ (e + 12)) <= 5 * 10 ^ 9 ->
             Z.abs (sval (Finite s c' (-2)) - sval (Finite s c e)) <= 5 * 10 ^ 9).
  { intros c' H. unfold sval. change (-2 + 12) with 10. destruct s; lia. }
  assert (Hfix : forall c' : N,
             Z.abs (Z.of_N c' * 10 ^ 10 - Z.of_N c * 10 ^ (e + 12)) <= 5 * 10 ^ 9 ->
             Z.of_N c' < 10 ^ 28).
  { intros c' H. lia. }
  unfold quantize, TWO_PLACES. cbn [check_nans mbind result_bind bind].
  change (negb ((Etiny <=? -2) && (-2 <=? Emax))) with false. cbv iota.
  destruct (N.eqb_spec c 0) as [->|Hne].
  - rewrite dec_fix_exact by (simpl; lia).
    exists 0%N. split; [reflexivity|]. rewrite !sval_zero. simpl. lia.
  - pose proof (ndigits_spec c) as (Hl1 & _ & Hl3). specialize (Hl3 Hne).
    assert (Hd : ndigits c + e <= 15).
    { assert (Hp : 10 ^ (ndigits c - 1 + (e + 12)) < 10 ^ 27).
      { rewrite Z.pow_add_r by lia.
        assert (0 < 10 ^ (e + 12)) by (apply Z.pow_pos_nonneg; lia). nia. }
      apply (proj2 (Z.pow_lt_mono_r_iff 10 _ 27 ltac:(lia) ltac:(lia))) in Hp. lia. }
    unfold adjusted, Emax, prec.
    destruct (Z.ltb_spec 999999 (e + ndigits c - 1)); [lia|].
    destruct (Z.ltb_spec 28 (e + ndigits c - 1 - -2 + 1)); [lia|].
    assert (Hres : exists c' : N,
               rescale ROUND_HALF_UP (Finite s c e) (-2) = Finite s c' (-2) /\
               Z.abs (Z.of_N c' * 10 ^ 10 - Z.of_N c * 10 ^ (e + 12)) <= 5 * 10 ^ 9).
    { unfold rescale. destruct (N.eqb_spec c 0) as [|_]; [contradiction|].
      destruct (Z.leb_spec (-2) e) as [Hge|Hlt].
      - eexists. split; [reflexivity|].
        rewrite N2Z.inj_mul, pow10_Z by lia.
        replace (e + 12) with (e - -2 + 10) by lia.
        rewrite (Z.pow_add_r 10 (e - -2) 10) by lia. lia.
      - destruct (Z.ltb_spec (ndigits c + e - -2) 0) as [Hneg|Hpos].
        + (* the amount is below a tenth of a cent: it rounds to zero *)
          exists 0%N. split; [reflexivity|].
          assert (Hp : 10 ^ (ndigits c + (e + 12)) <= 10 ^ 9)
            by (apply Z.pow_le_mono_r; lia).
          rewrite Z.pow_add_r in Hp by lia.
          assert (0 < 10 ^ (e + 12)) by (apply Z.pow_pos_nonneg; lia).
          destruct (ndigits_spec c) as (_ & Hup & _). nia.
        + replace (ndigits c - (ndigits c + e - -2)) with (- e - 2) by lia.
          cbn [pick_rounding_function].
          pose proof (round_half_up_error c (- e - 2) ltac:(lia)) as Herr.
          cbv zeta in Herr.
          eexists. split; [reflexivity|].
          set (c' := if round_half_up c (- e - 2) =? 1
                     then (c / pow10 (- e - 2) + 1)%N else (c / pow10 (- e - 2))%N) in *.
          assert (E : 10 ^ 10 = 10 ^ (- e - 2) * 10 ^ (e + 12)).
          { rewrite <- Z.pow_add_r by lia. f_equal. lia. }
          assert (E' : 10 ^ (- e - 2) * 10 ^ (e + 12) = 10000000000) by (rewrite <- E; reflexivity).
          assert (0 < 10 ^ (e + 12)) by (apply Z.pow_pos_nonneg; lia).
          assert (0 < 10 ^ (- e - 2)) by (apply Z.pow_pos_nonneg; lia).
          rewrite E. change (5 * 10 ^ 9) with 5000000000.
          replace (Z.of_N c' * (10 ^ (- e - 2) * 10 ^ (e + 12)) - Z.of_N c * 10 ^ (e + 12))
            with ((Z.of_N c' * 10 ^ (- e - 2) - Z.of_N c) * 10 ^ (e + 12)) by ring.
          rewrite Z.abs_mul, (Z.abs_eq (10 ^ (e + 12))) by lia.
          nia. }
    destruct Hres as (c' & -> & Herr).
    pose proof (Hfix c' Herr) as Hc'.
    pose proof (ndigits_le c' 28 ltac:(lia) Hc') as Hn'.
    destruct (Z.ltb_spec 999999 (-2 + ndigits c' - 1)); [lia|].
    destruct (Z.ltb_spec 28 (ndigits c')); [lia|].
    rewrite dec_fix_exact by lia.
    exists c'. split; [reflexivity|]. apply Hgoal, Herr.
Qed.

(** *** One line of the invoice *)

Lemma small_amount_bounds (s : bool) (c : N) (e : Z) :
  -4 <= e <= 0 -> Z.of_N c * 10 ^ (e + 4) < 10 ^ 10 ->
  Z.of_N c < 10 ^ 10.
Proof.
  intros He H. assert (1 <= 10 ^ (e + 4)) by (apply (Z.pow_le_mono_r 10 0); lia). nia.
Qed.

(** The net amount of a line: the product is exact and below the bound. *)
Lemma line_netto_exact (q p : decimal) :
  small_amount q -> small_amount p ->
  exists s c e,
    dec_mul q p = Ok (Finite s c e) /\ -8 <= e <= 0 /\
    Z.of_N c < 10 ^ 20 /\ Z.of_N c * 10 ^ (e + 12) < 10 ^ 24.
Proof.
  intros (s1 & c1 & e1 & -> & He1 & Hc1) (s2 & c2 & e2 & -> & He2 & Hc2).
  pose proof (small_amount_bounds s1 c1 e1 He1 Hc1) as Hb1.
  pose proof (small_amount_bounds s2 c2 e2 He2 Hc2) as Hb2.
  assert (Hprod : Z.of_N c1 * Z.of_N c2 < 10 ^ 20).
  { change (10 ^ 20) with (10 ^ 10 * 10 ^ 10). nia. }
  rewrite dec_mul_exact by lia.
  exists (xorb s1 s2), (c1 * c2)%N, (e1 + e2).
  split; [reflexivity|]. split; [lia|]. rewrite N2Z.inj_mul. split; [exact Hprod|].
  assert (E : 10 ^ (e1 + e2 + 12) = 10 ^ (e1 + 4) * 10 ^ (e2 + 4) * 10 ^ 4).
  { rewrite <- !Z.pow_add_r by lia. f_equal. lia. }
  rewrite E.
  assert (0 < 10 ^ (e1 + 4)) by (apply Z.pow_pos_nonneg; lia).
  assert (0 < 10 ^ (e2 + 4)) by (apply Z.pow_pos_nonneg; lia).
  set (a := Z.of_N c1 * 10 ^ (e1 + 4)) in *. set (b := Z.of_N c2 * 10 ^ (e2 + 4)) in *.
  replace (Z.of_N c1 * Z.of_N c2 * (10 ^ (e1 + 4) * 10 ^ (e2 + 4) * 10 ^ 4))
    with (a * b * 10 ^ 4) by (unfold a, b; ring).
  assert (0 <= a) by (unfold a; nia). assert (0 <= b) by (unfold b; nia).
  assert (Hab : a * b < 10 ^ 10 * 10 ^ 10) by (apply Z.mul_lt_mono_nonneg; assumption).
  clearbody a b. change (10 ^ 24) with (10 ^ 10 * 10 ^ 10 * 10000).
  change (10 ^ 4) with 10000. lia.
Qed.

(** The VAT of a line: the fraction, the product and the rounding. *)
Lemma line_vat_parts (ls : bool) (lc : N) (le : Z) (r : decimal) :
  -8 <= le <= 0 -> Z.of_N lc < 10 ^ 20 -> Z.of_N lc * 10 ^ (le + 12) < 10 ^ 24 ->
  small_rate r ->
  exists fraction line_vat rounded,
    dec_div r Decimal_100_0 = Ok fraction /\
    dec_mul (Finite ls lc le) fraction = Ok line_vat /\
    quantize ROUND_HALF_UP line_vat TWO_PLACES = Ok rounded /\
    good line_vat /\ good rounded /\
    Z.abs (sval line_vat) < 10 ^ 24 /\
    Z.abs (sval rounded) <= line_bound /\
    Z.abs (sval rounded - sval line_vat) <= 5 * 10 ^ 9 /\
    10 ^ 14 * sval line_vat = sval (Finite ls lc le) * sval r.
Proof.
  intros Hle Hlc Hlv (rs & rc & re & -> & Hre & Hrc).
  assert (Hrc' : Z.of_N rc < 10 ^ 4).
  { assert (1 <= 10 ^ (re + 2)) by (apply (Z.pow_le_mono_r 10 0); lia). nia. }
  destruct (dec_div_100_exact rs rc re Hrc' Hre) as (fc & fe & Hdiv & Hfe & Hfc & Hfv).
  assert (Hprod : Z.of_N lc * Z.of_N fc < 10 ^ 28).
  { change (10 ^ 28) with (10 ^ 20 * 10 ^ 8). change (10 ^ 4) with 10000 in *.
    change (10 ^ 20) with 100000000000000000000 in *. change (10 ^ 8) with 100000000. nia. }
  pose proof (dec_mul_exact ls rs lc fc le fe Hprod ltac:(lia)) as Hmulr.
  pose proof (sval_mul ls rs lc fc le fe ltac:(lia) ltac:(lia) ltac:(lia)) as Hmul.
  set (lv := Finite (xorb ls rs) (lc * fc) (le + fe)) in *.
  set (line := Finite ls lc le) in *.
  set (frac := Finite rs fc fe) in *.
  set (rate := Finite rs rc re) in *.
  assert (Hrate : Z.abs (sval rate) < 10 ^ 14).
  { unfold rate. rewrite abs_sval. replace (re + 12) with ((re + 2) + 10) by lia.
    rewrite Z.pow_add_r by lia. change (10 ^ 14) with (10 ^ 4 * 10 ^ 10).
    change (10 ^ 10) with 10000000000. lia. }
  assert (Hline : Z.abs (sval line) < 10 ^ 24) by (unfold line; rewrite abs_sval; exact Hlv).
  assert (Hval : sval lv * 10 ^ 14 = sval line * sval rate).
  { change (10 ^ 14) with (10 ^ 12 * 100). rewrite <- Hfv, Z.mul_assoc, Hmul. ring. }
  assert (Hlvb : Z.abs (sval lv) < 10 ^ 24).
  { assert (Habs : Z.abs (sval lv) * 10 ^ 14 = Z.abs (sval line) * Z.abs (sval rate)).
    { rewrite <- Z.abs_mul, <- Hval, Z.abs_mul. reflexivity. }
    assert (Hlt : Z.abs (sval line) * Z.abs (sval rate) < 10 ^ 24 * 10 ^ 14).
    { apply Z.mul_lt_mono_nonneg; [apply Z.abs_nonneg | exact Hline
                                   | apply Z.abs_nonneg | exact Hrate]. }
    rewrite <- Habs in Hlt. change (10 ^ 14) with 100000000000000 in Hlt. lia. }
  destruct (quantize_half_up_exact (xorb ls rs) (lc * fc) (le + fe) ltac:(lia))
    as (c' & Hq & Herr).
  { fold lv. rewrite <- (abs_sval (xorb ls rs)). fold lv.
    change (10 ^ 27) with 1000000000000000000000000000.
    change (10 ^ 24) with 1000000000000000000000000 in *. lia. }
  fold lv in Hq, Herr.
  exists frac, lv, (Finite (xorb ls rs) c' (-2)).
  split; [exact Hdiv|]. split; [exact Hmulr|]. split; [exact Hq|].
  split; [apply good_Finite; lia|]. split; [apply good_Finite; lia|].
  split; [exact Hlvb|].
  set (rd := Finite (xorb ls rs) c' (-2)) in *.
  unfold line_bound.
  change (10 ^ 24) with 1000000000000000000000000 in *.
  change (5 * 10 ^ 9) with 5000000000 in *.
  split; [lia|]. split; [exact Herr|]. rewrite <- Hval. ring.
Qed.

(** *** The buckets *)

Lemma abs_basis_nonneg (s : vat_summary) : 0 <= abs_basis s.
Proof. induction s as [|kv r IH]; simpl; lia. Qed.

Lemma abs_vat_nonneg (s : vat_summary) : 0 <= abs_vat s.
Proof. induction s as [|kv r IH]; simpl; lia. Qed.

(** An update that adds [x] to the basis and [y] to the VAT of a bucket
    does so to the sums of the summary, whichever bucket it finds. *)
Lemma update_bucket_exact (rate : decimal) (f : bucket -> result bucket)
    (s : vat_summary) (x y B : Z) :
  (forall b, good (basis b) -> good (vat b) ->
     Z.abs (sval (basis b)) <= B -> Z.abs (sval (vat b)) <= B ->
     exists b', f b = Ok b' /\ good (basis b') /\ good (vat b') /\
       sval (basis b') = sval (basis b) + x /\ sval (vat b') = sval (vat b) + y) ->
  good_summary s -> abs_basis s <= B -> abs_vat s <= B -> 0 <= B ->
  exists s',
    update_bucket rate f s = Ok s' /\ good_summary s' /\
    sum_basis s' = sum_basis s + x /\ sum_vat s' = sum_vat s + y /\
    abs_basis s' <= abs_basis s + Z.abs x /\ abs_vat s' <= abs_vat s + Z.abs y.
Proof.
  intros Hf. induction s as [|[k b] r IH]; intros Hg Hb Hv HB.
  - destruct (Hf {| basis := Decimal_0_0; vat := Decimal_0_0 |}) as (b' & Hb' & G1 & G2 & S1 & S2).
    + apply good_Finite. lia.
    + apply good_Finite. lia.
    + exact HB.
    + exact HB.
    + exists [(rate, b')]. cbn [update_bucket]. rewrite Hb'.
      split; [reflexivity|]. split; [repeat constructor; assumption|].
      cbn [sum_basis sum_vat abs_basis abs_vat fold_right snd basis vat] in *.
      change (sval Decimal_0_0) with 0 in *. lia.
  - inversion Hg as [|? ? [G1 G2] Hg']; subst. cbn [snd] in G1, G2.
    pose proof (abs_basis_nonneg r). pose proof (abs_vat_nonneg r).
    cbn [abs_basis abs_vat fold_right snd] in Hb, Hv.
    fold (abs_basis r) in Hb. fold (abs_vat r) in Hv.
    cbn [update_bucket]. destruct (key_eqb k rate).
    + destruct (Hf b G1 G2 ltac:(lia) ltac:(lia)) as (b' & Hb' & G1' & G2' & S1 & S2).
      rewrite Hb'. exists ((k, b') :: r). split; [reflexivity|].
      split; [constructor; [split; assumption | exact Hg']|].
      cbn [sum_basis sum_vat abs_basis abs_vat fold_right snd].
      fold (sum_basis r) (sum_vat r) (abs_basis r) (abs_vat r). lia.
    + destruct (IH Hg' ltac:(lia) ltac:(lia) HB) as (r' & Hr' & Gr & S1 & S2 & A1 & A2).
      rewrite Hr'. exists ((k, b) :: r'). split; [reflexivity|].
      split; [constructor; [split; assumption | exact Gr]|].
      cbn [sum_basis sum_vat abs_basis abs_vat fold_right snd].
      fold (sum_basis r) (sum_vat r) (abs_basis r) (abs_vat r).
      fold (sum_basis r') (sum_vat r') (abs_basis r') (abs_vat r'). lia.
Qed.

(** *** One item *)

Lemma small_rate_finite (r : decimal) : small_rate r -> dec_hashable r = Ok tt.
Proof. intros (s & c & e & -> & _). reflexivity. Qed.

(** One step of the loop within the bounds: every operation is exact. *)
Lemma totals_step_exact (flag : bool) (k : Z) (net : decimal) (s : vat_summary)
    (item : gmap string PyVal) :
  0 <= k < 1000 -> exact_state k net s -> small_item flag item ->
  exists net' s' q p r line fraction line_vat rounded,
    totals_step flag (net, s) item = Ok (net', s') /\
    exact_state (k + 1) net' s' /\
    item_decimal item "quantity" = Ok q /\
    item_decimal item "unit_price" = Ok p /\
    effective_rate flag item = Ok r /\
    dec_mul q p = Ok line /\
    dec_add net line = Ok net' /\
    dec_div r Decimal_100_0 = Ok fraction /\
    dec_mul line fraction = Ok line_vat /\
    quantize ROUND_HALF_UP line_vat TWO_PLACES = Ok rounded /\
    good line /\ good line_vat /\
    Z.abs (sval line) < 10 ^ 24 /\ Z.abs (sval line_vat) < 10 ^ 24 /\
    sval net' = sval net + sval line /\
    sum_vat s' = sum_vat s + sval rounded /\
    Z.abs (sval rounded - sval line_vat) <= 5 * 10 ^ 9 /\
    10 ^ 14 * sval line_vat = sval line * sval r.
Proof.
  intros Hk (Gn & Bn & Gs & Bb & Bv & Hsum) (q & p & r & Hq & Hp & Hr & Sq & Sp & Sr).
  destruct (line_netto_exact q p Sq Sp) as (ls & lc & le & Hline & Hle & Hlc & Hlv).
  destruct (line_vat_parts ls lc le r Hle Hlc Hlv Sr)
    as (fraction & line_vat & rounded & Hfrac & Hlvat & Hquant & Glv & Gr & Alv & Ar & Herr & Hval).
  set (line := Finite ls lc le) in *.
  assert (Gl : good line) by (apply good_Finite; lia).
  assert (Al : Z.abs (sval line) < 10 ^ 24) by (unfold line; rewrite abs_sval; exact Hlv).
  unfold line_bound in *.
  change (10 ^ 24) with 1000000000000000000000000 in *.
  change (10 ^ 28) with 10000000000000000000000000000 in *.
  destruct (dec_add_exact net line Gn Gl ltac:(lia)) as (net' & Hnet' & Gn' & Sn').
  destruct (update_bucket_exact r
              (fun b =>
                 basis' ← dec_add (basis b) line;
                 fraction ← dec_div r Decimal_100_0;
                 line_vat ← dec_mul line fraction;
                 rounded ← quantize ROUND_HALF_UP line_vat TWO_PLACES;
                 vat' ← dec_add (vat b) rounded;
                 Ok {| basis := basis'; vat := vat' |})
              s (sval line) (sval rounded) (k * (2 * 1000000000000000000000000)))
    as (s' & Hs' & Gs' & S1 & S2 & A1 & A2); [| exact Gs | exact Bb | exact Bv | lia |].
  { intros b G1 G2 B1 B2.
    destruct (dec_add_exact (basis b) line G1 Gl ltac:(lia)) as (basis' & Hb' & Gb' & Sb').
    destruct (dec_add_exact (vat b) rounded G2 Gr ltac:(lia)) as (vat' & Hv' & Gv' & Sv').
    exists {| basis := basis'; vat := vat' |}.
    rewrite Hb'. cbn [mbind result_bind bind]. rewrite Hfrac. cbn [mbind result_bind bind].
    rewrite Hlvat. cbn [mbind result_bind bind]. rewrite Hquant. cbn [mbind result_bind bind].
    rewrite Hv'. cbn [mbind result_bind bind basis vat]. auto. }
  exists net', s', q, p, r, line, fraction, line_vat, rounded.
  split.
  { unfold totals_step. rewrite Hq. cbn [mbind result_bind bind]. rewrite Hp.
    cbn [mbind result_bind bind]. rewrite Hr. cbn [mbind result_bind bind].
    rewrite Hline. cbn [mbind result_bind bind fst snd]. fold line. rewrite Hnet'.
    cbn [mbind result_bind bind]. rewrite (small_rate_finite r Sr).
    cbn [mbind result_bind bind]. rewrite Hs'. reflexivity. }
  split.
  { unfold exact_state, line_bound.
    change (10 ^ 24) with 1000000000000000000000000.
    split; [exact Gn'|]. split; [lia|]. split; [exact Gs'|].
    split; [lia|]. split; [lia|]. lia. }
  repeat (split; [assumption|]). exact Hval.
Qed.

(** *** The loop and the totals *)

Lemma totals_loop_exact (flag : bool) (items : list (gmap string PyVal)) :
  forall (k : Z) (net : decimal) (s : vat_summary),
  0 <= k -> k + Z.of_nat (length items) <= 1000 ->
  exact_state k net s -> Forall (small_item flag) items ->
  exists net' s',
    totals_loop flag items (net, s) = Ok (net', s') /\
    exact_state (k + Z.of_nat (length items)) net' s' /\
    forall R, Forall (has_rate flag R) items ->
      Z.abs (10 ^ 14 * (sum_vat s' - sum_vat s) - (sval net' - sval net) * R)
      <= Z.of_nat (length items) * (5 * 10 ^ 23).
Proof.
  induction items as [|item rest IH]; intros k net s Hk Hlen Hst Hall.
  - exists net, s. split; [reflexivity|].
    split; [cbn [length]; rewrite Z.add_0_r; exact Hst|].
    intros R _. rewrite !Z.sub_diag. simpl. lia.
  - inversion Hall as [|? ? Hitem Hrest]; subst.
    cbn [length] in *. rewrite Nat2Z.inj_succ in *.
    destruct (totals_step_exact flag k net s item ltac:(lia) Hst Hitem)
      as (net1 & s1 & q & p & r & line & fraction & lv & rounded & Hstep & Hst1 & _ & _ & Hr
          & _ & _ & _ & _ & _ & _ & _ & _ & _ & Sn & Sv & Hround & Hval).
    set (x := sval line) in *. set (y := sval rounded) in *.
    assert (Herr : Z.abs (10 ^ 14 * y - x * sval r) <= 5 * 10 ^ 23).
    { rewrite <- Hval.
      replace (10 ^ 14 * y - 10 ^ 14 * sval lv) with (10 ^ 14 * (y - sval lv)) by ring.
      rewrite Z.abs_mul. change (Z.abs (10 ^ 14)) with 100000000000000.
      change (5 * 10 ^ 23) with 500000000000000000000000.
      change (5 * 10 ^ 9) with 5000000000 in Hround. lia. }
    destruct (IH (k + 1) net1 s1 ltac:(lia) ltac:(lia) Hst1 Hrest)
      as (net' & s' & Hloop & Hst' & Hbound).
    exists net', s'. split; [cbn [totals_loop]; rewrite Hstep; exact Hloop|].
    split.
    { replace (k + Z.succ (Z.of_nat (length rest))) with (k + 1 + Z.of_nat (length rest)) by lia.
      exact Hst'. }
    intros R HR. inversion HR as [|? ? (r' & Hr' & HRv) HR']; subst.
    rewrite Hr in Hr'. apply Ok_inj in Hr'. subst r'.
    specialize (Hbound _ HR').
    replace (10 ^ 14 * (sum_vat s' - sum_vat s) - (sval net' - sval net) * sval r)
      with ((10 ^ 14 * (sum_vat s' - sum_vat s1) - (sval net' - sval net1) * sval r)
            + (10 ^ 14 * y - x * sval r)) by (rewrite Sn, Sv; ring).
    pose proof (Z.abs_triangle
      (10 ^ 14 * (sum_vat s' - sum_vat s1) - (sval net' - sval net1) * sval r)
      (10 ^ 14 * y - x * sval r)).
    lia.
Qed.

Lemma sum_from_exact (s : vat_summary) (acc : decimal) :
  good acc -> good_summary s -> Z.abs (sval acc) + abs_vat s < 10 ^ 28 ->
  exists r,
    sum_from acc (map (fun kv => vat (snd kv)) s) = Ok r /\ good r /\
    sval r = sval acc + sum_vat s.
Proof.
  revert acc. induction s as [|[k b] r IH]; intros acc Ga Gs Hb.
  - exists acc. split; [reflexivity|]. split; [exact Ga | simpl; lia].
  - inversion Gs as [|? ? [_ G2] Gs']; subst. cbn [snd] in G2.
    cbn [abs_vat fold_right snd] in Hb. fold (abs_vat r) in Hb.
    pose proof (abs_vat_nonneg r).
    destruct (dec_add_exact acc (vat b) Ga G2 ltac:(lia)) as (acc' & Hacc & Ga' & Sa).
    destruct (IH acc' Ga' Gs' ltac:(lia)) as (res & Hres & Gres & Sres).
    exists res. cbn [map sum_from snd]. rewrite Hacc. cbn [mbind result_bind bind].
    split; [exact Hres|]. split; [exact Gres|].
    cbn [sum_vat fold_right snd]. fold (sum_vat r). lia.
Qed.

Lemma py_sum_exact (s : vat_summary) :
  good_summary s -> abs_vat s < 10 ^ 28 ->
  exists v,
    py_sum (map (fun kv => vat (snd kv)) s) = Ok v /\ good_total v /\ sval_py v = sum_vat s.
Proof.
  intros Gs Hb. destruct s as [|[k b] r].
  - exists (VInt 0). split; [reflexivity|]. split; [left; reflexivity | reflexivity].
  - inversion Gs as [|? ? [_ G2] Gs']; subst. cbn [snd] in G2.
    cbn [abs_vat fold_right snd] in Hb. fold (abs_vat r) in Hb.
    pose proof (abs_vat_nonneg r).
    assert (G0 : good (Decimal_of_int 0)) by (apply good_Finite; lia).
    destruct (dec_add_exact (vat b) (Decimal_of_int 0) G2 G0) as (acc & Hacc & Ga & Sa).
    { change (sval (Decimal_of_int 0)) with 0. lia. }
    change (sval (Decimal_of_int 0)) with 0 in Sa.
    destruct (sum_from_exact r acc Ga Gs' ltac:(lia)) as (res & Hres & Gres & Sres).
    exists (VDec res). cbn [map py_sum snd]. rewrite Hacc. cbn [mbind result_bind bind].
    rewrite Hres. cbn [mbind result_bind bind].
    split; [reflexivity|]. split; [right; eauto|].
    cbn [sval_py sum_vat fold_right snd]. fold (sum_vat r). lia.
Qed.

Lemma add_total_exact (net : decimal) (v : PyVal) :
  good net -> good_total v -> Z.abs (sval net) + Z.abs (sval_py v) < 10 ^ 28 ->
  exists gross, add_total net v = Ok gross /\ good gross /\ sval gross = sval net + sval_py v.
Proof.
  intros Gn [-> | (d & -> & Gd)] Hb; cbn [add_total sval_py] in *.
  - apply dec_add_exact; [exact Gn | apply good_Finite; lia | exact Hb].
  - apply dec_add_exact; assumption.
Qed.

Lemma abs_sum_vat (s : vat_summary) : Z.abs (sum_vat s) <= abs_vat s.
Proof.
  induction s as [|kv r IH]; [simpl; lia|].
  cbn [sum_vat abs_vat fold_right]. fold (sum_vat r) (abs_vat r). lia.
Qed.

(** Within the bounds every operation of the engine is exact. *)
Lemma calculate_totals_exact (flag : bool) (items : list (gmap string PyVal)) :
  Forall (small_item flag) items -> (length items <= 1000)%nat ->
  exists net total_vat gross summary,
    _calculate_totals items flag = Ok (net, total_vat, gross, summary) /\
    good net /\ good_total total_vat /\ good gross /\ good_summary summary /\
    sum_basis summary = sval net /\
    sum_vat summary = sval_py total_vat /\
    sval gross = sval net + sval_py total_vat /\
    forall R, Forall (has_rate flag R) items ->
      Z.abs (10 ^ 14 * sval_py total_vat - sval net * R)
      <= Z.of_nat (length items) * (5 * 10 ^ 23).
Proof.
  intros Hall Hlen.
  assert (H0 : exact_state 0 Decimal_0_0 []).
  { split; [apply good_Finite; lia|]. repeat split; try constructor; simpl; lia. }
  destruct (totals_loop_exact flag items 0 Decimal_0_0 [] ltac:(lia) ltac:(lia) H0 Hall)
    as (net & s & Hloop & (Gn & Bn & Gs & Bb & Bv & Hsum) & Hbound).
  unfold line_bound in *.
  change (10 ^ 24) with 1000000000000000000000000 in *.
  assert (Hn : Z.of_nat (length items) <= 1000) by lia.
  destruct (py_sum_exact s Gs) as (tv & Htv & Gtv & Stv).
  { change (10 ^ 28) with 10000000000000000000000000000. lia. }
  pose proof (abs_sum_vat s) as Habs.
  destruct (add_total_exact net tv Gn Gtv) as (gross & Hgross & Gg & Sg).
  { change (10 ^ 28) with 10000000000000000000000000000. lia. }
  exists net, tv, gross, s.
  split.
  { unfold _calculate_totals. rewrite Hloop. cbn [mbind result_bind bind fst snd].
    rewrite Htv. cbn [mbind result_bind bind]. rewrite Hgross. reflexivity. }
  split; [exact Gn|]. split; [exact Gtv|]. split; [exact Gg|]. split; [exact Gs|].
  split; [exact Hsum|]. split; [symmetry; exact Stv|]. split; [exact Sg|].
  intros R HR. specialize (Hbound R HR).
  change (sum_vat []) with 0 in Hbound. change (sval Decimal_0_0) with 0 in Hbound.
  rewrite !Z.sub_0_r in Hbound. rewrite Stv. exact Hbound.
Qed.

(** *** Values as rational numbers *)

Lemma dec_to_Q_sval (d : decimal) : good d -> (dec_to_Q d == sval d # units)%Q.
Proof.
  intros (s & c & e & -> & He). unfold dec_to_Q, sval, Qeq.
  destruct (Z.leb_spec 0 e) as [Hpos | Hneg]; cbn [Qnum Qden inject_Z].
  - change (Z.pos units) with (10 ^ 12). rewrite (Z.pow_add_r 10 e 12) by lia.
    destruct s; ring.
  - rewrite Z2Pos.id by (apply Z.pow_pos_nonneg; lia).
    change (Z.pos units) with (10 ^ 12).
    assert (E : 10 ^ 12 = 10 ^ (e + 12) * 10 ^ (- e)).
    { rewrite <- Z.pow_add_r by lia. f_equal. lia. }
    rewrite E. destruct s; ring.
Qed.

Lemma py_to_Q_sval (v : PyVal) : good_total v -> (py_to_Q v == sval_py v # units)%Q.
Proof.
  intros [-> | (d & -> & Gd)]; [reflexivity | apply dec_to_Q_sval, Gd].
Qed.

Lemma Qplus_units (a b : Z) : ((a # units) + (b # units) == (a + b) # units)%Q.
Proof. unfold Qeq, Qplus. cbn [Qnum Qden]. rewrite Pos2Z.inj_mul. ring. Qed.

Lemma basis_total_sval (s : vat_summary) :
  good_summary s -> (basis_total s == sum_basis s # units)%Q.
Proof.
  unfold basis_total. induction 1 as [|kv r [G1 _] _ IH]; [reflexivity|].
  cbn [map Qsum fold_right sum_basis]. fold (Qsum (map (fun kv => dec_to_Q (basis (snd kv))) r)).
  fold (sum_basis r). rewrite IH, (dec_to_Q_sval _ G1). apply Qplus_units.
Qed.

Lemma vat_total_sval (s : vat_summary) :
  good_summary s -> (vat_total s == sum_vat s # units)%Q.
Proof.
  unfold vat_total. induction 1 as [|kv r [_ G2] _ IH]; [reflexivity|].
  cbn [map Qsum fold_right sum_vat]. fold (Qsum (map (fun kv => dec_to_Q (vat (snd kv))) r)).
  fold (sum_vat r). rewrite IH, (dec_to_Q_sval _ G2). apply Qplus_units.
Qed.

(** X8: for up to a thousand items whose quantities and unit prices are
    below one million with at most four decimal places, and whose rates are
    below 100 with at most two places, the engine returns totals, and they
    add up exactly: the basis amounts of the buckets to the net total, the
    VAT amounts of the buckets to the total VAT, and the net total and the
    total VAT to the gross total. *)
Theorem bucket_sums_exact (flag : bool) (items : list (gmap string PyVal)) :
  Forall (small_item flag) items -> (length items <= 1000)%nat ->
  exists net total_vat gross summary,
    _calculate_totals items flag = Ok (net, total_vat, gross, summary) /\
    (basis_total summary == dec_to_Q net)%Q /\
    (vat_total summary == py_to_Q total_vat)%Q /\
    (dec_to_Q gross == dec_to_Q net + py_to_Q total_vat)%Q.
Proof.
  intros Hall Hlen.
  destruct (calculate_totals_exact flag items Hall Hlen)
    as (net & tv & gross & s & Hc & Gn & Gtv & Gg & Gs & Sb & Sv & Sg & _).
  exists net, tv, gross, s. split; [exact Hc|].
  rewrite (basis_total_sval s Gs), (vat_total_sval s Gs), (dec_to_Q_sval net Gn),
    (dec_to_Q_sval gross Gg), (py_to_Q_sval tv Gtv), Sb, Sv, Sg, Qplus_units.
  repeat split; reflexivity.
Qed.

Ltac small_dec :=
  eexists _, _, _; split; [vm_compute; reflexivity | split; [lia | vm_compute; reflexivity]].

Ltac small_item_tac :=
  eexists _, _, _;
  split; [vm_compute; reflexivity|]; split; [vm_compute; reflexivity|];
  split; [vm_compute; reflexivity|]; split; [small_dec|]; split; small_dec.

Lemma bucket_sums_exact_witness :
  exists net total_vat gross summary,
    _calculate_totals three_lines false = Ok (net, total_vat, gross, summary) /\
    (basis_total summary == dec_to_Q net)%Q /\
    (vat_total summary == py_to_Q total_vat)%Q /\
    (dec_to_Q gross == dec_to_Q net + py_to_Q total_vat)%Q.
Proof.
  apply (bucket_sums_exact false three_lines).
  - repeat constructor; small_item_tac.
  - simpl. lia.
Defined.

(** *** The gross total against the rate applied to the net total *)

Lemma small_rate_good (r : decimal) : small_rate r -> good r.
Proof. intros (s & c & e & -> & He & _). apply good_Finite. lia. Qed.

Lemma gross_error_Q (G N R z : Z) (n : nat) :
  z = 10 ^ 14 * (G - N) - N * R ->
  Z.abs z <= Z.of_nat n * (5 * 10 ^ 23) ->
  (Qabs ((G # units) - ((N # units) + (N # units) * (R # units) / (100 # 1)))
   <= inject_Z (Z.of_nat n) * (1 # 200))%Q.
Proof.
  intros Hz Hb.
  assert (E : ((G # units) - ((N # units) + (N # units) * (R # units) / (100 # 1))
               == z # 100000000000000000000000000)%Q).
  { subst z. unfold Qdiv, Qinv. cbn [Qnum Qden].
    unfold Qeq, Qminus, Qplus, Qopp, Qmult. cbn [Qnum Qden].
    rewrite !Pos2Z.inj_mul. change (Z.pos units) with 1000000000000.
    change (10 ^ 14) with 100000000000000. ring. }
  rewrite E. unfold Qabs, Qle. cbn [Qnum Qden inject_Z Qmult].
  change (5 * 10 ^ 23) with 500000000000000000000000 in Hb. lia.
Qed.

(** X9: when all items store the same rate (and the bounds of X8 hold),
    the gross total differs from the net total plus the rate applied to it
    by at most half a cent for every line: each line rounds its own VAT to
    cents, half up, before the amounts are added. *)
Theorem gross_error_bound (items : list (gmap string PyVal)) (rate : decimal) :
  Forall (small_item false) items -> (length items <= 1000)%nat ->
  Forall (fun item => item_decimal item "vat_rate" = Ok rate) items ->
  exists net total_vat gross summary,
    _calculate_totals items false = Ok (net, total_vat, gross, summary) /\
    (Qabs (dec_to_Q gross - (dec_to_Q net + dec_to_Q net * dec_to_Q rate / (100 # 1)))
     <= inject_Z (Z.of_nat (length items)) * (1 # 200))%Q.
Proof.
  intros Hall Hlen Hrate.
  destruct (calculate_totals_exact false items Hall Hlen)
    as (net & tv & gross & s & Hc & Gn & Gtv & Gg & Gs & Sb & Sv & Sg & Hbound).
  exists net, tv, gross, s. split; [exact Hc|].
  destruct items as [|item rest].
  - unfold _calculate_totals in Hc. cbn in Hc. apply Ok_inj in Hc.
    injection Hc as <- <- <- <-. vm_compute. discriminate.
  - assert (Gr : good rate).
    { inversion Hall as [|? ? (q & p & r & _ & _ & Hr & _ & _ & Sr) _]; subst.
      inversion Hrate as [|? ? Hr' _]; subst.
      unfold effective_rate in Hr. rewrite Hr' in Hr. apply Ok_inj in Hr. subst r.
      apply small_rate_good, Sr. }
    assert (HR : Forall (has_rate false (sval rate)) (item :: rest)).
    { eapply Forall_impl; [exact Hrate|]. intros i Hi. exists rate. split; [exact Hi | reflexivity]. }
    specialize (Hbound _ HR).
    rewrite (dec_to_Q_sval gross Gg), (dec_to_Q_sval net Gn), (dec_to_Q_sval rate Gr).
    eapply gross_error_Q; [reflexivity|].
    rewrite Sg. replace (sval net + sval_py tv - sval net) with (sval_py tv) by ring.
    exact Hbound.
Qed.

Lemma gross_error_bound_witness :
  exists net total_vat gross summary,
    _calculate_totals three_cents false = Ok (net, total_vat, gross, summary) /\
    (Qabs (dec_to_Q gross
           - (dec_to_Q net + dec_to_Q net * dec_to_Q (Finite false 19 0) / (100 # 1)))
     <= inject_Z (Z.of_nat (length three_cents)) * (1 # 200))%Q.
Proof.
  apply (gross_error_bound three_cents (Finite false 19 0)).
  - repeat constructor; small_item_tac.
  - simpl. lia.
  - repeat constructor.
Defined.

(** ** Dates *)

(** A match on the hyphen succeeds only for the hyphen. *)
Lemma dash_match {A : Type} (b : ascii) (X : option A) (v : A) :
  match b with "-"%char => X | _ => None end = Some v -> b = "-"%char /\ X = Some v.
Proof.
  destruct b as [[] [] [] [] [] [] [] []]; intros H; try discriminate H.
  split; [reflexivity | exact H].
Qed.

Lemma parse_month_inv (l r : list ascii) (m : Z) :
  parse_month l = Some (m, r) ->
  1 <= m <= 12 /\
  ((exists a b, l = a :: b :: "-"%char :: r /\ is_digit a = true /\ is_digit b = true /\
                m = Z.of_N (N_of_digits [a; b])) \/
   (exists a, l = a :: "-"%char :: r /\ is_digit a = true /\ a <> "0"%char /\
              m = Z.of_N (digit_val a))).
Proof.
  intros H.
  destruct l as [|a [|b [|c r']]]; try discriminate H.
  - (* two characters *)
    cbn in H. apply dash_match in H as [-> H].
    destruct (is_digit a) eqn:Ea; [|discriminate H].
    destruct (Ascii.eqb a "0") eqn:E0; [discriminate H|].
    cbn in H. injection H as <- <-.
    apply Ascii.eqb_neq in E0.
    split; [digit_cases a Ea; first [congruence | (split; vm_compute; discriminate)]|].
    right. exists a. auto.
  - (* three characters or more *)
    destruct (ascii_dec c "-"%char) as [-> | Hc].
    + assert (E : parse_month (a :: b :: "-"%char :: r') =
                  if is_digit a && is_digit b then
                    if (1 <=? Z.of_N (N_of_digits [a; b])) && (Z.of_N (N_of_digits [a; b]) <=? 12)
                    then Some (Z.of_N (N_of_digits [a; b]), r') else None
                  else None).
      { destruct b as [[] [] [] [] [] [] [] []]; reflexivity. }
      rewrite E in H. clear E.
      destruct (is_digit a && is_digit b) eqn:Eab; [|discriminate H].
      apply andb_prop in Eab as [Ea Eb].
      destruct ((1 <=? Z.of_N (N_of_digits [a; b])) && (Z.of_N (N_of_digits [a; b]) <=? 12)) eqn:Er;
        [|discriminate H].
      injection H as <- <-. apply andb_prop in Er as [H1 H2].
      apply Z.leb_le in H1, H2. split; [lia|]. left. exists a, b. auto.
    + assert (H' : match b with
                   | "-"%char =>
                       if is_digit a && negb (Ascii.eqb a "0"%char)
                       then Some (Z.of_N (digit_val a), c :: r') else None
                   | _ => None
                   end = Some (m, r)).
      { rewrite <- H. clear H.
        destruct c as [[] [] [] [] [] [] [] []]; first [congruence | reflexivity]. }
      apply dash_match in H' as [-> H'].
      destruct (is_digit a) eqn:Ea; [|discriminate H'].
      destruct (Ascii.eqb a "0") eqn:E0; [discriminate H'|].
      cbn in H'. injection H' as <- <-.
      apply Ascii.eqb_neq in E0.
      split; [digit_cases a Ea; first [congruence | (split; vm_compute; discriminate)]|].
      right. exists a. auto.
Qed.

Lemma digit_val_bound (a : ascii) : is_digit a = true -> (digit_val a <= 9)%N.
Proof. intros H. digit_cases a H; vm_compute; discriminate. Qed.

Lemma digit_val_pos (a : ascii) :
  is_digit a = true -> a <> "0"%char -> (1 <= digit_val a)%N.
Proof. intros H Ha. digit_cases a H; first [congruence | vm_compute; discriminate]. Qed.

Lemma fold_digits_bound (l : list ascii) (a : N) :
  Forall (fun c => is_digit c = true) l ->
  (fold_left digit_step l a < (a + 1) * 10 ^ N.of_nat (length l))%N.
Proof.
  intros H. revert a. induction H as [|d l Hd _ IH]; intros a.
  - simpl. lia.
  - cbn [fold_left length]. rewrite Nat2N.inj_succ, N.pow_succ_r'.
    specialize (IH (digit_step a d)). pose proof (digit_val_bound d Hd).
    unfold digit_step in *.
    assert (0 < 10 ^ N.of_nat (length l))%N by (apply N.neq_0_lt_0, N.pow_nonzero; discriminate).
    nia.
Qed.

Lemma N_of_digits_bound (l : list ascii) :
  Forall (fun c => is_digit c = true) l -> (N_of_digits l < 10 ^ N.of_nat (length l))%N.
Proof.
  intros H. pose proof (fold_digits_bound l 0 H) as Hb. rewrite N_of_digits_fold. lia.
Qed.

Lemma parse_day_inv (l : list ascii) (d : Z) :
  parse_day l = Some d ->
  1 <= d <= 31 /\
  ((exists a b, l = [a; b] /\ is_digit a = true /\ is_digit b = true /\
                d = Z.of_N (N_of_digits [a; b])) \/
   (exists b, l = [" "%char; b] /\ is_digit b = true /\ b <> "0"%char /\
              d = Z.of_N (digit_val b)) \/
   (exists a, l = [a] /\ is_digit a = true /\ a <> "0"%char /\ d = Z.of_N (digit_val a))).
Proof.
  intros H. destruct l as [|a [|b [|c r]]]; try discriminate H.
  - cbn [parse_day] in H.
    destruct (is_digit a) eqn:Ea; [|discriminate H].
    destruct (Ascii.eqb a "0") eqn:E0; [discriminate H|].
    cbn in H. injection H as <-. apply Ascii.eqb_neq in E0.
    pose proof (digit_val_bound a Ea). pose proof (digit_val_pos a Ea E0).
    split; [lia|]. right. right. exists a. auto.
  - cbn [parse_day] in H.
    destruct (is_digit a && is_digit b) eqn:Eab.
    + apply andb_prop in Eab as [Ea Eb].
      destruct ((1 <=? Z.of_N (N_of_digits [a; b])) && (Z.of_N (N_of_digits [a; b]) <=? 31)) eqn:Er;
        [|discriminate H].
      injection H as <-. apply andb_prop in Er as [H1 H2]. apply Z.leb_le in H1, H2.
      split; [lia|]. left. exists a, b. auto.
    + destruct (Ascii.eqb a " ") eqn:Esp; [|discriminate H].
      destruct (is_digit b) eqn:Eb; [|discriminate H].
      destruct (Ascii.eqb b "0") eqn:E0; [discriminate H|].
      cbn in H. injection H as <-.
      apply Ascii.eqb_eq in Esp. apply Ascii.eqb_neq in E0. subst a.
      pose proof (digit_val_bound b Eb). pose proof (digit_val_pos b Eb E0).
      split; [lia|]. right. left. exists b. auto.
Qed.

Lemma parse_ymd_inv (l : list ascii) (d : date) :
  parse_ymd l = Some d ->
  exists y1 y2 y3 y4 r r',
    l = y1 :: y2 :: y3 :: y4 :: "-"%char :: r /\
    Forall (fun c => is_digit c = true) [y1; y2; y3; y4] /\
    parse_month r = Some (month d, r') /\
    parse_day r' = Some (day d) /\
    year d = Z.of_N (N_of_digits [y1; y2; y3; y4]) /\
    1 <= year d /\ day d <= days_in_month (year d) (month d).
Proof.
  intros H. destruct l as [|y1 [|y2 [|y3 [|y4 [|h r]]]]]; try discriminate H.
  cbn [parse_ymd] in H. apply dash_match in H as [-> H].
  destruct (is_digit y1 && is_digit y2 && is_digit y3 && is_digit y4) eqn:Ey; [|discriminate H].
  apply andb_prop in Ey as [Ey E4]. apply andb_prop in Ey as [Ey E3].
  apply andb_prop in Ey as [E1 E2].
  destruct (parse_month r) as [[m r']|] eqn:Em; [|discriminate H].
  destruct (parse_day r') as [dd|] eqn:Ed; [|discriminate H].
  cbv zeta in H.
  destruct ((1 <=? Z.of_N (N_of_digits [y1; y2; y3; y4])) &&
            (dd <=? days_in_month (Z.of_N (N_of_digits [y1; y2; y3; y4])) m)) eqn:Er;
    [|discriminate H].
  injection H as <-. apply andb_prop in Er as [H1 H2]. apply Z.leb_le in H1, H2.
  exists y1, y2, y3, y4, r, r'. cbn [year month day].
  split; [reflexivity|]. split; [repeat constructor; assumption|]. auto.
Qed.

(** X10: the date of the trade document is a date of the calendar.  When
    the serializer returns a document, the invoice date of the form (today
    if the form has none) was accepted by [strptime]: its year is between 1
    and 9999, its month between 1 and 12 and its day exists in that month,
    and the element DateTimeString holds that date in format 102. *)
Theorem issue_date_valid (e : env) (fd : gmap string PyVal)
    (items : list (gmap string PyVal)) (x : xml) :
  _generate_zugferd_xml e fd items = Ok x ->
  exists d,
    strptime (dict_get_default fd "invoice_date" (VStr (today e))) = Ok d /\
    text_at [rsm "ExchangedDocument"; ram "IssueDateTime"; udt "DateTimeString"] x
      = Some (VStr (strftime d)) /\
    1 <= year d <= 9999 /\ 1 <= month d <= 12 /\
    1 <= day d <= days_in_month (year d) (month d).
Proof.
  unfold _generate_zugferd_xml. intros H. inv_bind H.
  match goal with Hx : strptime _ = Ok ?a |- _ => rename a into d; rename Hx into Hd end.
  exists d. split; [exact Hd|].
  inv_bind H. destruct a as [[[net vat] gross] summary].
  inv_bind H. inv_bind H. inv_bind H. unfold tostring in H.
  match type of H with (if ?c then _ else _) = _ => destruct c; [|discriminate H] end.
  apply Ok_inj in H. subst x. split; [reflexivity|].
  unfold strptime in Hd.
  destruct (dict_get_default fd "invoice_date" (VStr (today e))) as [| | |s|]; try discriminate Hd.
  destruct (parse_ymd (PyStr.chars s)) as [d'|] eqn:Ep; [|discriminate Hd].
  apply Ok_inj in Hd. subst d'.
  destruct (parse_ymd_inv _ _ Ep) as (y1 & y2 & y3 & y4 & r & r' & _ & Hy & Hm & Hday & Hyear & H1 & Hdim).
  pose proof (N_of_digits_bound _ Hy) as Hb. cbn [length] in Hb.
  destruct (parse_month_inv _ _ _ Hm) as [Hmr _].
  destruct (parse_day_inv _ _ Hday) as [Hdr _].
  change (10 ^ N.of_nat 4)%N with 10000%N in Hb. lia.
Qed.

Lemma issue_date_valid_witness :
  exists x d,
    _generate_zugferd_xml sample_env sample_form consulting = Ok x /\
    strptime (dict_get_default sample_form "invoice_date" (VStr (today sample_env))) = Ok d /\
    text_at [rsm "ExchangedDocument"; ram "IssueDateTime"; udt "DateTimeString"] x
      = Some (VStr (strftime d)) /\
    1 <= year d <= 9999 /\ 1 <= month d <= 12 /\
    1 <= day d <= days_in_month (year d) (month d).
Proof.
  eexists. 
  destruct (issue_date_valid sample_env sample_form consulting _ ltac:(vm_compute; reflexivity))
    as (d & H).
  exists d. split; [vm_compute; reflexivity | exact H].
Defined.

(** *** The digits of a number written with digits *)

Lemma digits_fuel_acc (fuel : nat) (c : N) (acc : list ascii) :
  digits_fuel fuel c acc = digits_fuel fuel c [] ++ acc.
Proof.
  revert c acc. induction fuel as [|f IH]; intros c acc; [reflexivity|].
  cbn [digits_fuel]. destruct (c <? 10)%N; [reflexivity|].
  rewrite (IH _ (_ :: acc)), (IH _ [_]), <- app_assoc. reflexivity.
Qed.

Lemma digits_fuel_more (fuel : nat) (c : N) (acc : list ascii) :
  (c < 2 ^ N.of_nat fuel)%N -> digits_fuel (S fuel) c acc = digits_fuel fuel c acc.
Proof.
  revert c acc. induction fuel as [|f IH]; intros c acc Hc.
  - simpl in Hc. assert (c = 0%N) by lia. subst c. reflexivity.
  - change (digits_fuel (S (S f)) c acc)
      with (if (c <? 10)%N then digit_char c :: acc
            else digits_fuel (S f) (c / 10)%N (digit_char (c mod 10) :: acc)).
    cbn [digits_fuel]. destruct (c <? 10)%N; [reflexivity|].
    apply IH. rewrite Nat2N.inj_succ, N.pow_succ_r' in Hc.
    apply N.Div0.div_lt_upper_bound. lia.
Qed.

Lemma digits_fuel_enough (f1 f2 : nat) (c : N) (acc : list ascii) :
  (c < 2 ^ N.of_nat f1)%N -> (c < 2 ^ N.of_nat f2)%N ->
  digits_fuel f1 c acc = digits_fuel f2 c acc.
Proof.
  assert (Hle : forall k f, (c < 2 ^ N.of_nat f)%N ->
                  digits_fuel (k + f) c acc = digits_fuel f c acc).
  { induction k as [|k IH]; intros f Hf; [reflexivity|].
    cbn [Nat.add]. rewrite digits_fuel_more; [apply IH, Hf|].
    eapply N.lt_le_trans; [exact Hf|]. apply N.pow_le_mono_r; [discriminate | lia]. }
  intros H1 H2. destruct (Nat.le_ge_cases f1 f2) as [H | H].
  - replace f2 with ((f2 - f1) + f1)%nat by lia. symmetry. apply Hle, H1.
  - replace f1 with ((f1 - f2) + f2)%nat by lia. apply Hle, H2.
Qed.

Lemma digits_small (c : N) : (c < 10)%N -> digits c = [digit_char c].
Proof.
  intros Hc. unfold digits. destruct (N.to_nat (N.size c)) as [|f] eqn:E.
  - assert (c = 0%N) by (destruct c; [reflexivity | simpl in E; lia]). subst c. reflexivity.
  - cbn [digits_fuel]. destruct (N.ltb_spec c 10); [reflexivity | lia].
Qed.

Lemma digits_step (c : N) :
  (10 <= c)%N -> digits c = digits (c / 10) ++ [digit_char (c mod 10)].
Proof.
  intros Hc. unfold digits.
  pose proof (N.size_gt c) as Hs.
  destruct (N.to_nat (N.size c)) as [|f] eqn:E.
  - assert (N.size c = 0%N) by lia. rewrite H in Hs. simpl in Hs. lia.
  - assert (Hf : N.size c = N.of_nat (S f)) by lia. rewrite Hf in Hs.
    cbn [digits_fuel]. destruct (N.ltb_spec c 10); [lia|].
    rewrite digits_fuel_acc. f_equal.
    apply digits_fuel_enough.
    + rewrite Nat2N.inj_succ, N.pow_succ_r' in Hs.
      apply N.Div0.div_lt_upper_bound. lia.
    + rewrite N2Nat.id. apply N.size_gt.
Qed.

Lemma digit_char_val (a : ascii) : is_digit a = true -> digit_char (digit_val a) = a.
Proof. intros H. digit_cases a H; reflexivity. Qed.

Lemma N_of_digits_leading (h : ascii) (t : list ascii) :
  is_digit h = true -> h <> "0"%char -> (1 <= N_of_digits (h :: t))%N.
Proof.
  intros Hh H0. change (h :: t) with ([h] ++ t). rewrite N_of_digits_app.
  pose proof (digit_val_pos h Hh H0).
  assert (0 < 10 ^ N.of_nat (length t))%N by (apply N.neq_0_lt_0, N.pow_nonzero; discriminate).
  change (N_of_digits [h]) with (10 * 0 + digit_val h)%N. nia.
Qed.

(** [str(int(s)) == s] for a string of digits that does not start with a
    zero, and for a single digit. *)
Lemma digits_of_digits (l : list ascii) :
  l <> [] -> Forall (fun c => is_digit c = true) l ->
  (length l = 1%nat \/ head l <> Some "0"%char) ->
  digits (N_of_digits l) = l.
Proof.
  induction l as [|d l' IH] using rev_ind; intros Hne Hall Hlead; [congruence|].
  apply Forall_app in Hall as [Hl' Hd]. inversion Hd as [|? ? Hd' _]; subst.
  destruct l' as [|h t].
  - cbn [app]. change (N_of_digits [d]) with (10 * 0 + digit_val d)%N.
    rewrite N.mul_0_r, N.add_0_l.
    rewrite digits_small by (pose proof (digit_val_bound d Hd'); lia).
    rewrite digit_char_val by exact Hd'. reflexivity.
  - assert (Hh : head (h :: t) <> Some "0"%char).
    { destruct Hlead as [Hlen | Hlead]; [|exact Hlead].
      rewrite length_app in Hlen. simpl in Hlen. lia. }
    inversion Hl' as [|? ? Hhd _]; subst.
    assert (Hh0 : h <> "0"%char) by (intros ->; apply Hh; reflexivity).
    pose proof (N_of_digits_leading h t Hhd Hh0) as Hge.
    pose proof (digit_val_bound d Hd') as Hdb.
    rewrite N_of_digits_app. change (N_of_digits [d]) with (10 * 0 + digit_val d)%N.
    change (10 ^ N.of_nat (length [d]))%N with 10%N.
    rewrite N.mul_0_r, N.add_0_l.
    set (n := N_of_digits (h :: t)) in *.
    assert (Hdiv : ((n * 10 + digit_val d) / 10 = n)%N).
    { symmetry. apply (N.div_unique _ 10 n (digit_val d)); lia. }
    assert (Hmod : ((n * 10 + digit_val d) mod 10 = digit_val d)%N).
    { symmetry. apply (N.mod_unique _ 10 n (digit_val d)); lia. }
    rewrite digits_step by lia. rewrite Hdiv, Hmod.
    rewrite IH; [|discriminate | exact Hl' | right; exact Hh].
    rewrite digit_char_val by exact Hd'. reflexivity.
Qed.

Lemma pad2_digits (a b : ascii) :
  is_digit a = true -> is_digit b = true ->
  pad 2 (Z.of_N (N_of_digits [a; b])) = [a; b].
Proof.
  intros Ha Hb. digit_cases a Ha; digit_cases b Hb; reflexivity.
Qed.

(** X11: a date in the form's ISO notation, four digits of a year from 1000
    on, two of the month and two of the day between hyphens, is written to
    the trade document as the same digits without the hyphens. *)
Theorem iso_date_without_hyphens (y1 y2 y3 y4 m1 m2 d1 d2 : ascii) (d : date) :
  strptime (VStr (PyStr.str [y1; y2; y3; y4; "-"; m1; m2; "-"; d1; d2]%char)) = Ok d ->
  y1 <> "0"%char -> d1 <> " "%char ->
  strftime d = PyStr.str [y1; y2; y3; y4; m1; m2; d1; d2].
Proof.
  intros H Hy1 Hd1. unfold strptime in H. rewrite chars_str in H.
  destruct (parse_ymd _) as [d'|] eqn:Ep; [|discriminate H].
  apply Ok_inj in H. subst d'.
  destruct (parse_ymd_inv _ _ Ep) as (a1 & a2 & a3 & a4 & r & r' & Hl & Hy & Hm & Hday & Hyear & _ & _).
  injection Hl as <- <- <- <- <-.
  destruct (parse_month_inv _ _ _ Hm) as [_ [(a & b & Hr & Ha & Hb & Hmv) | (a & Hr & _)]].
  - injection Hr as <- <- <-.
    destruct (parse_day_inv _ _ Hday) as [_ [(a & b & Hr & Ha' & Hb' & Hdv) | [(b & Hr & _) | (a & Hr & _)]]].
    + injection Hr as <- <-.
      unfold strftime. rewrite Hyear, Hmv, Hdv. rewrite !pad2_digits by assumption.
      unfold pad. rewrite N2Z.id, digits_of_digits.
      * reflexivity.
      * discriminate.
      * exact Hy.
      * right. cbn. congruence.
    + injection Hr as -> _. congruence.
    + discriminate Hr.
  - injection Hr as <- -> <-.
    destruct (parse_day_inv _ _ Hday) as [_ [(a' & b & Hr & _) | [(b & Hr & _) | (a' & Hr & _)]]];
      discriminate Hr.
Qed.

Lemma iso_date_without_hyphens_witness :
  exists d,
    strptime (VStr "2024-05-06") = Ok d /\ strftime d = "20240506".
Proof.
  eexists. split; [vm_compute; reflexivity|].
  apply (iso_date_without_hyphens "2" "0" "2" "4" "0" "5" "0" "6");
    [vm_compute; reflexivity | discriminate | discriminate].
Defined.

(** ** Formatted amounts *)

Lemma replace_map (old new : ascii) (l : list ascii) :
  PyStr.replace old [new] l = map (replace_char old new) l.
Proof.
  unfold PyStr.replace, replace_char. induction l as [|a r IH]; [reflexivity|].
  simpl. rewrite IH. destruct (Ascii.eqb a old); reflexivity.
Qed.

Lemma format_currency_map (d : decimal) :
  format_currency d = PyStr.str (map sep_swap (format_2f d)).
Proof.
  unfold format_currency. rewrite !replace_map, !map_map. reflexivity.
Qed.

Lemma sep_swap_digit (a : ascii) : is_digit a = true -> sep_swap a = a.
Proof. intros H. digit_cases a H; reflexivity. Qed.

Lemma map_sep_swap_digits (l : list ascii) :
  Forall (fun a => is_digit a = true) l -> map sep_swap l = l.
Proof.
  induction 1 as [|a r Ha _ IH]; [reflexivity|]. simpl. rewrite (sep_swap_digit a Ha), IH. reflexivity.
Qed.

Lemma group3_map (f : ascii -> ascii) (sep : ascii) (n : nat) :
  forall l, (length l <= n)%nat -> map f (group3 l sep) = group3 (map f l) (f sep).
Proof.
  induction n as [|n IH]; intros l Hl.
  - destruct l; [reflexivity | simpl in Hl; lia].
  - destruct l as [|a [|b [|c [|d r]]]]; try reflexivity.
    change (group3 (a :: b :: c :: d :: r) sep) with (a :: b :: c :: sep :: group3 (d :: r) sep).
    change (group3 (map f (a :: b :: c :: d :: r)) (f sep))
      with (f a :: f b :: f c :: f sep :: group3 (map f (d :: r)) (f sep)).
    change (map f (a :: b :: c :: sep :: group3 (d :: r) sep))
      with (f a :: f b :: f c :: f sep :: map f (group3 (d :: r) sep)).
    do 4 f_equal. apply IH. simpl in *. lia.
Qed.

Lemma insert_thousands_sep_swap (ds : list ascii) :
  Forall (fun a => is_digit a = true) ds ->
  map sep_swap (insert_thousands_sep ds ","%char) = insert_thousands_sep ds "."%char.
Proof.
  intros H. unfold insert_thousands_sep.
  rewrite (List.map_rev sep_swap (group3 (rev ds) ","%char)).
  rewrite (group3_map sep_swap ","%char (length (rev ds))) by lia.
  rewrite (List.map_rev sep_swap ds), (map_sep_swap_digits ds H). reflexivity.
Qed.

(** What [format(d, ",.2f")] writes for a finite number: the number
    rounded to cents, as a sign, the digits of the euros in groups of three
    and the two digits of the cents. *)
Lemma format_2f_cents (s : bool) (c : N) (e : Z) :
  exists c' ip fp,
    rescale ROUND_HALF_EVEN (Finite s c e) (-2) = Finite s c' (-2) /\
    format_2f (Finite s c e) =
      sign_chars s ++ insert_thousands_sep ip ","%char ++ "."%char :: fp /\
    ip <> [] /\
    Forall (fun a => is_digit a = true) ip /\
    Forall (fun a => is_digit a = true) fp /\
    length fp = 2%nat /\
    N_of_digits (ip ++ fp) = c'.
Proof.
  destruct (rescale_finite ROUND_HALF_EVEN s c e (-2)) as [c' E].
  exists c'. unfold format_2f. rewrite E. fold (sign_chars s).
  destruct (digits_spec c') as (Hne & Hall & Hval).
  set (int := digits c') in *.
  set (len := Z.of_nat (length int)).
  assert (Hlen : 1 <= len) by (unfold len; destruct int; [congruence | simpl; lia]).
  destruct (Z.ltb_spec (-2 + len) 0) as [Hone | Hmore].
  - assert (Hl1 : len = 1) by lia. rewrite Hl1.
    change (PyStr.zeros (- (-2 + 1))) with ["0"%char]. cbn [app].
    exists ["0"%char], ("0"%char :: int).
    split; [reflexivity|]. split; [reflexivity|]. split; [discriminate|].
    split; [repeat constructor|]. split; [constructor; [reflexivity | exact Hall]|].
    split; [cbn [length]; unfold len in Hl1; lia|].
    change ("0"%char :: int) with (["0"%char] ++ int).
    rewrite !N_of_digits_app, Hval. reflexivity.
  - destruct (Z.ltb_spec len (-2 + len)) as [Habs | _]; [lia|].
    assert (Hfl : length (drop (Z.to_nat (-2 + len)) int) = 2%nat).
    { rewrite length_drop. unfold len in *. lia. }
    destruct (drop (Z.to_nat (-2 + len)) int) as [|f1 fr] eqn:Ef; [discriminate Hfl|].
    assert (Hfd : Forall (fun a => is_digit a = true) (f1 :: fr)).
    { rewrite <- Ef. apply Forall_drop, Hall. }
    destruct (take (Z.to_nat (-2 + len)) int) as [|t1 tr] eqn:Et.
    + exists ["0"%char], (f1 :: fr).
      split; [reflexivity|]. split; [reflexivity|]. split; [discriminate|].
      split; [repeat constructor|]. split; [exact Hfd|]. split; [exact Hfl|].
      assert (Hint : f1 :: fr = int).
      { rewrite <- (take_drop (Z.to_nat (-2 + len)) int), Et, Ef. reflexivity. }
      rewrite Hint, N_of_digits_app, Hval. reflexivity.
    + exists (t1 :: tr), (f1 :: fr).
      split; [reflexivity|]. split; [reflexivity|]. split; [discriminate|].
      split; [rewrite <- Et; apply Forall_take, Hall|]. split; [exact Hfd|].
      split; [exact Hfl|].
      rewrite <- Et, <- Ef, take_drop. exact Hval.
Qed.

(** X12: an amount is shown in the German notation.  For every finite
    amount [format_currency] writes the amount rounded to cents (half
    even): the sign, the digits of the euros in groups of three separated
    by points, a comma and the two digits of the cents. *)
Theorem format_currency_german (s : bool) (c : N) (e : Z) :
  exists c' euros cents,
    rescale ROUND_HALF_EVEN (Finite s c e) (-2) = Finite s c' (-2) /\
    format_currency (Finite s c e) =
      PyStr.str (sign_chars s ++ insert_thousands_sep euros "."%char ++ ","%char :: cents) /\
    euros <> [] /\
    Forall (fun a => is_digit a = true) euros /\
    Forall (fun a => is_digit a = true) cents /\
    length cents = 2%nat /\
    N_of_digits (euros ++ cents) = c'.
Proof.
  destruct (format_2f_cents s c e) as (c' & ip & fp & E & Hf & Hne & Hip & Hfp & Hlen & Hval).
  exists c', ip, fp. split; [exact E|].
  split; [|auto].
  rewrite format_currency_map, Hf, !map_app. cbn [map].
  rewrite (insert_thousands_sep_swap ip Hip), (map_sep_swap_digits fp Hfp).
  destruct s; reflexivity.
Qed.

(** ** The name of the PDF file *)

Lemma kept_harmless (table : N -> bool) (c : N) : kept table c = true -> harmless c.
Proof.
  unfold kept, isalnum, harmless. intros H Hc.
  apply N.ltb_lt in Hc. rewrite Hc in H.
  apply orb_prop in H as [H | H]; [apply orb_prop in H as [H | H]|].
  - left. exact H.
  - right. left. apply N.eqb_eq, H.
  - right. right. apply N.eqb_eq, H.
Qed.

Lemma kept_not_space (table : N -> bool) (c : N) : kept table c = true -> c <> 32%N.
Proof. intros H ->. discriminate H. Qed.

Lemma safe_filename_harmless (table : N -> bool) (name : list N) :
  Forall harmless (safe_filename table name).
Proof.
  unfold safe_filename. apply List.Forall_forall. intros c Hc.
  apply List.filter_In in Hc as [_ Hk]. eapply kept_harmless, Hk.
Qed.

Lemma safe_filename_idem (table : N -> bool) (name : list N) :
  safe_filename table (safe_filename table name) = safe_filename table name.
Proof.
  unfold safe_filename.
  set (l := List.filter (kept table) (replace_spaces name)).
  assert (Hl : Forall (fun c => kept table c = true) l).
  { apply List.Forall_forall. intros c Hc. apply List.filter_In in Hc as [_ Hk]. exact Hk. }
  clearbody l. induction Hl as [|c r Hc _ IH]; [reflexivity|].
  cbn [replace_spaces map List.filter].
  destruct (N.eqb_spec c 32) as [-> | _]; [discriminate Hc|].
  rewrite Hc. f_equal. exact IH.
Qed.

(** X13: the name under which the PDF is stored.  For every name typed by
    the user the route stores the file under the generated name or under a
    non-empty stem followed by .pdf; every character of the stem is a
    letter, a digit, a hyphen or an underscore (or a character outside
    ASCII), so it holds no path separator, no dot, no colon and no NUL; and
    sanitizing a sanitized name changes nothing. *)
Theorem pdf_filename_sanitized (table : N -> bool) (name generated : list N) :
  (pdf_filename table (FieldText name) generated = Ok generated \/
   exists stem,
     pdf_filename table (FieldText name) generated = Ok (stem ++ dot_pdf) /\
     stem <> [] /\ stem = safe_filename table name /\
     Forall harmless stem /\
     Forall (fun c => ~ In c [0; 46; 47; 58; 92]%N) stem) /\
  safe_filename table (safe_filename table name) = safe_filename table name.
Proof.
  split; [|apply safe_filename_idem].
  destruct name as [|c0 name']; [left; reflexivity|].
  cbn [pdf_filename]. pose proof (safe_filename_harmless table (c0 :: name')) as Hh.
  destruct (safe_filename table (c0 :: name')) as [|s0 stem] eqn:E; [left; reflexivity|].
  right. exists (s0 :: stem). split; [reflexivity|]. split; [discriminate|].
  split; [reflexivity|]. split; [exact Hh|].
  eapply Forall_impl; [exact Hh|]. intros c Hc Hin.
  cbn [In] in Hin.
  destruct Hin as [<- | [<- | [<- | [<- | [<- | []]]]]];
    (destruct Hc as [Hc | [Hc | Hc]]; [reflexivity | discriminate Hc ..]).
Qed.

(** ** The items of the form *)

Lemma store_field_indices (index : Z) (field : string) (value : PyVal) (s : item_store) :
  map fst (store_field index field value s) = map fst s /\ In index (map fst s) \/
  map fst (store_field index field value s) = map fst s ++ [index] /\ ~ In index (map fst s).
Proof.
  induction s as [|[i item] r IH]; cbn [store_field map fst].
  - right. split; [reflexivity | intros []].
  - destruct (Z.eqb_spec i index) as [-> | Hne].
    + left. split; [reflexivity | left; reflexivity].
    + cbn [map fst]. destruct IH as [[E Hin] | [E Hnin]].
      * left. rewrite E. split; [reflexivity | right; exact Hin].
      * right. rewrite E. split; [reflexivity|]. intros [H | H]; [congruence | exact (Hnin H)].
Qed.

Lemma NoDup_snoc {A : Type} (l : list A) (x : A) :
  List.NoDup l -> ~ In x l -> List.NoDup (l ++ [x]).
Proof.
  intros Hl Hx. apply List.NoDup_app; [exact Hl | repeat constructor; intros [] |].
  intros a Ha [<- | []]. exact (Hx Ha).
Qed.

Lemma collect_NoDup (form : list (string * PyVal)) (s s' : item_store) :
  collect form s = Got s' -> List.NoDup (map fst s) -> List.NoDup (map fst s').
Proof.
  revert s. induction form as [|kv rest IH]; intros s H Hs; cbn [collect] in H.
  - injection H as <-. exact Hs.
  - destruct (collect_field s kv) as [s1|e] eqn:E; [|discriminate H].
    apply (IH s1 H). unfold collect_field in E.
    destruct (startswith _ _); [|injection E as <-; exact Hs].
    destruct (split_on _ _) as [|p0 [|p1 rest']]; try discriminate E.
    destruct (py_int p1) as [index|]; [|discriminate E].
    destruct rest' as [|field ?]; [discriminate E|]. injection E as <-.
    destruct (store_field_indices index (PyStr.str field) (snd kv) s) as [[-> _] | [-> Hn]];
      [exact Hs | apply NoDup_snoc; assumption].
Qed.

Lemma insert_index_perm (x : Z * gmap string PyVal) (l : item_store) :
  Permutation (insert_index x l) (x :: l).
Proof.
  induction l as [|y r IH]; cbn [insert_index]; [reflexivity|].
  destruct (fst x <? fst y); [reflexivity|].
  rewrite IH. apply perm_swap.
Qed.

Lemma sorted_indices_perm (l : item_store) : Permutation (sorted_indices l) l.
Proof.
  induction l as [|x r IH]; [reflexivity|].
  cbn [sorted_indices fold_right]. fold (sorted_indices r).
  rewrite insert_index_perm, IH. reflexivity.
Qed.

Lemma insert_index_sorted (x : Z * gmap string PyVal) (l : item_store) :
  increasing (map fst l) -> ~ In (fst x) (map fst l) ->
  increasing (map fst (insert_index x l)).
Proof.
  induction l as [|y r IH]; cbn [insert_index map]; intros Hs Hx.
  - split; [constructor | exact I].
  - destruct Hs as [Hall Hr].
    destruct (Z.ltb_spec (fst x) (fst y)) as [Hlt | Hge]; cbn [map increasing].
    + split; [|split; assumption]. constructor; [exact Hlt|].
      eapply List.Forall_impl; [|exact Hall]. intros z Hz. cbn beta in Hz. lia.
    + assert (Hne : fst x <> fst y) by (intros E; apply Hx; left; symmetry; exact E).
      split.
      * apply List.Forall_forall. intros z Hz.
        apply (Permutation_in z (Permutation_map fst (insert_index_perm x r))) in Hz.
        destruct Hz as [<- | Hz]; [lia|].
        exact (proj1 (List.Forall_forall _ _) Hall z Hz).
      * apply IH; [exact Hr | intros H; apply Hx; right; exact H].
Qed.

Lemma sorted_indices_sorted (l : item_store) :
  List.NoDup (map fst l) -> increasing (map fst (sorted_indices l)).
Proof.
  induction l as [|x r IH]; cbn [map]; intros Hn; [exact I|].
  inversion Hn as [|? ? Hx Hr]; subst.
  cbn [sorted_indices fold_right]. fold (sorted_indices r).
  apply insert_index_sorted; [apply IH, Hr|].
  intros Hin. apply Hx.
  exact (Permutation_in _ (Permutation_map fst (sorted_indices_perm r)) Hin).
Qed.

Lemma item_decimal_VDec (item : gmap string PyVal) (key : string) (d : decimal) :
  item !! key = Some (VDec d) -> item_decimal item key = Ok (read_back d).
Proof.
  intros H. unfold item_decimal, dict_get_default, read_back, py_or. rewrite H.
  cbn [default from_option id truthy]. destruct (dec_bool d).
  - cbn [py_str]. apply Decimal_of_str_dec_str.
  - reflexivity.
Qed.

Lemma convert_item_fields (item item' : gmap string PyVal) :
  convert_item item = Ok item' -> decimal_fields item'.
Proof.
  unfold convert_item. intros H. inv_bind H. inv_bind H. inv_bind H.
  apply Ok_inj in H. subst item'.
  intros key [-> | [-> | ->]]; eexists; (split; [|apply item_decimal_VDec]).
  - rewrite lookup_insert_ne by discriminate. rewrite lookup_insert_ne by discriminate.
    apply lookup_insert_eq.
  - rewrite lookup_insert_ne by discriminate. rewrite lookup_insert_ne by discriminate.
    apply lookup_insert_eq.
  - rewrite lookup_insert_ne by discriminate. apply lookup_insert_eq.
  - rewrite lookup_insert_ne by discriminate. apply lookup_insert_eq.
  - apply lookup_insert_eq.
  - apply lookup_insert_eq.
Qed.

Lemma convert_items_spec (l l' : list (gmap string PyVal)) :
  convert_items l = Ok l' ->
  Forall2 (fun raw item => convert_item raw = Ok item) l l' /\ Forall decimal_fields l'.
Proof.
  revert l'. induction l as [|raw r IH]; intros l' H; cbn [convert_items] in H.
  - apply Ok_inj in H. subst l'. split; constructor.
  - inv_bind H. inv_bind H. apply Ok_inj in H. subst l'.
    match goal with Hx : convert_items r = Ok _ |- _ => destruct (IH _ Hx) as [IH1 IH2] end.
    split; constructor; try assumption. eapply convert_item_fields. eassumption.
Qed.

(** X14: the items that the route hands to the generator.  Whatever the
    order of the fields in the form, the items come in the increasing order
    of their indices, one item for every index; the quantity, the unit price
    and the VAT rate of every item are decimals (a missing or empty field is
    the decimal 0), and the engine reads each of them back as that decimal. *)
Theorem parse_items_sorted (form : list (string * PyVal)) (items : list (gmap string PyVal)) :
  parse_items form = Got items ->
  exists item_data,
    collect form [] = Got item_data /\
    List.NoDup (map fst item_data) /\
    Permutation (sorted_indices item_data) item_data /\
    increasing (map fst (sorted_indices item_data)) /\
    Forall2 (fun raw item => convert_item raw = Ok item)
      (map snd (sorted_indices item_data)) items /\
    Forall decimal_fields items.
Proof.
  unfold parse_items. intros H.
  destruct (collect form []) as [item_data|e] eqn:E; [|discriminate H].
  exists item_data. split; [reflexivity|].
  assert (Hn : List.NoDup (map fst item_data)) by (eapply collect_NoDup; [exact E | constructor]).
  split; [exact Hn|]. split; [apply sorted_indices_perm|].
  split; [apply sorted_indices_sorted, Hn|].
  destruct (convert_items _) as [l|] eqn:Ec; [|discriminate H].
  injection H as <-. apply convert_items_spec, Ec.
Qed.

Lemma parse_items_sorted_witness :
  parse_items sample_fields = Got sample_parsed /\
  exists item_data,
    collect sample_fields [] = Got item_data /\
    List.NoDup (map fst item_data) /\
    Permutation (sorted_indices item_data) item_data /\
    increasing (map fst (sorted_indices item_data)) /\
    Forall2 (fun raw item => convert_item raw = Ok item)
      (map snd (sorted_indices item_data)) sample_parsed /\
    Forall decimal_fields sample_parsed.
Proof.
  split; [exact (@eq_refl _ (Got sample_parsed) <: parse_items sample_fields = Got sample_parsed)|].
  apply (parse_items_sorted sample_fields).
  exact (@eq_refl _ (Got sample_parsed) <: parse_items sample_fields = Got sample_parsed).
Defined.

(** ** The amount stored with the invoice *)

Lemma stored_decimal_eq (item : gmap string PyVal) (key : string) :
  stored_decimal item key = item_decimal item key.
Proof.
  unfold stored_decimal, item_decimal, dict_get, dict_get_default.
  destruct (item !! key); reflexivity.
Qed.

Lemma stored_loop_same_net (flag : bool) (items : list (gmap string PyVal)) :
  forall (net n1 n2 : decimal) (s s1 : vat_summary) (v v2 : decimal),
  totals_loop flag items (net, s) = Ok (n1, s1) ->
  stored_loop items (net, v) = Ok (n2, v2) -> n2 = n1.
Proof.
  induction items as [|item rest IH]; intros net n1 n2 s s1 v v2 H1 H2.
  - cbn in H1, H2. congruence.
  - cbn [totals_loop stored_loop] in H1, H2. inv_bind H1. inv_bind H2.
    match goal with Hx : totals_step _ _ _ = Ok ?a |- _ =>
      rename Hx into Ht; destruct a as [na sa] end.
    match goal with Hx : stored_step _ _ = Ok ?a |- _ =>
      rename Hx into Hs; destruct a as [nb vb] end.
    assert (nb = na).
    { unfold totals_step in Ht. unfold stored_step in Hs.
      rewrite !stored_decimal_eq in Hs. cbn [fst snd] in Ht, Hs.
      destruct (item_decimal item "quantity") as [q|]; [|discriminate Ht].
      destruct (item_decimal item "unit_price") as [p|]; [|discriminate Ht].
      cbn [mbind result_bind bind] in Ht, Hs.
      inv_bind Ht. inv_bind Hs.
      destruct (dec_mul q p) as [line|]; [|discriminate Ht].
      cbn [mbind result_bind bind] in Ht, Hs.
      destruct (dec_add net line) as [net'|]; [|discriminate Ht].
      cbn [mbind result_bind bind] in Ht, Hs.
      inv_bind Ht. inv_bind Ht. apply Ok_inj in Ht.
      inv_bind Hs. inv_bind Hs. inv_bind Hs. apply Ok_inj in Hs. congruence. }
    subst nb. eapply IH; eassumption.
Qed.

(** X15: the amount stored in the database is computed from the same net
    total as the invoice: whenever both the engine and the route compute
    their totals, the net total of the route is the net total of the engine,
    digit for digit, with or without the small-business flag. *)
Theorem stored_net_is_invoice_net (items : list (gmap string PyVal)) (flag : bool)
    (net : decimal) (total_vat : PyVal) (gross : decimal) (summary : vat_summary)
    (net' vat' gross' : decimal) :
  _calculate_totals items flag = Ok (net, total_vat, gross, summary) ->
  stored_total items = Ok (net', vat', gross') ->
  net' = net.
Proof.
  intros H1 H2. apply calculate_totals_inv in H1 as (Hloop & _ & _).
  unfold stored_total in H2. inv_bind H2. inv_bind H2. apply Ok_inj in H2.
  match goal with Hx : stored_loop _ _ = Ok ?a |- _ => destruct a as [n v]; rename Hx into Hs end.
  cbn [fst snd] in H2. injection H2 as <- <- <-.
  eapply stored_loop_same_net; eassumption.
Qed.

Lemma stored_net_is_invoice_net_witness :
  exists net total_vat gross summary net' vat' gross',
    _calculate_totals three_lines true = Ok (net, total_vat, gross, summary) /\
    stored_total three_lines = Ok (net', vat', gross') /\
    net' = net.
Proof.
  eexists _, _, _, _, _, _, _. split; [vm_compute; reflexivity|].
  split; [vm_compute; reflexivity|].
  eapply (stored_net_is_invoice_net three_lines true); vm_compute; reflexivity.
Defined.

(** Both loops side by side, within the bounds. *)
Lemma stored_loop_exact (items : list (gmap string PyVal)) :
  forall (k : Z) (net : decimal) (s : vat_summary) (v : decimal),
  0 <= k -> k + Z.of_nat (length items) <= 1000 ->
  exact_state k net s -> Forall (small_item false) items ->
  good v -> Z.abs (sval v) <= k * 10 ^ 24 ->
  Z.abs (sum_vat s - sval v) <= k * (5 * 10 ^ 9) ->
  exists net' s' v',
    totals_loop false items (net, s) = Ok (net', s') /\
    stored_loop items (net, v) = Ok (net', v') /\
    exact_state (k + Z.of_nat (length items)) net' s' /\
    good v' /\
    Z.abs (sval v') <= (k + Z.of_nat (length items)) * 10 ^ 24 /\
    Z.abs (sum_vat s' - sval v') <= (k + Z.of_nat (length items)) * (5 * 10 ^ 9).
Proof.
  induction items as [|item rest IH]; intros k net s v Hk Hlen Hst Hall Gv Bv Hd.
  - exists net, s, v. cbn [length]. rewrite Z.add_0_r. auto 10.
  - inversion Hall as [|? ? Hitem Hrest]; subst.
    cbn [length] in *. rewrite Nat2Z.inj_succ in *.
    destruct (totals_step_exact false k net s item ltac:(lia) Hst Hitem)
      as (net1 & s1 & q & p & r & line & fraction & lv & rounded & Hstep & Hst1 & Hq & Hp & Hr
          & Hline & Hnet & Hfrac & Hlv & Hquant & Gl & Glv & Al & Alv & Sn & Sv & Hround & Hval).
    change (10 ^ 24) with 1000000000000000000000000 in *.
    change (5 * 10 ^ 9) with 5000000000 in *.
    destruct (dec_add_exact v lv Gv Glv) as (v1 & Hv1 & Gv1 & Sv1).
    { change (10 ^ 28) with 10000000000000000000000000000. lia. }
    destruct (IH (k + 1) net1 s1 v1 ltac:(lia) ltac:(lia) Hst1 Hrest Gv1 ltac:(lia) ltac:(lia))
      as (net' & s' & v' & Hloop & Hsl & Hst' & Gv' & Bv' & Hd').
    exists net', s', v'.
    replace (k + Z.succ (Z.of_nat (length rest))) with (k + 1 + Z.of_nat (length rest)) by lia.
    split; [cbn [totals_loop]; rewrite Hstep; exact Hloop|].
    split; [|auto].
    cbn [stored_loop]. unfold stored_step. rewrite !stored_decimal_eq, Hq, Hp.
    cbn [mbind result_bind bind]. unfold effective_rate in Hr. rewrite Hr.
    cbn [mbind result_bind bind]. rewrite Hline. cbn [mbind result_bind bind fst snd].
    rewrite Hnet. cbn [mbind result_bind bind]. rewrite Hfrac. cbn [mbind result_bind bind].
    rewrite Hlv. cbn [mbind result_bind bind]. rewrite Hv1. cbn [mbind result_bind bind].
    exact Hsl.
Qed.

Lemma stored_error_Q (G' G : Z) (n : nat) :
  Z.abs (G' - G) <= Z.of_nat n * (5 * 10 ^ 9) ->
  (Qabs ((G' # units) - (G # units)) <= inject_Z (Z.of_nat n) * (1 # 200))%Q.
Proof.
  intros Hb.
  assert (E : ((G' # units) - (G # units) == (G' - G) # units)%Q).
  { unfold Qeq, Qminus, Qplus, Qopp. cbn [Qnum Qden]. rewrite Pos2Z.inj_mul. ring. }
  rewrite E. unfold Qabs, Qle. cbn [Qnum Qden inject_Z Qmult].
  change (Z.pos units) with 1000000000000.
  change (5 * 10 ^ 9) with 5000000000 in Hb. lia.
Qed.

(** X16: the amount stored in the database against the gross total on the
    invoice.  For an invoice that is not of a small business (and within
    the bounds of X8) the route computes its amount and the engine its
    gross total, and the two differ by at most half a cent for every line:
    the route adds the VAT of the lines without rounding it. *)
Theorem stored_amount_near_gross (items : list (gmap string PyVal)) :
  Forall (small_item false) items -> (length items <= 1000)%nat ->
  exists net total_vat gross summary vat' gross',
    _calculate_totals items false = Ok (net, total_vat, gross, summary) /\
    stored_total items = Ok (net, vat', gross') /\
    (Qabs (dec_to_Q gross' - dec_to_Q gross)
     <= inject_Z (Z.of_nat (length items)) * (1 # 200))%Q.
Proof.
  intros Hall Hlen.
  assert (H0 : exact_state 0 Decimal_0_0 []).
  { split; [apply good_Finite; lia|]. repeat split; try constructor; simpl; lia. }
  assert (G0 : good Decimal_0_0) by (apply good_Finite; lia).
  destruct (stored_loop_exact items 0 Decimal_0_0 [] Decimal_0_0 ltac:(lia) ltac:(lia) H0 Hall G0)
    as (net & s & v & Hloop & Hsl & (Gn & Bn & Gs & Bb & Bv & Hsum) & Gv & Bvv & Hd).
  { change (sval Decimal_0_0) with 0. simpl. lia. }
  { change (sval Decimal_0_0) with 0. simpl. lia. }
  unfold line_bound in *.
  change (10 ^ 24) with 1000000000000000000000000 in *.
  assert (Hn : Z.of_nat (length items) <= 1000) by lia.
  destruct (py_sum_exact s Gs) as (tv & Htv & Gtv & Stv).
  { change (10 ^ 28) with 10000000000000000000000000000. lia. }
  pose proof (abs_sum_vat s) as Habs.
  destruct (add_total_exact net tv Gn Gtv) as (gross & Hgross & Gg & Sg).
  { change (10 ^ 28) with 10000000000000000000000000000. lia. }
  destruct (dec_add_exact net v Gn Gv) as (gross' & Hgross' & Gg' & Sg').
  { change (10 ^ 28) with 10000000000000000000000000000. lia. }
  exists net, tv, gross, s, v, gross'.
  split.
  { unfold _calculate_totals. rewrite Hloop. cbn [mbind result_bind bind fst snd].
    rewrite Htv. cbn [mbind result_bind bind]. rewrite Hgross. reflexivity. }
  split.
  { unfold stored_total. rewrite Hsl. cbn [mbind result_bind bind fst snd].
    rewrite Hgross'. reflexivity. }
  rewrite (dec_to_Q_sval gross' Gg'), (dec_to_Q_sval gross Gg).
  apply stored_error_Q. rewrite Sg, Sg', Stv.
  replace (sval net + sval v - (sval net + sum_vat s)) with (- (sum_vat s - sval v)) by ring.
  rewrite Z.abs_opp. rewrite Z.add_0_l in Hd. exact Hd.
Qed.

Lemma stored_amount_near_gross_witness :
  exists net total_vat gross summary vat' gross',
    _calculate_totals three_cents false = Ok (net, total_vat, gross, summary) /\
    stored_total three_cents = Ok (net, vat', gross') /\
    (Qabs (dec_to_Q gross' - dec_to_Q gross)
     <= inject_Z (Z.of_nat (length three_cents)) * (1 # 200))%Q.
Proof.
  apply (stored_amount_near_gross three_cents).
  - repeat constructor; small_item_tac.
  - simpl. lia.
Defined.

(** ** The order of the VAT rows *)

Lemma signed_at_scale (m' m : Z) (s : bool) (c : N) (e : Z) :
  m' <= m <= e -> signed_at m' s c e = signed_at m s c e * 10 ^ (m - m').
Proof.
  intros H. unfold signed_at. cbv zeta.
  assert (E : Z.of_N (c * pow10 (e - m')) = Z.of_N (c * pow10 (e - m)) * 10 ^ (m - m')).
  { rewrite !N2Z.inj_mul, !pow10_Z by lia.
    replace (e - m') with ((e - m) + (m - m')) by lia.
    rewrite Z.pow_add_r by lia. ring. }
  rewrite E. destruct s; ring.
Qed.

Lemma dec_cmp_scaled (m : Z) (s1 s2 : bool) (c1 c2 : N) (e1 e2 : Z) :
  m <= e1 -> m <= e2 ->
  dec_cmp (Finite s1 c1 e1) (Finite s2 c2 e2)
  = (scaled m (Finite s1 c1 e1) ?= scaled m (Finite s2 c2 e2)).
Proof.
  intros H1 H2. cbn [dec_cmp scaled]. cbv zeta.
  rewrite (signed_at_scale m (Z.min e1 e2) s1 c1 e1) by lia.
  rewrite (signed_at_scale m (Z.min e1 e2) s2 c2 e2) by lia.
  apply Zmult_compare_compat_r. apply Z.lt_gt, Z.pow_pos_nonneg; lia.
Qed.

(** The comparison orders the numbers: below a number that is not above a
    third one means below the third one. *)
Lemma dec_cmp_trans (x y z : decimal) :
  is_nan x = false -> is_nan y = false -> is_nan z = false ->
  dec_cmp x y = Lt -> dec_cmp z y <> Lt -> dec_cmp z x <> Lt.
Proof.
  intros Nx Ny Nz.
  destruct x as [sx cx ex | sx | |]; try discriminate Nx;
  destruct y as [sy cy ey | sy | |]; try discriminate Ny;
  destruct z as [sz cz ez | sz | |]; try discriminate Nz.
  - (* three finite numbers *)
    set (m := Z.min ex (Z.min ey ez)).
    rewrite (dec_cmp_scaled m sx sy cx cy ex ey) by (unfold m; lia).
    rewrite (dec_cmp_scaled m sz sy cz cy ez ey) by (unfold m; lia).
    rewrite (dec_cmp_scaled m sz sx cz cx ez ex) by (unfold m; lia).
    rewrite !Z.compare_lt_iff. lia.
  - (* x, y finite, z infinite *)
    intros _ H. exact H.
  - (* x finite, y infinite, z finite *)
    change (dec_cmp (Finite sx cx ex) (Infinity sy)) with (0 ?= inf_rank (Infinity sy)).
    change (dec_cmp (Finite sz cz ez) (Infinity sy)) with (0 ?= inf_rank (Infinity sy)).
    intros H H'. contradiction.
  - (* x finite, y and z infinite *)
    change (dec_cmp (Infinity sz) (Finite sx cx ex)) with (inf_rank (Infinity sz) ?= 0).
    destruct sy, sz; cbn; intros H H'; congruence.
  - (* x infinite, y and z finite *)
    change (dec_cmp (Finite sz cz ez) (Infinity sx)) with (0 ?= inf_rank (Infinity sx)).
    change (dec_cmp (Infinity sx) (Finite sy cy ey)) with (inf_rank (Infinity sx) ?= 0).
    destruct sx; cbn; intros H _; congruence.
  - (* x infinite, y finite, z infinite *)
    change (dec_cmp (Infinity sx) (Finite sy cy ey)) with (inf_rank (Infinity sx) ?= 0).
    change (dec_cmp (Infinity sz) (Finite sy cy ey)) with (inf_rank (Infinity sz) ?= 0).
    destruct sx, sz; cbn; intros H H'; congruence.
  - (* x and y infinite, z finite *)
    change (dec_cmp (Finite sz cz ez) (Infinity sy)) with (0 ?= inf_rank (Infinity sy)).
    change (dec_cmp (Finite sz cz ez) (Infinity sx)) with (0 ?= inf_rank (Infinity sx)).
    destruct sx, sy; cbn; intros H H'; congruence.
  - (* three infinities *)
    destruct sx, sy, sz; cbn; intros H H'; congruence.
Qed.

Lemma dec_cmp_refl (d : decimal) : dec_cmp d d = Eq.
Proof.
  destruct d as [s c e | s | s p | s p]; cbn [dec_cmp]; try apply Z.compare_refl.
Qed.

Lemma dec_lt_inv (a b : decimal) (v : bool) :
  dec_lt a b = Ok v ->
  is_nan a = false /\ is_nan b = false /\
  v = match dec_cmp a b with Lt => true | _ => false end.
Proof.
  unfold dec_lt. destruct (is_nan a); [discriminate|]. destruct (is_nan b); [discriminate|].
  cbn [orb]. intros H. apply Ok_inj in H. auto.
Qed.

Lemma dec_lt_trans (x y z : decimal) :
  dec_lt x y = Ok true -> dec_lt z y = Ok false -> dec_lt z x = Ok false.
Proof.
  intros H1 H2.
  apply dec_lt_inv in H1 as (Nx & Ny & H1). apply dec_lt_inv in H2 as (Nz & _ & H2).
  unfold dec_lt. rewrite Nz, Nx. cbn [orb]. f_equal.
  destruct (dec_cmp z x) eqn:E; try reflexivity.
  exfalso. apply (dec_cmp_trans x y z Nx Ny Nz); [| |exact E].
  - destruct (dec_cmp x y); congruence.
  - destruct (dec_cmp z y); congruence.
Qed.

Lemma dec_lt_asym (x y : decimal) : dec_lt x y = Ok true -> dec_lt y x = Ok false.
Proof.
  intros H. apply (dec_lt_trans x y y H).
  apply dec_lt_inv in H as (_ & Ny & _).
  unfold dec_lt. rewrite Ny, dec_cmp_refl. reflexivity.
Qed.

Lemma insert_sorted_In (x : decimal * bucket) (l l' : vat_summary) (z : decimal) :
  insert_sorted x l = Ok l' -> In z (map fst l') -> z = fst x \/ In z (map fst l).
Proof.
  intros H Hz. apply insert_sorted_perm in H.
  apply (Permutation_map fst) in H. symmetry in H.
  apply (Permutation_in z H) in Hz. destruct Hz as [<- | Hz]; auto.
Qed.

Lemma insert_sorted_ascending (x : decimal * bucket) (l l' : vat_summary) :
  insert_sorted x l = Ok l' -> ascending (map fst l) -> ascending (map fst l').
Proof.
  revert l'. induction l as [|y r IH]; intros l' H Ha; cbn [insert_sorted] in H.
  - apply Ok_inj in H. subst l'. split; [constructor | exact I].
  - inv_bind H.
    match goal with Hx : dec_lt _ _ = Ok ?b |- _ => rename Hx into Hlt; destruct b end.
    + apply Ok_inj in H. subst l'. cbn [map ascending] in *. destruct Ha as [Hall Hr].
      split; [|split; assumption].
      constructor; [apply dec_lt_asym, Hlt|].
      eapply List.Forall_impl; [|exact Hall]. intros z Hz. cbn beta in Hz.
      eapply dec_lt_trans; eassumption.
    + inv_bind H. apply Ok_inj in H. subst l'.
      match goal with Hx : insert_sorted x r = Ok ?a |- _ => rename Hx into Hins; rename a into r' end.
      cbn [map ascending] in *. destruct Ha as [Hall Hr].
      split; [|eapply IH; eassumption].
      apply List.Forall_forall. intros z Hz.
      destruct (insert_sorted_In x r r' z Hins Hz) as [-> | Hz']; [exact Hlt|].
      exact (proj1 (List.Forall_forall _ _) Hall z Hz').
Qed.

Lemma sorted_items_ascending (l l' : vat_summary) :
  sorted_items l = Ok l' -> ascending (map fst l').
Proof.
  revert l'. induction l as [|x r IH]; intros l' H; cbn [sorted_items] in H.
  - apply Ok_inj in H. subst l'. exact I.
  - inv_bind H. eapply insert_sorted_ascending; [exact H|]. eapply IH. eassumption.
Qed.

Lemma Forall_fst_filter (Q : decimal -> Prop) (P : decimal * bucket -> bool) (l : vat_summary) :
  List.Forall Q (map fst l) -> List.Forall Q (map fst (List.filter P l)).
Proof.
  induction l as [|x r IH]; cbn [map List.filter]; intros H; [constructor|].
  inversion H as [|? ? Hx Hr]; subst.
  destruct (P x); [constructor; [exact Hx | apply IH, Hr] | apply IH, Hr].
Qed.

Lemma ascending_filter (P : decimal * bucket -> bool) (l : vat_summary) :
  ascending (map fst l) -> ascending (map fst (List.filter P l)).
Proof.
  induction l as [|x r IH]; cbn [map List.filter ascending]; intros H; [exact I|].
  destruct H as [Hall Hr]. destruct (P x).
  - cbn [map ascending]. split; [apply Forall_fst_filter, Hall | apply IH, Hr].
  - apply IH, Hr.
Qed.

Lemma vat_rows_of_shown (l : vat_summary) (rows : list row) :
  vat_rows_of l = Ok rows -> rows = map vat_row (List.filter vat_positive l).
Proof.
  revert rows. induction l as [|kv r IH]; intros rows H; cbn [vat_rows_of] in H.
  - apply Ok_inj in H. subst rows. reflexivity.
  - inv_bind H. inv_bind H. apply Ok_inj in H. subst rows.
    match goal with Hx : dec_gt _ _ = Ok ?b |- _ =>
      assert (Hp : vat_positive kv = b) by (unfold vat_positive; rewrite Hx; reflexivity) end.
    cbn [List.filter]. rewrite Hp.
    match goal with Hx : vat_rows_of r = Ok _ |- _ => rewrite (IH _ Hx) end.
    match goal with b : bool |- _ => destruct b end; reflexivity.
Qed.

(** X17: the VAT rows of the table come in the ascending order of their
    rates, whatever the order of the items: between the row of the net total
    and the row of the gross total there are the rows of buckets of the
    summary, and no row shows a rate that is less than the rate of a row
    before it. *)
Theorem vat_rows_ascending (fd : gmap string PyVal) (items : list (gmap string PyVal))
    (rows : list row) :
  table_data fd items = Ok rows ->
  exists irows net shown gross,
    rows = header_row :: irows ++ [netto_row net] ++ map vat_row shown ++ [gesamt_row gross] /\
    ascending (map fst shown).
Proof.
  intros H.
  destruct (table_data_inv _ _ _ H) as (net & tv & gross & summary & irows & vrows & Hc & Hi & Hv & ->).
  unfold vat_rows in Hv. destruct (is_small_business_flag fd).
  - apply Ok_inj in Hv. subst vrows. exists irows, net, [], gross. split; [reflexivity | exact I].
  - inv_bind Hv.
    match goal with Hx : sorted_items _ = Ok ?a |- _ => rename Hx into Hs; rename a into sorted end.
    apply vat_rows_of_shown in Hv. subst vrows.
    exists irows, net, (List.filter vat_positive sorted), gross. split; [reflexivity|].
    apply ascending_filter. eapply sorted_items_ascending, Hs.
Qed.

Lemma vat_rows_ascending_witness :
  exists rows irows net shown gross,
    table_data sample_form three_lines = Ok rows /\
    rows = header_row :: irows ++ [netto_row net] ++ map vat_row shown ++ [gesamt_row gross] /\
    ascending (map fst shown).
Proof.
  destruct (table_data sample_form three_lines) as [rows|] eqn:E; [|vm_compute in E; discriminate E].
  exists rows.
  destruct (vat_rows_ascending sample_form three_lines rows E) as (irows & net & shown & gross & H).
  exists irows, net, shown, gross. split; [reflexivity | exact H].
Defined.

(** * The sums of the buckets and the one cent *)

(** C3, as the code has it: for up to a thousand items whose quantities
    and unit prices are below one million with at most four decimal places
    and whose rates are below 100 with at most two places, and for either
    value of the flag, the engine returns, and in what it returns the basis
    amounts of the buckets add up exactly to the net total and the VAT
    amounts of the buckets add up exactly to the total VAT. *)
Theorem C3_bucket_sums (flag : bool) (items : list (gmap string PyVal)) :
  Forall (small_item flag) items -> (length items <= 1000)%nat ->
  exists net total_vat gross summary,
    _calculate_totals items flag = Ok (net, total_vat, gross, summary) /\
    (basis_total summary == dec_to_Q net)%Q /\
    (vat_total summary == py_to_Q total_vat)%Q /\
    py_sum (map (fun kv => vat (snd kv)) summary) = Ok total_vat.
Proof.
  intros Hall Hlen.
  destruct (calculate_totals_exact flag items Hall Hlen)
    as (net & tv & gross & s & Hc & Gn & Gtv & Gg & Gs & Sb & Sv & Sg & _).
  exists net, tv, gross, s. split; [exact Hc|].
  rewrite (basis_total_sval s Gs), (vat_total_sval s Gs), (dec_to_Q_sval net Gn),
    (py_to_Q_sval tv Gtv), Sb, Sv.
  split; [reflexivity|]. split; [reflexivity|].
  unfold _calculate_totals in Hc. inv_bind Hc. destruct a as [n0 s0].
  inv_bind Hc. inv_bind Hc. apply Ok_inj in Hc. injection Hc as <- <- <- <-.
  assumption.
Qed.

Lemma C3_bucket_sums_witness :
  exists net total_vat gross summary,
    _calculate_totals three_lines true = Ok (net, total_vat, gross, summary) /\
    (basis_total summary == dec_to_Q net)%Q /\
    (vat_total summary == py_to_Q total_vat)%Q /\
    py_sum (map (fun kv => vat (snd kv)) summary) = Ok total_vat.
Proof.
  apply (C3_bucket_sums true three_lines).
  - repeat constructor; small_item_tac.
  - simpl. lia.
Defined.

(** A quantity of 28 digits: the net total has no room for the eighty cents
    of the two other lines, which the bucket of their rate holds, and the
    basis amounts of the buckets add up to eighty cents more than the net
    total. *)
Lemma C3_counterexample :
  exists net total_vat gross summary,
    _calculate_totals long_quantity false = Ok (net, total_vat, gross, summary) /\
    dec_str net = "9999999999999999999999999999" /\
    map (fun kv => dec_str (basis (snd kv))) summary = ["9999999999999999999999999999"; "0.8"] /\
    (basis_total summary - dec_to_Q net == 4 # 5)%Q /\
    ~ (basis_total summary == dec_to_Q net)%Q.
Proof.
  eexists _, _, _, _. split; [vm_compute; reflexivity|].
  split; [vm_compute; reflexivity|]. split; [vm_compute; reflexivity|].
  split; [vm_compute; reflexivity|].
  intros H. vm_compute in H. discriminate H.
Qed.

(** C4, as the code has it: for up to a thousand items that all store the
    same rate (quantities and unit prices below one million with at most
    four decimal places, the rate below 100 with at most two places) and
    without the small-business flag, the gross total differs from the net
    total plus the rate applied to it by at most half a cent for every
    line, since every line rounds its own VAT to cents, half up; this is
    at most one cent for one line and for two lines. *)
Theorem C4_gross_within_half_cent_per_line (items : list (gmap string PyVal))
    (rate : decimal) :
  Forall (small_item false) items -> (length items <= 1000)%nat ->
  Forall (fun item => item_decimal item "vat_rate" = Ok rate) items ->
  exists net total_vat gross summary,
    _calculate_totals items false = Ok (net, total_vat, gross, summary) /\
    (Qabs (dec_to_Q gross - (dec_to_Q net + dec_to_Q net * dec_to_Q rate / (100 # 1)))
     <= inject_Z (Z.of_nat (length items)) * (1 # 200))%Q /\
    ((length items <= 2)%nat ->
     (Qabs (dec_to_Q gross - (dec_to_Q net + dec_to_Q net * dec_to_Q rate / (100 # 1)))
      <= 1 # 100)%Q).
Proof.
  intros Hall Hlen Hrate.
  destruct (calculate_totals_exact false items Hall Hlen)
    as (net & tv & gross & s & Hc & Gn & Gtv & Gg & Gs & Sb & Sv & Sg & Hbound).
  exists net, tv, gross, s. split; [exact Hc|].
  assert (Hb : (Qabs (dec_to_Q gross
                      - (dec_to_Q net + dec_to_Q net * dec_to_Q rate / (100 # 1)))
                <= inject_Z (Z.of_nat (length items)) * (1 # 200))%Q).
  { destruct items as [|item rest].
    - unfold _calculate_totals in Hc. cbn in Hc. apply Ok_inj in Hc.
      injection Hc as <- <- <- <-. vm_compute. discriminate.
    - assert (Gr : good rate).
      { inversion Hall as [|? ? (q & p & r & _ & _ & Hr & _ & _ & Sr) _]; subst.
        inversion Hrate as [|? ? Hr' _]; subst.
        unfold effective_rate in Hr. rewrite Hr' in Hr. apply Ok_inj in Hr. subst r.
        apply small_rate_good, Sr. }
      assert (HR : Forall (has_rate false (sval rate)) (item :: rest)).
      { eapply Forall_impl; [exact Hrate|].
        intros i Hi. exists rate. split; [exact Hi | reflexivity]. }
      specialize (Hbound _ HR).
      rewrite (dec_to_Q_sval gross Gg), (dec_to_Q_sval net Gn), (dec_to_Q_sval rate Gr).
      eapply gross_error_Q; [reflexivity|].
      rewrite Sg. replace (sval net + sval_py tv - sval net) with (sval_py tv) by ring.
      exact Hbound. }
  split; [exact Hb|]. intros Htwo.
  eapply Qle_trans; [exact Hb|].
  unfold Qle. cbn [Qnum Qden inject_Z Qmult]. lia.
Qed.

Lemma C4_gross_within_half_cent_per_line_witness :
  exists net total_vat gross summary,
    _calculate_totals consulting false = Ok (net, total_vat, gross, summary) /\
    (Qabs (dec_to_Q gross
           - (dec_to_Q net + dec_to_Q net * dec_to_Q (Finite false 19 0) / (100 # 1)))
     <= inject_Z (Z.of_nat (length consulting)) * (1 # 200))%Q /\
    ((length consulting <= 2)%nat ->
     (Qabs (dec_to_Q gross
            - (dec_to_Q net + dec_to_Q net * dec_to_Q (Finite false 19 0) / (100 # 1)))
      <= 1 # 100)%Q).
Proof.
  apply (C4_gross_within_half_cent_per_line consulting (Finite false 19 0)).
  - repeat constructor; small_item_tac.
  - simpl. lia.
  - repeat constructor.
Defined.

(** Three lines of three cents at 19 percent: every line rounds its VAT of
    0.0057 up to one cent, the gross total is 0.12, and the net total plus
    19 percent of it is 0.1071, more than one cent less. *)
Lemma C4_counterexample :
  exists net total_vat gross summary,
    Forall (fun item => item_decimal item "vat_rate" = Ok (Finite false 19 0)) three_cents /\
    _calculate_totals three_cents false = Ok (net, total_vat, gross, summary) /\
    dec_str net = "0.09" /\
    dec_str gross = "0.12" /\
    (dec_to_Q gross - (dec_to_Q net + dec_to_Q net * dec_to_Q (Finite false 19 0) / (100 # 1))
     == 129 # 10000)%Q /\
    (1 # 100
     < Qabs (dec_to_Q gross
             - (dec_to_Q net + dec_to_Q net * dec_to_Q (Finite false 19 0) / (100 # 1))))%Q.
Proof.
  eexists _, _, _, _. split; [repeat constructor|].
  split; [vm_compute; reflexivity|].
  split; [vm_compute; reflexivity|]. split; [vm_compute; reflexivity|].
  split; vm_compute; reflexivity.
Qed.
